(** * Patcherex: the jump-out/jump-back binary patcher

    A shallow embedding of [patcherex/patcherex.py] (class [Patcher]) and
    the properties of its header rewriter, block locator, movability
    oracle, address translation, compile pipeline and detour engine.

    Python 2 strings that hold image bytes are [list byte]; assembly text
    is [string]; Python integers are [Z]; exceptions are the [Raise] case
    of [result]. *)

From Stdlib Require Import ZArith List String Ascii Lia Bool HexString.
From Stdlib Require Import Strings.Byte.
From stdpp Require Import base option list list_numbers sorting gmap strings.

Local Open Scope Z_scope.

(** ** Exceptions and results *)

Inductive exn : Type :=
| MissingBlockException (msg : string)
| DetourException (msg : string)
| InvalidVAddrException (msg : string)
| AssertionError
| TypeError
| IndexError
| AttributeError
| StructError
| AssemblerError.

(** [OutOfFuel] is not a Python outcome: it marks a run of a [while] loop
    that the model stopped before the loop's exit test was met. *)
Inductive result (A : Type) : Type :=
| Ok (a : A)
| Raise (e : exn)
| OutOfFuel.
Arguments Ok {A} a.
Arguments Raise {A} e.
Arguments OutOfFuel {A}.

#[global] Instance result_ret : MRet result := fun A a => Ok a.
#[global] Instance result_bind : MBind result := fun A B f m =>
  match m with
  | Ok a => f a
  | Raise e => Raise e
  | OutOfFuel => OutOfFuel
  end.

(** [assert c] *)
Definition py_assert (c : bool) : result unit :=
  if c then Ok tt else Raise AssertionError.

(** Monadic left fold: a [for] loop whose body may raise. *)
Fixpoint foldM {A S : Type} (f : S -> A -> result S) (l : list A) (s : S)
  : result S :=
  match l with
  | [] => Ok s
  | x :: l' => s' ← f s x; foldM f l' s'
  end.

(** What a call to a collaborator yields: a value or an exception. *)
Inductive outcome (A : Type) : Type :=
| Returns (a : A)
| Throws (e : exn).
Arguments Returns {A} a.
Arguments Throws {A} e.

Definition call {A : Type} (o : outcome A) : result A :=
  match o with
  | Returns a => Ok a
  | Throws e => Raise e
  end.

(** ** Python sequences *)

Module Py.

Definition len {A : Type} (l : list A) : Z := Z.of_nat (length l).

(** Slice bounds are clipped the way Python clips them: a negative bound
    counts from the end, and anything outside [0, len] is moved to the
    nearest end. *)
Definition clip (n i : Z) : Z :=
  if i <? 0 then Z.max 0 (n + i) else Z.min i n.

(** [s[a:b]] *)
Definition slice {A : Type} (s : list A) (a b : Z) : list A :=
  let lo := clip (len s) a in
  let hi := clip (len s) b in
  firstn (Z.to_nat (hi - lo)) (skipn (Z.to_nat lo) s).

(** [s[:b]] *)
Definition slice_to {A : Type} (s : list A) (b : Z) : list A :=
  firstn (Z.to_nat (clip (len s) b)) s.

(** [s[a:]] *)
Definition slice_from {A : Type} (s : list A) (a : Z) : list A :=
  skipn (Z.to_nat (clip (len s) a)) s.

(** [l[i]]: a negative index counts from the end; out of range raises. *)
Definition getitem {A : Type} (l : list A) (i : Z) : result A :=
  let j := if i <? 0 then len l + i else i in
  if (0 <=? j) && (j <? len l) then
    match nth_error l (Z.to_nat j) with
    | Some x => Ok x
    | None => Raise IndexError
    end
  else Raise IndexError.

(** [range(a, b)] *)
Definition range (a b : Z) : list Z := seqZ a (b - a).

(** [s.ljust(n, pad)] for a one-character [pad]. *)
Definition ljust {A : Type} (s : list A) (n : Z) (pad : A) : list A :=
  s ++ repeat pad (Z.to_nat (n - len s)).

(** [bisect.bisect_right(a, x)]: the library's binary search,
    [lo, hi = 0, len(a)]; [while lo < hi: mid = (lo+hi)//2;
    if x < a[mid]: hi = mid else: lo = mid+1]; [return lo].
    The interval halves at every turn, so [length a] turns are enough. *)
Fixpoint bisect_right_loop (fuel : nat) (a : list Z) (x : Z) (lo hi : nat)
  : nat :=
  match fuel with
  | O => lo
  | S fuel' =>
      if (lo <? hi)%nat then
        let mid := ((lo + hi) / 2)%nat in
        if x <? nth mid a 0
        then bisect_right_loop fuel' a x lo mid
        else bisect_right_loop fuel' a x (mid + 1)%nat hi
      else lo
  end.

Definition bisect_right (a : list Z) (x : Z) : Z :=
  Z.of_nat (bisect_right_loop (length a) a x 0%nat (length a)).

(** [hex(n)] and ["%#x" % n] for a Python [int]. *)
Definition hex (n : Z) : string := HexString.of_Z n.

End Py.

(** ** The analysed program: CFG nodes, blocks, instructions *)

Definition bytes := list byte.
#[global] Instance byte_eq_decision : EqDecision byte := Byte.byte_eq_dec.

Record CFGNode : Type := {
  node_addr : Z;
  node_size : Z;
  node_instruction_addrs : list Z
}.

Record Block : Type := {
  block_addr : Z;
  block_size : Z;
  block_bytes : bytes
}.

(** A decoded instruction, as the disassembler returns it. *)
Record Insn : Type := {
  address : Z;
  insn_bytes : bytes;
  mnemonic : string;
  op_str : string
}.

(** The collaborators the patcher calls but does not define: the CFG and
    block factory of the analysed project, its loader, and the assembler
    and disassembler helpers. *)
Record Env : Type := {
  (** [self.cfg.nodes()] *)
  cfg_nodes : list CFGNode;
  (** [self.cfg.get_any_node(addr, is_syscall=False)]; [None] when the
      CFG has no such node. *)
  get_any_node : Z -> option CFGNode;
  (** [self.project.factory.block(addr)] and
      [self.project.factory.block(addr, num_inst=n)] *)
  factory_block : Z -> option Z -> Block;
  (** [self.project.loader.main_bin.addr_to_offset(addr)] *)
  addr_to_offset : Z -> option Z;
  (** [utils.compile_asm(code, base, name_map)] *)
  compile_asm : string -> Z -> option (gmap string Z) -> outcome bytes;
  (** [utils.compile_asm_fake_symbol(code, base)] *)
  compile_asm_fake_symbol : string -> Z -> outcome bytes;
  (** [utils.compile_jmp(origin, target)] *)
  compile_jmp : Z -> Z -> outcome bytes;
  (** [utils.decompile(code, offset)] *)
  decompile : bytes -> Z -> list Insn;
  (** [utils.instruction_to_str(instruction)] *)
  instruction_to_str : Insn -> string;
  (** [utils.capstone_to_nasm(instruction)] *)
  capstone_to_nasm : Insn -> string
}.

(** ** Block locator *)

Section Locator.
Context (E : Env).

(** [sorted(self.cfg.nodes(), key=lambda x: x.addr)] *)
Definition node_le (x y : CFGNode) : Prop := node_addr x <= node_addr y.
#[global] Instance node_le_dec : RelDecision node_le.
Proof. intros x y. unfold node_le. apply _. Defined.

Definition sorted_nodes (nodes : list CFGNode) : list CFGNode :=
  merge_sort node_le nodes.

(** One turn of the loop of [get_ordered_nodes]; the state is
    [(prev_addr, ordered_nodes)]. *)
Definition ordered_step (st : option Z * list Z) (n : CFGNode)
  : option Z * list Z :=
  let '(prev_addr, ordered_nodes) := st in
  if decide (Some (node_addr n) = prev_addr) then st
  else (Some (node_addr n), ordered_nodes ++ [node_addr n]).

Definition get_ordered_nodes : list Z :=
  snd (fold_left ordered_step (sorted_nodes (cfg_nodes E)) (None, [])).

Definition ordered_nodes : list Z := get_ordered_nodes.

Definition get_block_containing_inst (inst_addr : Z) : result Z :=
  let index := Py.bisect_right ordered_nodes inst_addr - 1 in
  a ← Py.getitem ordered_nodes index;
  match get_any_node E a with
  | None => Raise AttributeError
  | Some node =>
      if existsb (Z.eqb inst_addr) (node_instruction_addrs node)
      then Ok (node_addr node)
      else Raise (MissingBlockException
             ("Couldn't find a block containing address " ++ Py.hex inst_addr))
  end.

End Locator.

(** ** Byte strings: [struct] and the helpers of [utils] *)

Definition byte_of_Z (z : Z) : byte :=
  match Byte.of_N (Z.to_N (z mod 256)) with
  | Some b => b
  | None => x00
  end.

Definition Z_of_byte (b : byte) : Z := Z.of_N (Byte.to_N b).

Module Struct.

(** Little-endian encoding of [x] on [n] bytes. *)
Fixpoint le_bytes (n : nat) (x : Z) : bytes :=
  match n with
  | O => []
  | S n' => byte_of_Z x :: le_bytes n' (x / 256)
  end.

(** Little-endian value of a byte string. *)
Fixpoint le_value (bs : bytes) : Z :=
  match bs with
  | [] => 0
  | b :: bs' => Z_of_byte b + 256 * le_value bs'
  end.

(** [struct.pack] of one unsigned field of [n] bytes: a value out of the
    field's range raises [struct.error]. *)
Definition pack_uint (n : nat) (x : Z) : result bytes :=
  if (0 <=? x) && (x <? 2 ^ (8 * Z.of_nat n)) then Ok (le_bytes n x)
  else Raise StructError.

(** [struct.pack("<I", x)] and [struct.pack("<H", x)] *)
Definition pack_I (x : Z) : result bytes := pack_uint 4 x.
Definition pack_H (x : Z) : result bytes := pack_uint 2 x.

(** [struct.pack("<IIII...", *xs)], one [I] per element. *)
Fixpoint pack_Is (xs : list Z) : result bytes :=
  match xs with
  | [] => Ok []
  | x :: xs' => b ← pack_I x; bs ← pack_Is xs'; Ok (b ++ bs)
  end.

(** [struct.unpack] of [k] unsigned fields of [n] bytes each, from
    position [pos] on. *)
Fixpoint unpack_uints (n : nat) (k : nat) (buf : bytes) : list Z :=
  match k with
  | O => []
  | S k' => le_value (firstn n buf) :: unpack_uints n k' (skipn n buf)
  end.

(** [struct.unpack("<H", buf)[0]]: the buffer must be 2 bytes long. *)
Definition unpack_H (buf : bytes) : result Z :=
  if Nat.eqb (length buf) 2 then Ok (le_value buf) else Raise StructError.

(** [struct.unpack("<IIIIIIII", buf)]: the buffer must be 32 bytes long. *)
Definition unpack_8I (buf : bytes) : result (list Z) :=
  if Nat.eqb (length buf) 32 then Ok (unpack_uints 4 8 buf)
  else Raise StructError.

End Struct.

Module Utils.

(** Modelled from the spec: [utils.round_up_to_page] is not among the
    sources; the file cursor "starts at a page-aligned offset past the
    original image", page = [0x1000]. *)
Definition round_up_to_page (n : Z) : Z := (n + 0x1000 - 1) / 0x1000 * 0x1000.

(** Modelled from the spec: [utils.pad_str] is not among the sources;
    "pad image to 16-byte alignment", with NUL bytes. *)
Definition pad_str (s : bytes) (align : Z) : bytes :=
  if Py.len s mod align =? 0 then s
  else s ++ repeat x00 (Z.to_nat (align - Py.len s mod align)).

(** Modelled from the spec: [utils.str_overwrite] is not among the
    sources; it overwrites [new] over [s] at file offset [pos], and
    appends at the end of [s] when no position is given. *)
Definition str_overwrite (s new : bytes) (pos : option Z) : bytes :=
  let p := match pos with Some p => p | None => Py.len s end in
  Py.slice_to s p ++ new ++ Py.slice_from s (p + Py.len new).

End Utils.

(** ** Python text helpers *)

Definition newline : ascii := "010"%char.

(** [s.split(sep)] for a one-character separator. *)
Fixpoint split_char (sep : ascii) (s : string) : list string :=
  match s with
  | EmptyString => [EmptyString]
  | String c s' =>
      match split_char sep s' with
      | [] => [EmptyString]
      | hd :: tl =>
          if Ascii.eqb c sep then EmptyString :: hd :: tl
          else String c hd :: tl
      end
  end.

Definition is_space (c : ascii) : bool :=
  let n := nat_of_ascii c in
  Nat.eqb n 32 || (Nat.leb 9 n && Nat.leb n 13).

(** [s.split()]: split on runs of white space, no empty piece. *)
Fixpoint split_ws_aux (s : string) : string * list string :=
  match s with
  | EmptyString => (EmptyString, [])
  | String c s' =>
      let '(tok, toks) := split_ws_aux s' in
      if is_space c
      then (EmptyString, if String.eqb tok EmptyString then toks else tok :: toks)
      else (String c tok, toks)
  end.

Definition split_ws (s : string) : list string :=
  let '(tok, toks) := split_ws_aux s in
  if String.eqb tok EmptyString then toks else tok :: toks.

(** [sep.join(l)] *)
Definition join (sep : string) (l : list string) : string :=
  String.concat sep l.

(** [s * n] *)
Fixpoint str_repeat (s : string) (n : nat) : string :=
  match n with
  | O => EmptyString
  | S n' => String.append s (str_repeat s n')
  end.

(** ** Patches and the patcher state *)

Inductive Patch : Type :=
| InlinePatch (instruction_addr : Z) (new_asm : string) (name : option string)
| AddDataPatch (data : bytes) (name : option string)
| AddCodePatch (asm_code : string) (name : option string)
| InsertCodePatch (addr : Z) (code : string) (name : option string).

(** A program header: the 8-tuple
    [(p_type, p_offset, p_vaddr, p_paddr, p_filesz, p_memsz, p_flags, p_align)]. *)
Definition Segment := list Z.

(** The fields of a [Patcher] object.  A field that Python initialises to
    [None] is an [option]. *)
Record Patcher : Type := mkPatcher {
  ocontent : bytes;
  ncontent : bytes;
  segments : option (list Segment);
  original_header_end : option Z;
  patches : list Patch;
  name_map : gmap string Z;
  added_code : bytes;
  added_data : bytes;
  curr_code_position : Z;
  curr_data_position : Z;
  curr_file_position : Z;
  added_code_file_start : option Z;
  added_data_file_start : option Z
}.

Definition set_ncontent (v : bytes) (p : Patcher) : Patcher :=
  mkPatcher (ocontent p) v (segments p) (original_header_end p) (patches p)
    (name_map p) (added_code p) (added_data p) (curr_code_position p)
    (curr_data_position p) (curr_file_position p) (added_code_file_start p)
    (added_data_file_start p).
Definition set_segments (v : option (list Segment)) (p : Patcher) : Patcher :=
  mkPatcher (ocontent p) (ncontent p) v (original_header_end p) (patches p)
    (name_map p) (added_code p) (added_data p) (curr_code_position p)
    (curr_data_position p) (curr_file_position p) (added_code_file_start p)
    (added_data_file_start p).
Definition set_original_header_end (v : option Z) (p : Patcher) : Patcher :=
  mkPatcher (ocontent p) (ncontent p) (segments p) v (patches p)
    (name_map p) (added_code p) (added_data p) (curr_code_position p)
    (curr_data_position p) (curr_file_position p) (added_code_file_start p)
    (added_data_file_start p).
Definition set_patches (v : list Patch) (p : Patcher) : Patcher :=
  mkPatcher (ocontent p) (ncontent p) (segments p) (original_header_end p) v
    (name_map p) (added_code p) (added_data p) (curr_code_position p)
    (curr_data_position p) (curr_file_position p) (added_code_file_start p)
    (added_data_file_start p).
Definition set_name_map (v : gmap string Z) (p : Patcher) : Patcher :=
  mkPatcher (ocontent p) (ncontent p) (segments p) (original_header_end p)
    (patches p) v (added_code p) (added_data p) (curr_code_position p)
    (curr_data_position p) (curr_file_position p) (added_code_file_start p)
    (added_data_file_start p).
Definition set_added_code (v : bytes) (p : Patcher) : Patcher :=
  mkPatcher (ocontent p) (ncontent p) (segments p) (original_header_end p)
    (patches p) (name_map p) v (added_data p) (curr_code_position p)
    (curr_data_position p) (curr_file_position p) (added_code_file_start p)
    (added_data_file_start p).
Definition set_added_data (v : bytes) (p : Patcher) : Patcher :=
  mkPatcher (ocontent p) (ncontent p) (segments p) (original_header_end p)
    (patches p) (name_map p) (added_code p) v (curr_code_position p)
    (curr_data_position p) (curr_file_position p) (added_code_file_start p)
    (added_data_file_start p).
Definition set_curr_code_position (v : Z) (p : Patcher) : Patcher :=
  mkPatcher (ocontent p) (ncontent p) (segments p) (original_header_end p)
    (patches p) (name_map p) (added_code p) (added_data p) v
    (curr_data_position p) (curr_file_position p) (added_code_file_start p)
    (added_data_file_start p).
Definition set_curr_data_position (v : Z) (p : Patcher) : Patcher :=
  mkPatcher (ocontent p) (ncontent p) (segments p) (original_header_end p)
    (patches p) (name_map p) (added_code p) (added_data p)
    (curr_code_position p) v (curr_file_position p) (added_code_file_start p)
    (added_data_file_start p).
Definition set_curr_file_position (v : Z) (p : Patcher) : Patcher :=
  mkPatcher (ocontent p) (ncontent p) (segments p) (original_header_end p)
    (patches p) (name_map p) (added_code p) (added_data p)
    (curr_code_position p) (curr_data_position p) v (added_code_file_start p)
    (added_data_file_start p).
Definition set_added_code_file_start (v : option Z) (p : Patcher) : Patcher :=
  mkPatcher (ocontent p) (ncontent p) (segments p) (original_header_end p)
    (patches p) (name_map p) (added_code p) (added_data p)
    (curr_code_position p) (curr_data_position p) (curr_file_position p) v
    (added_data_file_start p).
Definition set_added_data_file_start (v : option Z) (p : Patcher) : Patcher :=
  mkPatcher (ocontent p) (ncontent p) (segments p) (original_header_end p)
    (patches p) (name_map p) (added_code p) (added_data p)
    (curr_code_position p) (curr_data_position p) (curr_file_position p)
    (added_code_file_start p) v.

(** [self.patched_tag = "SHELLPHISH\x00"] *)
Definition patched_tag : bytes :=
  [x53; x48; x45; x4c; x4c; x50; x48; x49; x53; x48; x00].

(** [self.added_code_segment] and [self.added_data_segment] *)
Definition added_code_segment : Z := 0x09000000.
Definition added_data_segment : Z := 0x09100000.

(** ** Header rewriter *)

Definition is_patched (p : Patcher) : bool :=
  bool_decide (Py.slice (ncontent p) 0x34 (0x34 + Py.len patched_tag) = patched_tag).

(** The thirteen fields that [dump_segments] unpacks from the first 52
    bytes with the format ["<xxxxxxxxxxxxxxxxHHLLLLLHHHHHH"]. *)
Record CgcefHeader : Type := {
  cgcef_type : Z; cgcef_machine : Z; cgcef_version : Z; cgcef_entry : Z;
  cgcef_phoff : Z; cgcef_shoff : Z; cgcef_flags : Z; cgcef_ehsize : Z;
  cgcef_phentsize : Z; cgcef_phnum : Z; cgcef_shentsize : Z;
  cgcef_shnum : Z; cgcef_shstrndx : Z
}.

Definition field (buf : bytes) (off width : nat) : Z :=
  Struct.le_value (firstn width (skipn off buf)).

Definition unpack_header (buf : bytes) : result CgcefHeader :=
  if Nat.eqb (length buf) 52 then
    Ok {| cgcef_type := field buf 16 2; cgcef_machine := field buf 18 2;
          cgcef_version := field buf 20 4; cgcef_entry := field buf 24 4;
          cgcef_phoff := field buf 28 4; cgcef_shoff := field buf 32 4;
          cgcef_flags := field buf 36 4; cgcef_ehsize := field buf 40 2;
          cgcef_phentsize := field buf 42 2; cgcef_phnum := field buf 44 2;
          cgcef_shentsize := field buf 46 2; cgcef_shnum := field buf 48 2;
          cgcef_shstrndx := field buf 50 2 |}
  else Raise StructError.

(** The keys of [pt_types]. *)
Definition pt_types : list Z :=
  [0; 1; 6; 0x60000000 + 0x474e551; 0x6ccccccc].

(** One turn of the loop over [xrange(0, cgcef_phnum)]. *)
Definition dump_segment (content : bytes) (phoff phent_size : Z)
    (segs : list Segment) (i : Z) : result (list Segment) :=
  let hdr := Py.slice content (phoff + phent_size * i)
                      (phoff + phent_size * i + phent_size) in
  seg ← Struct.unpack_8I hdr;
  _ ← py_assert (existsb (Z.eqb (nth 0 seg 0)) pt_types);
  Ok (segs ++ [seg]).

Definition dump_segments (p : Patcher) : result (list Segment * Patcher) :=
  let header_size := 16 + 2 * 2 + 4 * 5 + 2 * 6 in
  let buf := Py.slice (ncontent p) 0 header_size in
  h ← unpack_header buf;
  let phent_size := 8 * 4 in
  _ ← py_assert (negb (cgcef_phnum h =? 0));
  _ ← py_assert (cgcef_phentsize h =? phent_size);
  segs ← foldM (dump_segment (ncontent p) (cgcef_phoff h) phent_size)
               (Py.range 0 (cgcef_phnum h)) [];
  Ok (segs, set_segments (Some segs) p).

(** One turn of the loop that copies the program headers to the end. *)
Definition append_segment (content : bytes) (seg : Segment) : result bytes :=
  packed ← Struct.pack_Is seg;
  Ok (Utils.str_overwrite content packed None).

Definition setup_headers (p : Patcher) : result Patcher :=
  let p := set_ncontent (ocontent p) p in
  if is_patched p then Ok p
  else
    '(segs, p) ← dump_segments p;
    let p := set_ncontent (Utils.pad_str (ncontent p) 0x10) p in
    phoff ← Struct.pack_I (Py.len (ncontent p));
    let p := set_ncontent (Utils.str_overwrite (ncontent p) phoff (Some 0x1C)) p in
    content ← foldM append_segment segs (ncontent p);
    let p := set_ncontent content p in
    let p := set_original_header_end (Some (Py.len (ncontent p))) p in
    Ok (set_ncontent (Utils.str_overwrite (ncontent p) patched_tag (Some 0x34)) p).

(** [Patcher.__init__], for a file whose content is [content].  Its
    first statement, [angr.Project(filename)] (line 72), and its last
    ones, the CFG build and [normalize] (lines 104-105), are calls into
    the analysis framework and may raise: [project] and [cfg] are what
    the two calls yield.  When both return, the project and its CFG are
    the [Env] of the later operations.  In between the file is read, the
    headers are set up and the patch data initialised. *)
Definition Patcher_init (project cfg : outcome unit) (content : bytes)
  : result Patcher :=
  _ ← call project;
  p ← setup_headers
        (mkPatcher content [] None None [] ∅ [] [] 0 0 0 None None);
  let p :=
    mkPatcher (ocontent p) (ncontent p) (segments p) (original_header_end p)
      [] ∅ [] [] added_code_segment added_data_segment
      (Utils.round_up_to_page (Py.len (ncontent p) + 2 * 32)) None None in
  _ ← call cfg;
  Ok p.

(** The file cursor fields are [None] until [compile_patches] sets them;
    packing [None] raises [struct.error]. *)
Definition segment_header (file_start : option Z) (vaddr size flags : Z)
  : result Segment :=
  match file_start with
  | Some off => Ok [1; off; vaddr; 0; size; size; flags; 0]
  | None => Raise StructError
  end.

Definition set_added_segment_headers (p : Patcher) : result Patcher :=
  _ ← py_assert (is_patched p);
  let data_segment_header :=
    segment_header (added_data_file_start p) added_data_segment
                   (Py.len (added_data p)) 0x6 in
  let code_segment_header :=
    segment_header (added_code_file_start p) added_code_segment
                   (Py.len (added_code p)) 0x5 in
  code_hdr ← code_segment_header;
  code_packed ← Struct.pack_Is code_hdr;
  let p := set_ncontent
             (Utils.str_overwrite (ncontent p) code_packed (original_header_end p)) p in
  data_hdr ← data_segment_header;
  data_packed ← Struct.pack_Is data_hdr;
  (* [self.original_header_end + 32]: [None + 32] is a TypeError *)
  pos ← match original_header_end p with
        | Some e => Ok (e + 32)
        | None => Raise TypeError
        end;
  let p := set_ncontent (Utils.str_overwrite (ncontent p) data_packed (Some pos)) p in
  original_nsegments ← Struct.unpack_H (Py.slice (ncontent p) 0x2c (0x2c + 2));
  count ← Struct.pack_H (original_nsegments + 2);
  Ok (set_ncontent (Utils.str_overwrite (ncontent p) count (Some 0x2c)) p).

(** [pflags_to_perms]: a flag is set when the bitwise [and] is not zero. *)
Definition pflags_to_perms (p_flags : Z) : string :=
  let pf_x := Z.shiftl 1 0 in
  let pf_w := Z.shiftl 1 1 in
  let pf_r := Z.shiftl 1 2 in
  let perms := EmptyString in
  let perms := if negb (Z.land p_flags pf_r =? 0) then perms +:+ "R" else perms in
  let perms := if negb (Z.land p_flags pf_w =? 0) then perms +:+ "W" else perms in
  let perms := if negb (Z.land p_flags pf_x =? 0) then perms +:+ "X" else perms in
  perms.

(** ** Patch registry *)

Definition add_data (data : bytes) (name : option string) (p : Patcher) : Patcher :=
  set_patches (patches p ++ [AddDataPatch data name]) p.
Definition add_code (code : string) (name : option string) (p : Patcher) : Patcher :=
  set_patches (patches p ++ [AddCodePatch code name]) p.
Definition insert_into_block (addr : Z) (code_to_insert : string)
    (name : option string) (p : Patcher) : Patcher :=
  set_patches (patches p ++ [InsertCodePatch addr code_to_insert name]) p.
(** [replace_instruction_bytes]: its body is [pass]. *)
Definition replace_instruction_bytes (instruction_addr : Z) (new_bytes : bytes)
    (name : option string) (p : Patcher) : Patcher := p.
Definition replace_instruction_asm (instruction_addr : Z) (new_asm : string)
    (name : option string) (p : Patcher) : Patcher :=
  set_patches (patches p ++ [InlinePatch instruction_addr new_asm name]) p.

(** [save]: the bytes written to the output file. *)
Definition save (p : Patcher) : bytes := ncontent p.

(** ** Python values met by the detour engine

    [movable_bb_size] is bound to a [Block] object, not to a number; the
    operations applied to it are those of Python on such an object. *)

Inductive PyObj : Type :=
| PyInt (n : Z)
| PyBlock (b : Block).

(** [x + y]: defined between integers; a [Block] has neither [__add__]
    nor [__radd__]. *)
Definition py_add (x y : PyObj) : result Z :=
  match x, y with
  | PyInt a, PyInt b => Ok (a + b)
  | _, _ => Raise TypeError
  end.

(** [hex(x)]: a [Block] has no [__hex__]. *)
Definition py_hex (x : PyObj) : result string :=
  match x with
  | PyInt a => Ok (Py.hex a)
  | PyBlock _ => Raise TypeError
  end.

(** The values of the [overwritten] attribute. *)
Inductive Overwritten : Type := tag_out | tag_pre | tag_culprit | tag_post.

#[global] Instance Overwritten_eq_dec : EqDecision Overwritten.
Proof. solve_decision. Defined.

Definition is_out (t : Overwritten) : bool :=
  match t with tag_out => true | _ => false end.

Definition nl : string := String newline EmptyString.

Section Engine.
Context (E : Env).

(** ** Movability oracle *)

Definition bytes_to_comparable_str (ibytes : bytes) (offset : Z) : result string :=
  i ← Py.getitem (decompile E ibytes offset) 0;
  Ok (join " " (skipn 2 (split_ws (instruction_to_str E i)))).

Definition check_if_movable (instruction : Insn) : result bool :=
  let instruction_bytes := insn_bytes instruction in
  pos1 ← bytes_to_comparable_str instruction_bytes 0x0;
  pos2 ← bytes_to_comparable_str instruction_bytes 0x07f00000;
  pos3 ← bytes_to_comparable_str instruction_bytes 0xfe000000;
  if String.eqb pos1 pos2 && String.eqb pos2 pos3 then Ok true else Ok false.

(** ** Image buffer and VA to file-offset map *)

Definition maddress_to_baddress (addr : Z) : result Z :=
  match addr_to_offset E addr with
  | None => Raise (InvalidVAddrException (Py.hex addr))
  | Some baddr => Ok baddr
  end.

(** The [while nstart != end_p] loop of [get_memory_translation_list];
    one unit of fuel per turn. *)
Fixpoint translation_loop (fuel : nat) (nstart end_p : Z) (mlist : list (Z * Z))
  : result (Z * list (Z * Z)) :=
  if nstart =? end_p then Ok (nstart, mlist)
  else
    match fuel with
    | O => OutOfFuel
    | S fuel' =>
        b1 ← maddress_to_baddress nstart;
        b2 ← maddress_to_baddress nstart;
        translation_loop fuel' (nstart + 0x1000) end_p
                         (mlist ++ [(b1, b2 + 0x1000)])
    end.

Definition get_memory_translation_list (fuel : nat) (address size : Z)
  : result (list (Z * Z)) :=
  let start := address in
  let end_ := address + size - 1 in
  let start_p := Z.land address 0xfffffff000 in
  let end_p := Z.land end_ 0xfffffff000 in
  if start_p =? end_p then
    b1 ← maddress_to_baddress start;
    b2 ← maddress_to_baddress end_;
    Ok [(b1, b2 + 1)]
  else
    first_page_baddress ← maddress_to_baddress start;
    let mlist := [(first_page_baddress,
                   Z.land first_page_baddress 0xfffffff000 + 0x1000)] in
    let nstart := Z.land start 0xfffffff000 + 0x1000 in
    '(nstart, mlist) ← translation_loop fuel nstart end_p mlist;
    b1 ← maddress_to_baddress nstart;
    b2 ← maddress_to_baddress end_;
    Ok (mlist ++ [(b1, b2 + 1)]).

(** One turn of the loop of [patch_bin]; the state is
    [(self.ncontent, ndata_pos)]. *)
Definition patch_bin_step (new_content : bytes) (st : bytes * Z) (r : Z * Z)
  : bytes * Z :=
  let '(content, ndata_pos) := st in
  let '(start, end_) := r in
  let ndata := Py.slice new_content ndata_pos (ndata_pos + (end_ - start)) in
  (Utils.str_overwrite content ndata (Some start), ndata_pos + Py.len ndata).

Definition patch_bin (fuel : nat) (address : Z) (new_content : bytes)
    (p : Patcher) : result Patcher :=
  ranges ← get_memory_translation_list fuel address (Py.len new_content);
  Ok (set_ncontent (fst (fold_left (patch_bin_step new_content) ranges
                                   (ncontent p, 0))) p).

Definition read_mem_from_file (fuel : nat) (address size : Z) (p : Patcher)
  : result bytes :=
  ranges ← get_memory_translation_list fuel address size;
  Ok (fold_left (fun mem r => mem ++ Py.slice (ncontent p) (fst r) (snd r))
                ranges []).

(** ** Detour engine *)

(** The loop over [detour_attempts].  [and] evaluates its right operand
    only when the left one holds. *)
Fixpoint find_detour_pos (patch_addr detour_size movable_bb_start : Z)
    (movable_bb_size : PyObj) (detour_attempts : list Z) : result (option Z) :=
  match detour_attempts with
  | [] => Ok None
  | pos :: rest =>
      let detour_start := patch_addr + pos in
      let detour_end := detour_start + detour_size - 1 in
      let test : result bool :=
        if detour_start >=? movable_bb_start then
          limit ← py_add (PyInt movable_bb_start) movable_bb_size;
          Ok (detour_end <? limit)
        else Ok false in
      fits ← test;
      if fits : bool then Ok (Some detour_start)
      else find_detour_pos patch_addr detour_size movable_bb_start
                           movable_bb_size rest
  end.

(** The value given to [i.overwritten]. *)
Definition classify (patch_addr detour_pos detour_size : Z) (i : Insn)
  : Overwritten :=
  let detour_overwritten_bytes := Py.range detour_pos (detour_pos + detour_size) in
  let common : gset Z :=
    list_to_set detour_overwritten_bytes
    ∩ list_to_set (Py.range (address i) (address i + Py.len (insn_bytes i))) in
  if decide (0 < size common)%nat then
    if address i <? patch_addr then tag_pre
    else if address i =? patch_addr then tag_culprit
    else tag_post
  else tag_out.

Definition tagged_with (t : Overwritten) (tagged : list (Insn * Overwritten))
  : list Insn :=
  map fst (List.filter (fun it => bool_decide (snd it = t)) tagged).

(** [jmp_back_target]: the loop over [reversed(movable_instructions)]. *)
Definition jmp_back_target (tagged : list (Insn * Overwritten)) : option Z :=
  match List.find (fun it => negb (is_out (snd it))) (rev tagged) with
  | Some (i, _) => Some (address i + Py.len (insn_bytes i))
  | None => None
  end.

(** The text of the relocation stub, [injected_code]. *)
Definition build_injected_code (tagged : list (Insn * Overwritten))
    (code : string) : result string :=
  let injected_code := EmptyString in
  let injected_code :=
    (injected_code +:+ nl +:+ str_repeat ("nop" +:+ nl) 5 +:+ nl)%string in
  let injected_code :=
    injected_code +:+ join nl (map (capstone_to_nasm E) (tagged_with tag_pre tagged)) in
  let injected_code := injected_code +:+ nl in
  let injected_code :=
    injected_code +:+ ("; --- custom code start" +:+ nl +:+ code +:+ nl
                       +:+ "; --- custom code end" +:+ nl +:+ nl) in
  let injected_code :=
    injected_code +:+ join nl (map (capstone_to_nasm E) (tagged_with tag_culprit tagged)) in
  let injected_code := injected_code +:+ nl in
  let injected_code :=
    injected_code +:+ join nl (map (capstone_to_nasm E) (tagged_with tag_post tagged)) in
  let injected_code := injected_code +:+ nl in
  match jmp_back_target tagged with
  | None => Raise AssertionError
  | Some target =>
      let injected_code := injected_code +:+ ("jmp " +:+ Py.hex target +:+ nl) in
      Ok (join nl (List.filter (fun line => negb (String.eqb line EmptyString))
                               (split_char newline injected_code)))
  end.

(** One turn of the loop that overwrites the displaced instructions with
    one-byte NOPs. *)
Definition nop_step (fuel : nat) (p : Patcher) (it : Insn * Overwritten)
  : result Patcher :=
  if is_out (snd it) then Ok p
  else patch_bin fuel (address (fst it))
                 (repeat x90 (length (insn_bytes (fst it)))) p.

(** [insert_detour] from the point where [detour_pos] is known. *)
Definition detour_at (fuel : nat) (p : Patcher) (patch_addr : Z) (patch_code : string)
    (block_addr : Z) (block : Block) (movable_instructions : list Insn)
    (detour_pos detour_size : Z) : result Patcher :=
  let tagged :=
    map (fun i => (i, classify patch_addr detour_pos detour_size i))
        movable_instructions in
  _ ← py_assert (existsb (fun it => negb (is_out (snd it))) tagged);
  p ← foldM (nop_step fuel) tagged p;
  detour_jmp_code ← call (compile_jmp E detour_pos (curr_code_position p));
  p ← patch_bin fuel detour_pos detour_jmp_code p;
  patched_bbcode ← read_mem_from_file fuel block_addr (block_size block) p;
  injected_code ← build_injected_code tagged patch_code;
  new_code ← call (compile_asm E injected_code (curr_code_position p) None);
  let p := set_added_code (added_code p ++ new_code) p in
  Ok (set_curr_code_position (curr_code_position p + Py.len new_code) p).

Definition insert_detour (fuel : nat) (p : Patcher) (patch_addr : Z)
    (patch_code : string) : result Patcher :=
  block_addr ← get_block_containing_inst E patch_addr;
  let block := factory_block E block_addr None in
  let detour_size := 5 in
  let detour_attempts := Py.range (-1 * detour_size) (0 + 1) in
  let original_bbcode := block_bytes block in
  let instructions := decompile E original_bbcode block_addr in
  last_insn ← Py.getitem instructions (-1);
  movable ← check_if_movable last_insn;
  let movable_instructions :=
    if movable : bool then instructions else Py.slice_to instructions (-1) in
  if Py.len movable_instructions =? 0 then
    Raise (DetourException "No movable instructions found")
  else
    first_insn ← Py.getitem movable_instructions 0;
    let movable_bb_start := address first_insn in
    let movable_bb_size :=
      PyBlock (factory_block E block_addr (Some (Py.len movable_instructions))) in
    detour_pos ← find_detour_pos patch_addr detour_size movable_bb_start
                                 movable_bb_size detour_attempts;
    match detour_pos with
    | None =>
        (* the arguments of the exception are evaluated first *)
        _ ← py_hex movable_bb_size;
        Raise (DetourException "No space in bb")
    | Some detour_pos =>
        detour_at fuel p patch_addr patch_code block_addr block
                  movable_instructions detour_pos detour_size
    end.

(** ** Compile pipeline *)

(** Lines 239-248: reset the layout and extend the file to the cursor. *)
Definition compile_begin (p : Patcher) : Patcher :=
  let p := set_name_map ∅ p in
  let p := set_added_data [] p in
  let p := set_added_code [] p in
  let p := set_curr_code_position added_code_segment p in
  let p := set_curr_data_position added_data_segment p in
  let p := set_curr_file_position
             (Utils.round_up_to_page (Py.len (ncontent p) + 2 * 32)) p in
  let p := set_added_data_file_start (Some (curr_file_position p)) p in
  set_ncontent (Py.ljust (ncontent p) (curr_file_position p) x00) p.

Definition bind_name (name : option string) (pos : Z) (p : Patcher) : Patcher :=
  match name with
  | Some n => set_name_map (<[n := pos]> (name_map p)) p
  | None => p
  end.

(** 1) AddDataPatch *)
Definition add_data_step (p : Patcher) (patch : Patch) : Patcher :=
  match patch with
  | AddDataPatch data name =>
      let p := set_added_data (added_data p ++ data) p in
      let p := bind_name name (curr_data_position p) p in
      let p := set_curr_data_position (curr_data_position p + Py.len data) p in
      let p := set_curr_file_position (curr_file_position p + Py.len data) p in
      set_ncontent (Utils.str_overwrite (ncontent p) data None) p
  | _ => p
  end.

Definition compile_add_data (p : Patcher) : Patcher :=
  let p := fold_left add_data_step (patches p) p in
  let p := set_ncontent (Utils.pad_str (ncontent p) 0x1000) p in
  set_curr_file_position (Py.len (ncontent p)) p.

(** 2) AddCodePatch, resolving symbols; the state is
    [(self, current_symbol_pos)]. *)
Definition resolve_step (st : Patcher * Z) (patch : Patch)
  : result (Patcher * Z) :=
  let '(p, current_symbol_pos) := st in
  match patch with
  | AddCodePatch asm_code name =>
      fake ← call (compile_asm_fake_symbol E asm_code current_symbol_pos);
      let code_len := Py.len fake in
      let p := bind_name name current_symbol_pos p in
      Ok (p, current_symbol_pos + code_len)
  | _ => Ok st
  end.

(** 2) AddCodePatch, compiling for real.  The value of
    [utils.str_overwrite(self.ncontent, new_code)] is not assigned. *)
Definition add_code_step (p : Patcher) (patch : Patch) : result Patcher :=
  match patch with
  | AddCodePatch asm_code name =>
      new_code ← call (compile_asm E asm_code (curr_code_position p)
                                   (Some (name_map p)));
      let p := set_added_code (added_code p ++ new_code) p in
      let p := set_curr_code_position (curr_code_position p + Py.len new_code) p in
      let p := set_curr_file_position (curr_file_position p + Py.len new_code) p in
      let _ := Utils.str_overwrite (ncontent p) new_code None in
      Ok p
  | _ => Ok p
  end.

Definition compile_add_code (p : Patcher) : result Patcher :=
  let p := set_added_code_file_start (Some (curr_file_position p)) p in
  let current_symbol_pos := curr_code_position p in
  '(p, _) ← foldM resolve_step (patches p) (p, current_symbol_pos);
  foldM add_code_step (patches p) p.

(** 3) InlinePatch *)
Definition inline_step (p : Patcher) (patch : Patch) : result Patcher :=
  match patch with
  | InlinePatch instruction_addr new_asm name =>
      new_code ← call (compile_asm E new_asm instruction_addr (Some (name_map p)));
      _ ← py_assert
            (Py.len new_code =? block_size (factory_block E instruction_addr (Some 1)));
      let file_offset := addr_to_offset E instruction_addr in
      Ok (set_ncontent (Utils.str_overwrite (ncontent p) new_code file_offset) p)
  | _ => Ok p
  end.

Definition compile_inline (p : Patcher) : result Patcher :=
  foldM inline_step (patches p) p.

(** 4) InsertCodePatch *)
Definition detour_step (fuel : nat) (p : Patcher) (patch : Patch) : result Patcher :=
  match patch with
  | InsertCodePatch addr code name => insert_detour fuel p addr code
  | _ => Ok p
  end.

Definition compile_detours (fuel : nat) (p : Patcher) : result Patcher :=
  foldM (detour_step fuel) (patches p) p.

(** [compile_patches] up to and including [set_added_segment_headers]. *)
Definition compile_until_headers (p : Patcher) : result Patcher :=
  let p := compile_begin p in
  let p := compile_add_data p in
  p ← compile_add_code p;
  p ← compile_inline p;
  set_added_segment_headers p.

Definition compile_patches (fuel : nat) (p : Patcher) : result Patcher :=
  p ← compile_until_headers p;
  compile_detours fuel p.

End Engine.

(** ** A small concrete project

    A CGC-style image with one loadable segment mapped at [0x8048000] and
    four basic blocks, and stand-ins for the assembler and disassembler
    that know a handful of x86-32 encodings.  It is the input on which
    the pipeline is run in the examples below. *)

Module Sample.

Definition tab : string := String "009"%char EmptyString.

Definition mk_insn (a : Z) (bs : bytes) (m o : string) : Insn :=
  {| address := a; insn_bytes := bs; mnemonic := m; op_str := o |}.

(** Sign-extended 8-bit and 32-bit little-endian immediates. *)
Definition rel8 (b : byte) : Z :=
  let v := Z_of_byte b in if v <? 128 then v else v - 256.
Definition rel32 (bs : bytes) : Z :=
  let v := Struct.le_value bs in if v <? 2 ^ 31 then v else v - 2 ^ 32.

(** Disassembler: decodes until the bytes end or an unknown opcode. *)
Fixpoint decode (fuel : nat) (bs : bytes) (a : Z) : list Insn :=
  match fuel with
  | O => []
  | S fuel' =>
      match bs with
      | x90 :: r => mk_insn a [x90] "nop" "" :: decode fuel' r (a + 1)
      | xc3 :: r => mk_insn a [xc3] "ret" "" :: decode fuel' r (a + 1)
      | x55 :: r => mk_insn a [x55] "push" "ebp" :: decode fuel' r (a + 1)
      | x43 :: r => mk_insn a [x43] "inc" "ebx" :: decode fuel' r (a + 1)
      | x89 :: xe5 :: r =>
          mk_insn a [x89; xe5] "mov" "ebp, esp" :: decode fuel' r (a + 2)
      | x83 :: xec :: i :: r =>
          mk_insn a [x83; xec; i] "sub" ("esp, " +:+ Py.hex (Z_of_byte i))
          :: decode fuel' r (a + 3)
      | xb8 :: i0 :: i1 :: i2 :: i3 :: r =>
          mk_insn a [xb8; i0; i1; i2; i3] "mov"
                  ("eax, " +:+ Py.hex (Struct.le_value [i0; i1; i2; i3]))
          :: decode fuel' r (a + 5)
      | xe9 :: i0 :: i1 :: i2 :: i3 :: r =>
          mk_insn a [xe9; i0; i1; i2; i3] "jmp"
                  (Py.hex ((a + 5 + rel32 [i0; i1; i2; i3]) mod 2 ^ 32))
          :: decode fuel' r (a + 5)
      | x75 :: i :: r =>
          mk_insn a [x75; i] "jne" (Py.hex ((a + 2 + rel8 i) mod 2 ^ 32))
          :: decode fuel' r (a + 2)
      | _ => []
      end
  end.

Definition decompile (code : bytes) (offset : Z) : list Insn :=
  decode (length code) code offset.

Definition instruction_to_str (i : Insn) : string :=
  Py.hex (address i) +:+ " " +:+ Py.hex (Struct.le_value (insn_bytes i)) +:+ ":"
  +:+ tab +:+ mnemonic i +:+ tab +:+ op_str i.

Definition capstone_to_nasm (i : Insn) : string :=
  if String.eqb (op_str i) "" then mnemonic i
  else mnemonic i +:+ " " +:+ op_str i.

(** Assembler stand-in: one [nop] byte per line of code that is neither
    blank nor a comment. *)
Definition is_code_line (line : string) : bool :=
  match line with
  | EmptyString => false
  | String c _ => negb (Ascii.eqb c ";"%char)
  end.

Definition assemble (code : string) : bytes :=
  map (fun _ => x90) (List.filter is_code_line (split_char newline code)).

Definition compile_asm (code : string) (base : Z) (nm : option (gmap string Z))
  : outcome bytes := Returns (assemble code).

Definition compile_asm_fake_symbol (code : string) (base : Z) : outcome bytes :=
  Returns (assemble code).

Definition compile_jmp (origin target : Z) : outcome bytes :=
  Returns (xe9 :: Struct.le_bytes 4 ((target - origin - 5) mod 2 ^ 32)).

(** The image: a 52-byte header, one program header at offset 52, and the
    code of the four blocks from file offset [0x100] on. *)
Definition ident : bytes :=
  [x7f; x43; x47; x43; x01; x01; x01; x43; x01; x4d; x65; x72; x69; x6e; x6f; x00].

Definition header : bytes :=
  ident ++ Struct.le_bytes 2 2 ++ Struct.le_bytes 2 3 ++ Struct.le_bytes 4 1
  ++ Struct.le_bytes 4 0x8048100 ++ Struct.le_bytes 4 52 ++ Struct.le_bytes 4 0
  ++ Struct.le_bytes 4 0 ++ Struct.le_bytes 2 52 ++ Struct.le_bytes 2 32
  ++ Struct.le_bytes 2 1 ++ Struct.le_bytes 2 40 ++ Struct.le_bytes 2 0
  ++ Struct.le_bytes 2 0.

Definition program_header : bytes :=
  Struct.le_bytes 4 1 ++ Struct.le_bytes 4 0 ++ Struct.le_bytes 4 0x8048000
  ++ Struct.le_bytes 4 0x8048000 ++ Struct.le_bytes 4 0x140
  ++ Struct.le_bytes 4 0x140 ++ Struct.le_bytes 4 5 ++ Struct.le_bytes 4 0x1000.

(** [mov eax, 1; ret] at [0x8048100]. *)
Definition block1 : bytes := [xb8; x01; x00; x00; x00; xc3].
(** [push ebp; mov ebp, esp; sub esp, 0x10; ret] at [0x8048110]. *)
Definition block2 : bytes := [x55; x89; xe5; x83; xec; x10; xc3].
(** [inc ebx; ret] at [0x8048120]. *)
Definition block3 : bytes := [x43; xc3].
(** [mov eax, 1; jne 0x8048130] at [0x8048130]. *)
Definition block4 : bytes := [xb8; x01; x00; x00; x00; x75; xf9].

Definition pad_to (n : nat) (bs : bytes) : bytes :=
  bs ++ repeat x00 (n - length bs).

Definition image : bytes :=
  pad_to 0x100 (header ++ program_header) ++ pad_to 16 block1
  ++ pad_to 16 block2 ++ pad_to 16 block3 ++ pad_to 16 block4.

Definition base : Z := 0x8048000.

Definition addr_to_offset (a : Z) : option Z :=
  if (base <=? a) && (a <? base + Py.len image) then Some (a - base) else None.

Definition nodes : list CFGNode :=
  [ {| node_addr := 0x8048110; node_size := 7;
       node_instruction_addrs := [0x8048110; 0x8048111; 0x8048113; 0x8048116] |};
    {| node_addr := 0x8048100; node_size := 6;
       node_instruction_addrs := [0x8048100; 0x8048105] |};
    {| node_addr := 0x8048130; node_size := 7;
       node_instruction_addrs := [0x8048130; 0x8048135] |};
    {| node_addr := 0x8048120; node_size := 2;
       node_instruction_addrs := [0x8048120; 0x8048121] |};
    {| node_addr := 0x8048100; node_size := 6;
       node_instruction_addrs := [0x8048100; 0x8048105] |} ].

Definition get_any_node (a : Z) : option CFGNode :=
  List.find (fun n => node_addr n =? a) nodes.

(** The block that starts at [a]: the instructions of its CFG node, or
    the first [n] of them. *)
Definition factory_block (a : Z) (num_inst : option Z) : Block :=
  match get_any_node a with
  | None => {| block_addr := a; block_size := 0; block_bytes := [] |}
  | Some node =>
      let code := Py.slice image (a - base) (a - base + node_size node) in
      let insns := decompile code a in
      let insns := match num_inst with
                   | Some n => Py.slice_to insns n
                   | None => insns
                   end in
      let bs := List.concat (map insn_bytes insns) in
      {| block_addr := a; block_size := Py.len bs; block_bytes := bs |}
  end.

Definition env : Env :=
  Build_Env nodes get_any_node factory_block addr_to_offset compile_asm
            compile_asm_fake_symbol compile_jmp decompile instruction_to_str
            capstone_to_nasm.

(** The patcher opened on [image], which the framework loads. *)
Definition opened : result Patcher := Patcher_init (Returns tt) (Returns tt) image.

End Sample.

(** * Vocabulary of the statements *)

(** [b] is the start address of a CFG node. *)
Definition is_block_start (E : Env) (b : Z) : Prop :=
  In b (map node_addr (cfg_nodes E)).

(** [b] is the greatest block start that is at most [A]. *)
Definition greatest_start_le (E : Env) (A b : Z) : Prop :=
  is_block_start E b /\ b <= A /\
  forall b', is_block_start E b' -> b' <= A -> b' <= b.

(** [A] is among the instruction addresses of the block that starts at [b]. *)
Definition block_contains (E : Env) (b A : Z) : Prop :=
  exists n, get_any_node E b = Some n /\ In A (node_instruction_addrs n).

(** What the patcher takes for granted about the CFG: it has a node, the
    node looked up at a start address is a node of that address, and the
    instructions of a block are not below its start. *)
Definition cfg_wf (E : Env) : Prop :=
  cfg_nodes E <> [] /\
  Forall (fun a => exists n, get_any_node E a = Some n /\ node_addr n = a /\
                             Forall (fun i => a <= i) (node_instruction_addrs n))
         (map node_addr (cfg_nodes E)).


(** The loader maps the addresses of [[lo, hi)] page by page: every
    address has a file offset congruent to it modulo the page size, and
    two addresses of one page are as far apart in the file as in memory. *)
Definition loader_coherent (E : Env) (lo hi : Z) : Prop :=
  (forall a, lo <= a < hi ->
     exists o, addr_to_offset E a = Some o /\ 0 <= o < 2 ^ 40 /\
               o mod 0x1000 = a mod 0x1000) /\
  (forall a b oa ob, lo <= a < hi -> lo <= b < hi -> a / 0x1000 = b / 0x1000 ->
     addr_to_offset E a = Some oa -> addr_to_offset E b = Some ob ->
     ob - oa = b - a).

(** The file offsets covered by a list of ranges, in order. *)
Definition covered (ranges : list (Z * Z)) : list Z :=
  flat_map (fun r => Py.range (fst r) (snd r)) ranges.

(** The total length of a list of ranges. *)
Definition total_length (ranges : list (Z * Z)) : Z :=
  fold_right (fun r acc => (snd r - fst r) + acc) 0 ranges.

(** Writing the chunks [ds] at the starts of the ranges [rs], in order. *)
Definition write_chunks (content : bytes) (rs : list (Z * Z)) (ds : list bytes)
  : bytes :=
  fold_left (fun c rd => Utils.str_overwrite c (snd rd) (Some (fst (fst rd))))
            (combine rs ds) content.


(** A non-empty range of file offsets that stays inside one page. *)
Definition in_one_page (r : Z * Z) : Prop :=
  fst r < snd r /\ fst r / 0x1000 = (snd r - 1) / 0x1000.


(** The sample project seen through a loader that maps three pages from
    [0x8048000] on, to exercise writes that cross a page boundary. *)
Definition wide_addr_to_offset (a : Z) : option Z :=
  if (Sample.base <=? a) && (a <? Sample.base + 0x3000)
  then Some (a - Sample.base) else None.

Definition wide_env : Env :=
  Build_Env Sample.nodes Sample.get_any_node Sample.factory_block
            wide_addr_to_offset Sample.compile_asm
            Sample.compile_asm_fake_symbol Sample.compile_jmp Sample.decompile
            Sample.instruction_to_str Sample.capstone_to_nasm.


(** The patcher of the sample project, as [Patcher_init] leaves it. *)
Definition empty_patcher : Patcher :=
  mkPatcher [] [] None None [] ∅ [] [] 0 0 0 None None.

Definition unwrap (r : result Patcher) : Patcher :=
  match r with
  | Ok p => p
  | _ => empty_patcher
  end.

Definition sample_patcher : Patcher := unwrap Sample.opened.


(** The lines of a text that are not empty. *)
Definition code_lines (s : string) : list string :=
  List.filter (fun line => negb (String.eqb line EmptyString))
              (split_char newline s).

(** The instructions of [movable] that the detour at [detour_pos] tags
    with [t], in list order. *)
Definition displaced (t : Overwritten) (patch_addr detour_pos : Z)
    (movable : list Insn) : list Insn :=
  List.filter (fun i => bool_decide (classify patch_addr detour_pos 5 i = t)) movable.

(** The lines of the relocation stub, in order: five [nop]s, the [pre]
    instructions, the injected source between its two comment lines, the
    [culprit], the [post] instructions, and the jump back to [target]. *)
Definition stub_lines (E : Env) (patch_addr detour_pos : Z) (movable : list Insn)
    (code : string) (target : Z) : list string :=
  repeat "nop" 5
  ++ flat_map (fun i => code_lines (capstone_to_nasm E i))
              (displaced tag_pre patch_addr detour_pos movable)
  ++ ["; --- custom code start"] ++ code_lines code ++ ["; --- custom code end"]
  ++ flat_map (fun i => code_lines (capstone_to_nasm E i))
              (displaced tag_culprit patch_addr detour_pos movable)
  ++ flat_map (fun i => code_lines (capstone_to_nasm E i))
              (displaced tag_post patch_addr detour_pos movable)
  ++ ["jmp " +:+ Py.hex target].

(** [i] is the highest-addressed instruction of [movable] that the detour
    at [detour_pos] displaces. *)
Definition last_displaced (patch_addr detour_pos : Z) (movable : list Insn)
    (i : Insn) : Prop :=
  In i movable /\ classify patch_addr detour_pos 5 i <> tag_out /\
  forall j, In j movable -> classify patch_addr detour_pos 5 j <> tag_out ->
            address j <= address i.


(** The text has no line break. *)
Fixpoint one_line (s : string) : bool :=
  match s with
  | EmptyString => true
  | String c s' => negb (Ascii.eqb c newline) && one_line s'
  end.


(** The slot rule as specified: the first offset [p] among [-5 .. 0]
    such that the five bytes from [A + p] lie in the window [[ws, we)]. *)
Definition fits_window (A ws we p : Z) : bool :=
  (ws <=? A + p) && (A + p + 5 <=? we).

Definition specified_slot (A ws we : Z) : option Z :=
  option_map (fun p => A + p)
             (List.find (fits_window A ws we) [-5; -4; -3; -2; -1; 0]).

(** The [p_filesz] and [p_memsz] words of the code-segment header, the
    record of 32 bytes stored at [original_header_end]. *)
Definition code_header_word (k : Z) (p : Patcher) : option Z :=
  match original_header_end p with
  | Some e => Some (Struct.le_value (Py.slice (ncontent p) (e + 4 * k) (e + 4 * k + 4)))
  | None => None
  end.
Definition code_header_filesz : Patcher -> option Z := code_header_word 4.
Definition code_header_memsz : Patcher -> option Z := code_header_word 5.


(** The bytes of [i] and the five bytes of the jump at [detour_pos] have
    an address in common. *)
Definition overlaps (detour_pos : Z) (i : Insn) : Prop :=
  exists x, detour_pos <= x < detour_pos + 5 /\
            address i <= x < address i + Py.len (insn_bytes i).


(** The [i]-th program header of the table at [phoff]: 32 bytes. *)
Definition header_bytes (content : bytes) (phoff i : Z) : bytes :=
  Py.slice content (phoff + 32 * i) (phoff + 32 * i + 32).

(** A program header that [dump_segments] accepts: 32 bytes whose first
    word is a known type. *)
Definition header_ok (hdr : bytes) : Prop :=
  length hdr = 32%nat /\
  existsb (Z.eqb (nth 0 (Struct.unpack_uints 4 8 hdr) 0)) pt_types = true.


(** The bytes of the [AddDataPatch]es of a patch list, in order. *)
Definition data_of (ps : list Patch) : bytes :=
  flat_map (fun patch => match patch with
                         | AddDataPatch data _ => data
                         | _ => []
                         end) ps.


(** The patch adds data or code and does not touch the original code. *)
Definition adds_only (patch : Patch) : Prop :=
  match patch with
  | AddDataPatch _ _ | AddCodePatch _ _ => True
  | _ => False
  end.

(** The first instruction decoded from [bs] at [base], if any. *)
Definition first_decoded (E : Env) (bs : bytes) (base : Z) : option Insn :=
  head (decompile E bs base).

(** The white-space separated fields of the printed form of [d] after its
    first two, the address and the bytes: the mnemonic and the operands. *)
Definition text_fields (E : Env) (d : Insn) : list string :=
  skipn 2 (split_ws (instruction_to_str E d)).

(** The text holds no white space. *)
Fixpoint spaceless (s : string) : bool :=
  match s with
  | EmptyString => true
  | String c s' => negb (is_space c) && spaceless s'
  end.

(** A field: not empty and without white space. *)
Definition is_field (s : string) : Prop :=
  s <> EmptyString /\ spaceless s = true.

(** What follows a field in a joined text: nothing, or a blank and the
    rest. *)
Definition after_field (l : list string) : string :=
  match l with
  | [] => EmptyString
  | _ :: _ => String " " (join " " l)
  end.

(** The sample project with another CFG: the nodes the CFG lists and its
    node lookup. *)
Definition with_cfg (nodes : list CFGNode) (lookup : Z -> option CFGNode) : Env :=
  Build_Env nodes lookup Sample.factory_block Sample.addr_to_offset
            Sample.compile_asm Sample.compile_asm_fake_symbol Sample.compile_jmp
            Sample.decompile Sample.instruction_to_str Sample.capstone_to_nasm.

(** A CFG without nodes; a CFG whose lookup finds no node; a CFG whose
    one block lists an instruction address below its start. *)
Definition no_cfg_env : Env := with_cfg [] (fun _ => None).

Definition lost_node_env : Env := with_cfg Sample.nodes (fun _ => None).

Definition stray_node : CFGNode :=
  {| node_addr := 0x8048100; node_size := 6;
     node_instruction_addrs := [0x8048100; 0x8048050; 0x8048105] |}.

Definition stray_env : Env :=
  with_cfg [stray_node] (fun a => if a =? 0x8048100 then Some stray_node else None).

(** The sample project seen through a loader that maps three pages from
    [0x8048000] on at the file offset [0x800], which is not a page
    boundary of the file. *)
Definition shifted_addr_to_offset (a : Z) : option Z :=
  if (Sample.base <=? a) && (a <? Sample.base + 0x3000)
  then Some (a - Sample.base + 0x800) else None.

Definition shifted_env : Env :=
  Build_Env Sample.nodes Sample.get_any_node Sample.factory_block
            shifted_addr_to_offset Sample.compile_asm
            Sample.compile_asm_fake_symbol Sample.compile_jmp Sample.decompile
            Sample.instruction_to_str Sample.capstone_to_nasm.



(** * Properties *)

(** ** get_ordered_nodes *)

Lemma sorted_nodes_sorted (l : list CFGNode) :
  StronglySorted Z.le (map node_addr (sorted_nodes l)).
Proof.
  assert (Hs : StronglySorted node_le (sorted_nodes l)).
  { apply StronglySorted_merge_sort.
    - intros x y z. unfold node_le. lia.
    - intros x y. unfold node_le. lia. }
  induction Hs as [|x l' Hs IH Hall]; simpl; constructor; auto.
  rewrite List.Forall_forall in *. intros a Ha.
  apply in_map_iff in Ha as (n & <- & Hn). by apply Hall.
Qed.

Lemma sorted_nodes_perm (l : list CFGNode) : Permutation (sorted_nodes l) l.
Proof. apply merge_sort_Permutation. Qed.

Lemma StronglySorted_lt_snoc (acc : list Z) (a : Z) :
  StronglySorted Z.lt acc -> (forall x, In x acc -> x < a) ->
  StronglySorted Z.lt (acc ++ [a]).
Proof.
  induction 1 as [|y acc' Hs IH Hall]; intros Hlt; simpl.
  - repeat constructor.
  - constructor.
    + apply IH. intros x Hx. apply Hlt. by right.
    + rewrite List.Forall_forall in *. intros x Hx. apply in_app_iff in Hx as [Hx|Hx].
      * by apply Hall.
      * destruct Hx as [<-|[]]. apply Hlt. by left.
Qed.

(** The loop keeps [ordered_nodes] strictly increasing, with [prev_addr]
    its greatest element. *)
Lemma ordered_loop_spec (l : list CFGNode) :
  forall (prev : option Z) (acc : list Z),
    StronglySorted Z.le (map node_addr l) ->
    StronglySorted Z.lt acc ->
    (forall x, In x acc -> exists b, prev = Some b /\ x <= b) ->
    (forall b, prev = Some b -> In b acc) ->
    (forall b a, prev = Some b -> In a (map node_addr l) -> b <= a) ->
    let r := snd (fold_left ordered_step l (prev, acc)) in
    StronglySorted Z.lt r /\
    (forall x, In x r <-> In x acc \/ In x (map node_addr l)).
Proof.
  induction l as [|n l IH]; intros prev acc Hl Hacc Hmax Hprev Hle; simpl.
  - split; [done|]. intros x. tauto.
  - simpl in Hl. apply StronglySorted_inv in Hl as [Hl Hn].
    rewrite List.Forall_forall in Hn.
    unfold ordered_step at 2. destruct (decide (Some (node_addr n) = prev)) as [Heq|Hne].
    + destruct (IH prev acc) as [H1 H2]; auto.
      { intros b a Hb Ha. apply Hle; [done|]. by right. }
      split; [done|]. intros x. rewrite H2. simpl.
      split; [tauto|]. intros [?|[<-|?]]; auto.
    + destruct (IH (Some (node_addr n)) (acc ++ [node_addr n])) as [H1 H2]; auto.
      { apply StronglySorted_lt_snoc; [done|]. intros x Hx.
        destruct (Hmax x Hx) as (b & -> & Hxb).
        assert (b <= node_addr n) by (apply Hle; [done|by left]).
        assert (b <> node_addr n) by congruence. lia. }
      { intros x Hx. exists (node_addr n). split; [done|].
        apply in_app_iff in Hx as [Hx|[<-|[]]]; [|lia].
        destruct (Hmax x Hx) as (b & -> & Hxb).
        assert (b <= node_addr n) by (apply Hle; [done|by left]). lia. }
      { intros b [= <-]. apply in_app_iff. right. by left. }
      { intros b a [= <-] Ha. by apply Hn. }
      split; [done|]. intros x. rewrite H2, in_app_iff. simpl. tauto.
Qed.

Lemma ordered_nodes_sorted_complete (E : Env) :
  StronglySorted Z.lt (get_ordered_nodes E) /\
  (forall a, In a (get_ordered_nodes E) <-> In a (map node_addr (cfg_nodes E))).
Proof.
  destruct (ordered_loop_spec (sorted_nodes (cfg_nodes E)) None []) as [H1 H2].
  - apply sorted_nodes_sorted.
  - constructor.
  - intros x [].
  - intros b [=].
  - intros b a [=].
  - fold (get_ordered_nodes E) in H1, H2. split; [done|].
    intros a. rewrite H2. simpl.
    assert (Hp : Permutation (map node_addr (sorted_nodes (cfg_nodes E)))
                             (map node_addr (cfg_nodes E))).
    { apply Permutation_map, sorted_nodes_perm. }
    split.
    + intros [[]|Ha]. eapply Permutation_in; eauto.
    + intros Ha. right. eapply Permutation_in; [symmetry|]; eauto.
Qed.

(** C10. [get_ordered_nodes] returns the block start addresses of the CFG
    as a strictly increasing list, hence without duplicates, and it
    returns every start address of the CFG and nothing else. *)
Theorem get_ordered_nodes_strictly_increasing (E : Env) :
  StronglySorted Z.lt (get_ordered_nodes E) /\
  List.NoDup (get_ordered_nodes E) /\
  (forall a, In a (get_ordered_nodes E) <-> In a (map node_addr (cfg_nodes E))).
Proof.
  destruct (ordered_nodes_sorted_complete E) as [Hsorted Hmem].
  split; [done|]. split; [|done].
  clear Hmem. revert Hsorted. generalize (get_ordered_nodes E). intros l Hsorted.
  induction Hsorted as [|x l Hs IH Hall]; constructor; auto.
  intros Hx. rewrite List.Forall_forall in Hall. specialize (Hall x Hx). lia.
Qed.

(** ** get_block_containing_inst *)

Lemma StronglySorted_lt_nth (l : list Z) :
  StronglySorted Z.lt l ->
  forall i j : nat, (i < j < length l)%nat -> nth i l 0 < nth j l 0.
Proof.
  induction 1 as [|x l Hs IH Hall]; intros i j Hij; simpl in *; [lia|].
  destruct i as [|i], j as [|j]; try lia.
  - rewrite List.Forall_forall in Hall. apply Hall, nth_In. lia.
  - apply IH. lia.
Qed.

Lemma bisect_right_loop_S (fuel : nat) (a : list Z) (x : Z) (lo hi : nat) :
  Py.bisect_right_loop (S fuel) a x lo hi =
  if (lo <? hi)%nat then
    let mid := ((lo + hi) / 2)%nat in
    if x <? nth mid a 0
    then Py.bisect_right_loop fuel a x lo mid
    else Py.bisect_right_loop fuel a x (mid + 1)%nat hi
  else lo.
Proof. reflexivity. Qed.

(** On a sorted list the binary search returns the number of elements
    that are at most [x]. *)
Lemma bisect_right_loop_spec (a : list Z) (x : Z) :
  (forall i j : nat, (i <= j < length a)%nat -> nth i a 0 <= nth j a 0) ->
  forall (fuel lo hi : nat),
    (hi - lo <= fuel)%nat -> (lo <= hi <= length a)%nat ->
    (forall i : nat, (i < lo)%nat -> nth i a 0 <= x) ->
    (forall i : nat, (hi <= i < length a)%nat -> x < nth i a 0) ->
    let r := Py.bisect_right_loop fuel a x lo hi in
    (r <= length a)%nat /\
    (forall i : nat, (i < r)%nat -> nth i a 0 <= x) /\
    (forall i : nat, (r <= i < length a)%nat -> x < nth i a 0).
Proof.
  intros Hsorted. induction fuel as [|fuel IH]; intros lo hi Hfuel Hb Hlo Hhi.
  - simpl. assert (lo = hi) by lia. subst. split; [lia|]. split; auto.
  - cbv zeta. rewrite bisect_right_loop_S.
    destruct (Nat.ltb_spec lo hi) as [Hlt|Hge].
    + cbv zeta. set (mid := ((lo + hi) / 2)%nat).
      assert (Hmid : (lo <= mid < hi)%nat).
      { unfold mid. split.
        - apply Nat.div_le_lower_bound; lia.
        - apply Nat.Div0.div_lt_upper_bound; lia. }
      destruct (Z.ltb_spec x (nth mid a 0)) as [Hx|Hx].
      * apply IH; [lia|lia|done|].
        intros i Hi. destruct (decide (hi <= i)%nat); [apply Hhi; lia|].
        specialize (Hsorted mid i). lia.
      * apply IH; [lia|lia| |done].
        intros i Hi. specialize (Hsorted i mid). lia.
    + assert (lo = hi) by lia. subst. split; [lia|]. split; auto.
Qed.

Lemma getitem_nth {A : Type} (l : list A) (i : nat) (d : A) :
  (i < length l)%nat -> Py.getitem l (Z.of_nat i) = Ok (nth i l d).
Proof.
  intros Hi. unfold Py.getitem, Py.len.
  destruct (Z.ltb_spec (Z.of_nat i) 0); [lia|].
  destruct (Z.leb_spec 0 (Z.of_nat i)); [|lia].
  destruct (Z.ltb_spec (Z.of_nat i) (Z.of_nat (length l))); [|lia]. simpl.
  rewrite Nat2Z.id. rewrite (nth_error_nth' l d Hi). done.
Qed.

Lemma getitem_last {A : Type} (l : list A) (d : A) :
  l <> [] -> Py.getitem l (-1) = Ok (nth (length l - 1) l d).
Proof.
  intros Hl. assert (0 < length l)%nat.
  { destruct l; [done|simpl; lia]. }
  unfold Py.getitem, Py.len. change (-1 <? 0) with true. cbv iota.
  rewrite (proj2 (Z.leb_le _ _)), (proj2 (Z.ltb_lt _ _)) by lia. simpl.
  replace (Z.to_nat (Z.of_nat (length l) + -1)) with (length l - 1)%nat by lia.
  rewrite (nth_error_nth' l d); [done|lia].
Qed.

(** The address that [get_block_containing_inst] looks up: the greatest
    block start at most [A], or, when every start is above [A], the last
    (greatest) start, which index [-1] selects. *)
Lemma picked_start (E : Env) (A : Z) :
  cfg_nodes E <> [] ->
  exists a,
    Py.getitem (ordered_nodes E) (Py.bisect_right (ordered_nodes E) A - 1) = Ok a /\
    is_block_start E a /\
    ((a <= A /\ forall b', is_block_start E b' -> b' <= A -> b' <= a) \/
     (forall b', is_block_start E b' -> A < b')).
Proof.
  intros Hne. unfold ordered_nodes, is_block_start.
  destruct (ordered_nodes_sorted_complete E) as (Hs & Hmem).
  set (l := get_ordered_nodes E) in *.
  assert (Hl : l <> []).
  { destruct (cfg_nodes E) as [|n ns] eqn:Hn; [done|].
    assert (In (node_addr n) l) by (apply Hmem; by left).
    intros ->. done. }
  assert (Hnth : forall i j : nat, (i <= j < length l)%nat -> nth i l 0 <= nth j l 0).
  { intros i j Hij. destruct (decide (i = j)) as [->|]; [lia|].
    pose proof (StronglySorted_lt_nth l Hs i j). lia. }
  destruct (bisect_right_loop_spec l A Hnth (length l) 0 (length l))
    as (Hr & Hle & Hgt); try lia.
  unfold Py.bisect_right. set (r := Py.bisect_right_loop _ _ _ _ _) in *.
  destruct r as [|r'] eqn:Hr0.
  - exists (nth (length l - 1) l 0). split; [by apply getitem_last|].
    assert (0 < length l)%nat by (destruct l; [done|simpl; lia]).
    split; [apply Hmem, nth_In; lia|]. right.
    intros b' Hb'. apply Hmem in Hb'. apply (In_nth _ _ 0) in Hb' as (i & Hi & <-).
    apply Hgt. lia.
  - exists (nth r' l 0).
    replace (Z.of_nat (S r') - 1) with (Z.of_nat r') by lia.
    split; [apply getitem_nth; lia|].
    split; [apply Hmem, nth_In; lia|]. left. split; [apply Hle; lia|].
    intros b' Hb' Hb'A. apply Hmem in Hb'. apply (In_nth _ _ 0) in Hb' as (i & Hi & <-).
    destruct (decide (S r' <= i)%nat) as [Hge|Hlt].
    + specialize (Hgt i). lia.
    + apply Hnth. lia.
Qed.

(** C6, as amended.  For a CFG that has a node, whose lookup at a block
    start finds a node of that start, and whose blocks list no
    instruction address below their start ([cfg_wf]),
    [get_block_containing_inst] returns the greatest block start at most
    [A] when [A] is among that block's instruction addresses, and raises
    [MissingBlockException] otherwise; in particular it raises when [A]
    is below every block start. *)
Theorem get_block_containing_inst_correct (E : Env) (Hwf : cfg_wf E) (A : Z) :
  (forall b, greatest_start_le E A b -> block_contains E b A ->
             get_block_containing_inst E A = Ok b) /\
  ((~ exists b, greatest_start_le E A b /\ block_contains E b A) ->
   exists msg, get_block_containing_inst E A = Raise (MissingBlockException msg)) /\
  ((forall b, is_block_start E b -> A < b) ->
   exists msg, get_block_containing_inst E A = Raise (MissingBlockException msg)).
Proof.
  destruct Hwf as [Hne Hnodes]. rewrite List.Forall_forall in Hnodes.
  destruct (picked_start E A Hne) as (a & Hget & Hstart & Hcase).
  destruct (Hnodes a Hstart) as (n & Hn & Haddr & Hinsts).
  rewrite List.Forall_forall in Hinsts.
  assert (Hrun : get_block_containing_inst E A =
                 if existsb (Z.eqb A) (node_instruction_addrs n) then Ok a
                 else Raise (MissingBlockException
                        ("Couldn't find a block containing address " ++ Py.hex A))).
  { unfold get_block_containing_inst. rewrite Hget. simpl. rewrite Hn, Haddr. done. }
  assert (Hex : existsb (Z.eqb A) (node_instruction_addrs n) = true <->
                In A (node_instruction_addrs n)).
  { rewrite existsb_exists. split.
    - intros (x & Hx & Heq). apply Z.eqb_eq in Heq. by subst.
    - intros HA. exists A. split; [done|]. apply Z.eqb_refl. }
  assert (Hbelow : (forall b, is_block_start E b -> A < b) ->
                   existsb (Z.eqb A) (node_instruction_addrs n) = false).
  { intros Hall. apply not_true_is_false. intros Hx.
    apply Hex, Hinsts in Hx. specialize (Hall a Hstart). lia. }
  split; [|split].
  - intros b (Hb & HbA & Hmax) (n' & Hn' & HA).
    destruct Hcase as [[HaA Hamax]|Hall].
    + assert (b = a) by (specialize (Hmax a Hstart HaA); specialize (Hamax b Hb HbA); lia).
      subst b. rewrite Hn in Hn'. injection Hn' as <-.
      rewrite Hrun. apply Hex in HA. by rewrite HA.
    + specialize (Hall b Hb). lia.
  - intros Hnone. rewrite Hrun. destruct (existsb _ _) eqn:Hx0; [|eauto].
    exfalso. pose proof (proj1 Hex eq_refl) as Hx.
    destruct Hcase as [[HaA Hamax]|Hall].
    + apply Hnone. exists a. split; [done|]. exists n. done.
    + apply Hinsts in Hx. specialize (Hall a Hstart). lia.
  - intros Hall. rewrite Hrun, (Hbelow Hall). eauto.
Qed.

Lemma sample_cfg_wf : cfg_wf Sample.env.
Proof.
  split; [discriminate|].
  repeat constructor; eexists; (split; [reflexivity|]);
    (split; [reflexivity|]); repeat constructor; simpl; lia.
Qed.

Lemma get_block_containing_inst_correct_witness :
  cfg_wf Sample.env /\
  get_block_containing_inst Sample.env 0x8048113 = Ok 0x8048110.
Proof.
  split; [exact sample_cfg_wf|].
  apply (proj1 (get_block_containing_inst_correct Sample.env sample_cfg_wf 0x8048113)).
  - split; [unfold is_block_start; simpl; tauto|]. split; [lia|].
    intros b' Hb' Hle. unfold is_block_start in Hb'. simpl in Hb'. intuition lia.
  - eexists. split; [reflexivity|]. simpl. tauto.
Defined.

(** C6 as stated, without the assumptions on the CFG, fails: without a node
    the lookup raises [IndexError]; when the CFG lookup finds no node,
    [AttributeError]; and an address below every block start is looked
    up in the last block, [ordered_nodes[-1]], which is returned when it
    lists the address. *)
Lemma get_block_containing_inst_counterexample :
  (* no block at all: the indexing fails, not the membership test *)
  (~ exists b, greatest_start_le no_cfg_env 0x8048100 b /\
               block_contains no_cfg_env b 0x8048100) /\
  get_block_containing_inst no_cfg_env 0x8048100 = Raise IndexError /\
  (* the CFG lookup finds no node *)
  (~ exists b, greatest_start_le lost_node_env 0x8048100 b /\
               block_contains lost_node_env b 0x8048100) /\
  get_block_containing_inst lost_node_env 0x8048100 = Raise AttributeError /\
  (* an address below every block start: index -1 is the last block *)
  (forall b, is_block_start stray_env b -> 0x8048050 < b) /\
  get_block_containing_inst stray_env 0x8048050 = Ok 0x8048100.
Proof.
  split; [intros (b & (Hb & _) & _); destruct Hb|].
  split; [reflexivity|].
  split; [intros (b & _ & (n & Hn & _)); discriminate Hn|].
  split; [reflexivity|].
  split; [|reflexivity].
  intros b Hb. unfold is_block_start in Hb. simpl in Hb. intuition lia.
Qed.

(** Without any CFG node the lookup stops at the indexing, before a
    block is fetched. *)
Example empty_cfg_lookup :
  get_block_containing_inst
    (Build_Env [] (fun _ => None) Sample.factory_block Sample.addr_to_offset
               Sample.compile_asm Sample.compile_asm_fake_symbol
               Sample.compile_jmp Sample.decompile Sample.instruction_to_str
               Sample.capstone_to_nasm) 0x8048100
  = Raise IndexError.
Proof. reflexivity. Qed.

(** ** Reasoning about [result] *)

Lemma bind_Ok {A B : Type} (m : result A) (f : A -> result B) (b : B) :
  m ≫= f = Ok b -> exists a, m = Ok a /\ f a = Ok b.
Proof. destruct m; simpl; [eauto|discriminate|discriminate]. Qed.

Ltac inv_bind H :=
  let a := fresh "v" in
  let Ha := fresh "Hv" in
  apply bind_Ok in H as (a & Ha & H).

(** ** Appending texts *)

Lemma append_cons (c : ascii) (a b : string) :
  String c a +:+ b = String c (a +:+ b).
Proof. reflexivity. Qed.

Lemma append_nil_l (a : string) : "" +:+ a = a.
Proof. reflexivity. Qed.

Lemma append_assoc (a b c : string) : (a +:+ b) +:+ c = a +:+ (b +:+ c).
Proof. induction a as [|x a IH]; [done|]. rewrite !append_cons. by rewrite IH. Qed.

Lemma append_nil_r (a : string) : a +:+ "" = a.
Proof. induction a as [|x a IH]; [done|]. rewrite append_cons. by rewrite IH. Qed.

(** ** check_if_movable *)

Lemma split_ws_aux_fields (s : string) :
  spaceless (fst (split_ws_aux s)) = true /\
  Forall is_field (snd (split_ws_aux s)).
Proof.
  induction s as [|c s [IHtok IHtoks]]; simpl; [by split|].
  destruct (split_ws_aux s) as [tok toks]. simpl in *.
  destruct (is_space c) eqn:Hc; simpl.
  - split; [done|]. destruct (String.eqb_spec tok EmptyString) as [->|Hne]; [done|].
    constructor; [by split|done].
  - by rewrite Hc, IHtok.
Qed.

Lemma split_ws_fields (s : string) : Forall is_field (split_ws s).
Proof.
  unfold split_ws. destruct (split_ws_aux_fields s) as [Htok Htoks].
  destruct (split_ws_aux s) as [tok toks]. simpl in *.
  destruct (String.eqb_spec tok EmptyString) as [->|Hne]; [done|].
  constructor; [by split|done].
Qed.

Lemma text_fields_fields (E : Env) (d : Insn) : Forall is_field (text_fields E d).
Proof.
  unfold text_fields. generalize (split_ws_fields (instruction_to_str E d)).
  generalize (split_ws (instruction_to_str E d)). intros l Hl.
  do 2 (destruct Hl as [|? ? ? Hl]; [constructor|]). exact Hl.
Qed.

Lemma join_cons_after (x : string) (l : list string) :
  join " " (x :: l) = (x +:+ after_field l)%string.
Proof.
  destruct l as [|y l]; simpl.
  - by rewrite append_nil_r.
  - reflexivity.
Qed.

Lemma field_prefix_inj (x : string) :
  forall (y : string) (l1 l2 : list string),
    spaceless x = true -> spaceless y = true ->
    (x +:+ after_field l1 = y +:+ after_field l2)%string ->
    x = y /\ after_field l1 = after_field l2.
Proof.
  induction x as [|a x IH]; intros y l1 l2 Hx Hy Heq.
  - destruct y as [|b y]; [by rewrite !append_nil_l in Heq|].
    rewrite append_nil_l, append_cons in Heq. simpl in Hy.
    destruct l1; simpl in Heq; [discriminate|]. injection Heq as <- _.
    discriminate Hy.
  - destruct y as [|b y].
    + rewrite append_nil_l, append_cons in Heq. simpl in Hx.
      destruct l2; simpl in Heq; [discriminate|]. injection Heq as -> _.
      discriminate Hx.
    + rewrite !append_cons in Heq. injection Heq as <- Heq.
      simpl in Hx, Hy. apply andb_true_iff in Hx as [_ Hx].
      apply andb_true_iff in Hy as [_ Hy].
      destruct (IH y l1 l2 Hx Hy Heq) as [-> Hr]. done.
Qed.

(** Joining fields with a blank loses nothing: the joined texts are
    equal only when the fields are. *)
Lemma join_fields_inj (l1 : list string) :
  forall l2, Forall is_field l1 -> Forall is_field l2 ->
             join " " l1 = join " " l2 -> l1 = l2.
Proof.
  induction l1 as [|x l1 IH]; intros l2 H1 H2 Heq.
  - destruct l2 as [|y l2]; [done|]. rewrite join_cons_after in Heq.
    apply Forall_cons in H2 as [[Hy _] _].
    destruct y; [done|]. simpl in Heq. rewrite append_cons in Heq. discriminate.
  - apply Forall_cons in H1 as [[Hx Hxs] H1].
    destruct l2 as [|y l2].
    + rewrite join_cons_after in Heq. destruct x; [done|].
      rewrite append_cons in Heq. discriminate.
    + apply Forall_cons in H2 as [[Hy Hys] H2].
      rewrite !join_cons_after in Heq.
      destruct (field_prefix_inj x y l1 l2 Hxs Hys Heq) as [-> Hr].
      f_equal. destruct l1 as [|x1 l1], l2 as [|y1 l2]; simpl in Hr;
        try discriminate; [done|].
      injection Hr as Hr. by apply IH.
Qed.

Lemma bytes_to_comparable_str_spec (E : Env) (bs : bytes) (base : Z) :
  bytes_to_comparable_str E bs base
  = match first_decoded E bs base with
    | Some d => Ok (join " " (text_fields E d))
    | None => Raise IndexError
    end.
Proof.
  unfold bytes_to_comparable_str, first_decoded, text_fields.
  destruct (decompile E bs base) as [|d l]; reflexivity.
Qed.

(** C5. [check_if_movable] returns [True] exactly when the bytes of the
    instruction decode at each of the bases [0x0], [0x07f00000] and
    [0xfe000000] and the first instruction decoded prints with the same
    fields after the address and the bytes, that is the same mnemonic
    and operands, at the three bases; [False] exactly when the three
    decodings exist and these fields are not all the same; and it raises
    [IndexError] exactly when one of the decodings is empty. *)
Theorem check_if_movable_iff (E : Env) (i : Insn) :
  (check_if_movable E i = Ok true <->
   exists d1 d2 d3,
     first_decoded E (insn_bytes i) 0x0 = Some d1 /\
     first_decoded E (insn_bytes i) 0x07f00000 = Some d2 /\
     first_decoded E (insn_bytes i) 0xfe000000 = Some d3 /\
     text_fields E d1 = text_fields E d2 /\
     text_fields E d2 = text_fields E d3) /\
  (check_if_movable E i = Ok false <->
   exists d1 d2 d3,
     first_decoded E (insn_bytes i) 0x0 = Some d1 /\
     first_decoded E (insn_bytes i) 0x07f00000 = Some d2 /\
     first_decoded E (insn_bytes i) 0xfe000000 = Some d3 /\
     ~ (text_fields E d1 = text_fields E d2 /\
        text_fields E d2 = text_fields E d3)) /\
  (check_if_movable E i = Raise IndexError <->
   first_decoded E (insn_bytes i) 0x0 = None \/
   first_decoded E (insn_bytes i) 0x07f00000 = None \/
   first_decoded E (insn_bytes i) 0xfe000000 = None).
Proof.
  unfold check_if_movable. rewrite !bytes_to_comparable_str_spec.
  destruct (first_decoded E (insn_bytes i) 0x0) as [d1|];
    destruct (first_decoded E (insn_bytes i) 0x07f00000) as [d2|];
    destruct (first_decoded E (insn_bytes i) 0xfe000000) as [d3|];
    cbn [mbind result_bind].
  2-8: split; [|split]; split; intros H; try discriminate H; try reflexivity;
       try tauto;
       try (destruct H as (? & ? & ? & H1 & H2 & H3 & _); discriminate);
       try (destruct H as [H|[H|H]]; discriminate H).
  pose proof (text_fields_fields E d1) as F1.
  pose proof (text_fields_fields E d2) as F2.
  pose proof (text_fields_fields E d3) as F3.
  destruct (String.eqb_spec (join " " (text_fields E d1)) (join " " (text_fields E d2)))
    as [H12|H12];
    [destruct (String.eqb_spec (join " " (text_fields E d2)) (join " " (text_fields E d3)))
       as [H23|H23]|]; simpl.
  - apply join_fields_inj in H12; [|done|done].
    apply join_fields_inj in H23; [|done|done].
    split; [|split]; split; intros H; try discriminate H; try done.
    + exists d1, d2, d3. done.
    + destruct H as (? & ? & ? & [= <-] & [= <-] & [= <-] & Hn). by destruct Hn.
    + destruct H as [H|[H|H]]; discriminate H.
  - split; [|split]; split; intros H; try discriminate H; try done.
    + destruct H as (? & ? & ? & [= <-] & [= <-] & [= <-] & _ & Heq).
      by rewrite Heq in H23.
    + exists d1, d2, d3. repeat split; try done. intros [_ Heq].
      by rewrite Heq in H23.
    + destruct H as [H|[H|H]]; discriminate H.
  - split; [|split]; split; intros H; try discriminate H; try done.
    + destruct H as (? & ? & ? & [= <-] & [= <-] & [= <-] & Heq & _).
      by rewrite Heq in H12.
    + exists d1, d2, d3. repeat split; try done. intros [Heq _].
      by rewrite Heq in H12.
    + destruct H as [H|[H|H]]; discriminate H.
Qed.

(** In the sample project [mov eax, 1] is movable and [jne 0x8048130],
    whose operand is printed as an absolute address, is not. *)
Example sample_movable :
  map (check_if_movable Sample.env) (Sample.decompile Sample.block4 0x8048130)
  = [Ok true; Ok false].
Proof. vm_compute. reflexivity. Qed.

(** ** Slices and [str_overwrite] *)

Lemma clip_id (n i : Z) : 0 <= i <= n -> Py.clip n i = i.
Proof. intros H. unfold Py.clip. destruct (Z.ltb_spec i 0); lia. Qed.

Lemma clip_ge (n i : Z) : 0 <= n <= i -> Py.clip n i = n.
Proof. intros H. unfold Py.clip. destruct (Z.ltb_spec i 0); lia. Qed.

Lemma clip_nonneg (n i : Z) : 0 <= i -> Py.clip n i = Z.min i n.
Proof. intros H. unfold Py.clip. destruct (Z.ltb_spec i 0); lia. Qed.

Lemma len_nonneg {A : Type} (l : list A) : 0 <= Py.len l.
Proof. unfold Py.len. lia. Qed.

Lemma len_app {A : Type} (l1 l2 : list A) : Py.len (l1 ++ l2) = Py.len l1 + Py.len l2.
Proof. unfold Py.len. rewrite length_app. lia. Qed.

Lemma str_overwrite_append (s new : bytes) :
  Utils.str_overwrite s new None = s ++ new.
Proof.
  unfold Utils.str_overwrite, Py.slice_to, Py.slice_from.
  pose proof (len_nonneg s). pose proof (len_nonneg new).
  rewrite clip_id, clip_ge by lia. unfold Py.len.
  rewrite Nat2Z.id, firstn_all, skipn_all. by rewrite app_nil_r.
Qed.

Lemma len_str_overwrite (s new : bytes) (p : Z) :
  0 <= p ->
  Py.len (Utils.str_overwrite s new (Some p)) =
  Z.min p (Py.len s) + Py.len new + (Py.len s - Z.min (p + Py.len new) (Py.len s)).
Proof.
  intros Hp. unfold Utils.str_overwrite, Py.slice_to, Py.slice_from.
  pose proof (len_nonneg s). pose proof (len_nonneg new).
  rewrite !len_app, !clip_nonneg by lia. unfold Py.len.
  rewrite length_firstn, length_skipn. lia.
Qed.

Lemma len_str_overwrite_ge (s new : bytes) (p : Z) :
  0 <= p -> Py.len s <= Py.len (Utils.str_overwrite s new (Some p)).
Proof.
  intros Hp. rewrite len_str_overwrite by done. pose proof (len_nonneg new). lia.
Qed.

(** Inside the string, [str_overwrite] keeps the length. *)
Lemma len_str_overwrite_inside (s new : bytes) (p : Z) :
  0 <= p -> p + Py.len new <= Py.len s ->
  Py.len (Utils.str_overwrite s new (Some p)) = Py.len s.
Proof.
  intros Hp Hin. rewrite len_str_overwrite by done. pose proof (len_nonneg new). lia.
Qed.

(** The bytes written by [str_overwrite] are read back at the same place. *)
Lemma slice_str_overwrite (s new : bytes) (p : Z) :
  0 <= p <= Py.len s ->
  Py.slice (Utils.str_overwrite s new (Some p)) p (p + Py.len new) = new.
Proof.
  intros Hp. unfold Py.slice.
  pose proof (len_str_overwrite s new p (proj1 Hp)) as Hlen.
  pose proof (len_nonneg new).
  rewrite !clip_id by lia.
  unfold Utils.str_overwrite, Py.slice_to. rewrite clip_id by lia.
  rewrite skipn_app. rewrite length_firstn.
  replace (Z.to_nat p `min` length s)%nat with (Z.to_nat p) by (unfold Py.len in *; lia).
  rewrite skipn_firstn_comm, Nat.sub_diag. simpl.
  replace (p + Py.len new - p) with (Py.len new) by lia. unfold Py.len.
  rewrite Nat2Z.id, skipn_O, firstn_app, firstn_all, Nat.sub_diag. simpl.
  by rewrite app_nil_r.
Qed.

(** ** Header setup *)

Lemma len_slice_le {A : Type} (s : list A) (a b : Z) :
  0 <= a -> Py.len (Py.slice s a b) = b - a -> a <= b -> b <= Py.len s \/ b = a.
Proof.
  intros Ha Hlen Hab. unfold Py.slice in Hlen. pose proof (len_nonneg s).
  rewrite !clip_nonneg in Hlen by lia. unfold Py.len in *.
  rewrite length_firstn, length_skipn in Hlen. lia.
Qed.

Lemma dump_segments_Ok (p : Patcher) (segs : list Segment) (p' : Patcher) :
  dump_segments p = Ok (segs, p') ->
  p' = set_segments (Some segs) p /\ 52 <= Py.len (ncontent p) /\
  forall q, ncontent q = ncontent p ->
            dump_segments q = Ok (segs, set_segments (Some segs) q).
Proof.
  unfold dump_segments. intros H.
  inv_bind H. rename v into h. inv_bind H. inv_bind H. inv_bind H.
  injection H as <- <-. split; [done|]. split.
  - unfold unpack_header in Hv.
    destruct (Nat.eqb_spec (length (Py.slice (ncontent p) 0 (16 + 2 * 2 + 4 * 5 + 2 * 6))) 52)
      as [Hl|]; [|discriminate].
    destruct (len_slice_le (ncontent p) 0 52) as [?|?]; try lia.
    unfold Py.len. change (16 + 2 * 2 + 4 * 5 + 2 * 6) with 52 in Hl. lia.
  - intros q ->. rewrite Hv. simpl. rewrite Hv0. simpl. rewrite Hv1. simpl.
    rewrite Hv2. done.
Qed.

Lemma append_segments_len (segs : list Segment) :
  forall c c', foldM append_segment segs c = Ok c' -> Py.len c <= Py.len c'.
Proof.
  induction segs as [|seg segs IH]; intros c c' H; simpl in H.
  - injection H as <-. lia.
  - inv_bind H. apply IH in H. unfold append_segment in Hv. inv_bind Hv.
    injection Hv as <-. rewrite str_overwrite_append, len_app in H.
    pose proof (len_nonneg v0). lia.
Qed.

(** After header setup the marker is in place, and the outcome is a
    function of the file content alone. *)
Lemma setup_headers_Ok (p p1 : Patcher) :
  setup_headers p = Ok p1 ->
  ocontent p1 = ocontent p /\ is_patched p1 = true /\
  forall q, ocontent q = ocontent p ->
            exists q1, setup_headers q = Ok q1 /\ ncontent q1 = ncontent p1.
Proof.
  unfold setup_headers. intros H.
  assert (Hpat : forall q, ocontent q = ocontent p ->
            is_patched (set_ncontent (ocontent q) q)
            = is_patched (set_ncontent (ocontent p) p)).
  { intros q Hq. unfold is_patched. simpl. by rewrite Hq. }
  destruct (is_patched (set_ncontent (ocontent p) p)) eqn:Hp.
  - injection H as <-. split; [done|]. split; [done|].
    intros q Hq. rewrite (Hpat q Hq). eexists. split; [done|]. simpl. done.
  - inv_bind H. destruct v as [segs p']. apply dump_segments_Ok in Hv as (-> & Hlen & Hext).
    inv_bind H. rename v into phoff. inv_bind H. rename v into content.
    injection H as <-. simpl in *.
    assert (Hc : 0x34 <= Py.len content).
    { apply append_segments_len in Hv0.
      pose proof (len_str_overwrite_ge (Utils.pad_str (ocontent p) 16) phoff 28).
      assert (Py.len (ocontent p) <= Py.len (Utils.pad_str (ocontent p) 16)).
      { unfold Utils.pad_str. destruct (_ =? _); [lia|]. rewrite len_app.
        pose proof (len_nonneg (repeat x00 (Z.to_nat (16 - Py.len (ocontent p) mod 16)))).
        lia. }
      lia. }
    split; [done|]. split.
    + unfold is_patched. simpl. apply bool_decide_eq_true.
      apply slice_str_overwrite. lia.
    + intros q Hq. rewrite (Hpat q Hq).
      rewrite (Hext (set_ncontent (ocontent q) q)) by (simpl; done). simpl.
      rewrite Hq, Hv. simpl. rewrite Hv0. simpl. eexists. split; [done|]. done.
Qed.

(** Opening an image that carries the marker, in a project that loads
    it, leaves it as it is. *)
Lemma Patcher_init_patched (content : bytes) :
  Py.slice content 0x34 (0x34 + Py.len patched_tag) = patched_tag ->
  exists p, Patcher_init (Returns tt) (Returns tt) content = Ok p /\
            ncontent p = content.
Proof.
  intros Htag. unfold Patcher_init, setup_headers, is_patched. simpl.
  rewrite bool_decide_eq_true_2 by done. simpl. eauto.
Qed.

(** When the framework cannot load the file, the constructor raises what
    the framework raised, before the file is looked at; when the CFG
    cannot be built, it raises that, after the headers were set up. *)
Lemma Patcher_init_project_raises (e : exn) (cfg : outcome unit) (content : bytes) :
  Patcher_init (Throws e) cfg content = Raise e.
Proof. reflexivity. Qed.

Lemma Patcher_init_cfg_raises (e : exn) (content : bytes) (p : Patcher) :
  Patcher_init (Returns tt) (Returns tt) content = Ok p ->
  Patcher_init (Returns tt) (Throws e) content = Raise e.
Proof.
  unfold Patcher_init. cbn [call mbind result_bind].
  destruct (setup_headers _) as [q| |]; cbn [mbind result_bind];
    [done|discriminate|discriminate].
Qed.

(** C9. Header setup is idempotent: after a successful [setup_headers],
    running it again on the same patcher, or opening a new patcher on the
    saved image, succeeds and leaves the image bytes as they were; the
    image carries the marker. *)
Theorem setup_headers_idempotent (p p1 : Patcher) :
  setup_headers p = Ok p1 ->
  (exists p2, setup_headers p1 = Ok p2 /\ ncontent p2 = ncontent p1) /\
  (exists p3, Patcher_init (Returns tt) (Returns tt) (save p1) = Ok p3 /\
              ncontent p3 = ncontent p1) /\
  is_patched p1 = true.
Proof.
  intros H. destruct (setup_headers_Ok p p1 H) as (Ho & Hpat & Hext).
  split; [|split; [|done]].
  - apply Hext. done.
  - apply Patcher_init_patched. unfold is_patched in Hpat.
    by apply bool_decide_eq_true in Hpat.
Qed.

Lemma setup_headers_idempotent_witness :
  exists p1,
    setup_headers (mkPatcher Sample.image [] None None [] ∅ [] [] 0 0 0 None None)
      = Ok p1 /\
    (exists p2, setup_headers p1 = Ok p2 /\ ncontent p2 = ncontent p1) /\
    (exists p3, Patcher_init (Returns tt) (Returns tt) (save p1) = Ok p3 /\
              ncontent p3 = ncontent p1) /\
    is_patched p1 = true.
Proof.
  eexists. split; [vm_compute; reflexivity|].
  apply (setup_headers_idempotent
           (mkPatcher Sample.image [] None None [] ∅ [] [] 0 0 0 None None)).
  vm_compute. reflexivity.
Defined.

(** ** get_memory_translation_list and patch_bin *)

(** Below [2^40] the mask [0xfffffff000] clears the twelve low bits. *)
Lemma land_page (a : Z) :
  0 <= a < 2 ^ 40 -> Z.land a 0xfffffff000 = 0x1000 * (a / 0x1000).
Proof.
  intros Ha.
  transitivity (Z.ldiff a (Z.ones 12)).
  - apply Z.bits_inj'. intros i Hi.
    rewrite Z.land_spec, Z.ldiff_spec.
    change 0xfffffff000 with (Z.shiftl (Z.ones 28) 12).
    rewrite Z.shiftl_spec by done.
    rewrite (Z.testbit_ones_nonneg 12) by lia.
    destruct (Z.ltb_spec i 12) as [Hlt|Hge].
    + rewrite (Z.testbit_neg_r _ (i - 12)) by lia. done.
    + rewrite Z.testbit_ones_nonneg by lia.
      destruct (Z.ltb_spec (i - 12) 28) as [Hlt'|Hge']; [done|].
      simpl. rewrite andb_false_r, andb_true_r. symmetry.
      destruct (decide (a = 0)) as [->|Hnz]; [apply Z.bits_0|].
      apply Z.bits_above_log2; [lia|].
      assert (Z.log2 a < 40) by (apply Z.log2_lt_pow2; lia). lia.
  - rewrite Z.ldiff_ones_r by lia. rewrite Z.shiftl_mul_pow2, Z.shiftr_div_pow2 by lia.
    change (2 ^ 12) with 0x1000. lia.
Qed.

Lemma range_app (a b c : Z) :
  a <= b <= c -> Py.range a c = Py.range a b ++ Py.range b c.
Proof.
  intros H. unfold Py.range.
  replace (c - a) with ((b - a) + (c - b)) by lia.
  rewrite seqZ_app by lia. by replace (a + (b - a)) with b by lia.
Qed.

(** A stretch of addresses that the loader maps to consecutive offsets. *)
Lemma map_offset_range (E : Env) (x y o : Z) :
  (forall a, x <= a < y -> addr_to_offset E a = Some (o + (a - x))) ->
  map (addr_to_offset E) (Py.range x y) = map Some (Py.range o (o + (y - x))).
Proof.
  intros H. unfold Py.range, seqZ.
  replace (o + (y - x) - o) with (y - x) by lia.
  change (@fmap list _) with (@map) in *.
  rewrite !map_map. apply map_ext_in. intros k Hk. apply in_seq in Hk.
  rewrite H by lia. f_equal. lia.
Qed.

Lemma covered_app (l1 l2 : list (Z * Z)) :
  covered (l1 ++ l2) = covered l1 ++ covered l2.
Proof. unfold covered. apply flat_map_app. Qed.

Lemma total_length_app (l1 l2 : list (Z * Z)) :
  total_length (l1 ++ l2) = total_length l1 + total_length l2.
Proof. induction l1 as [|r l1 IH]; simpl; lia. Qed.

(** Two addresses of one page, seen through a coherent loader. *)
Lemma coherent_same_page (E : Env) (lo hi a b oa : Z) :
  loader_coherent E lo hi -> lo <= a < hi -> lo <= b < hi ->
  a / 0x1000 = b / 0x1000 -> addr_to_offset E a = Some oa ->
  addr_to_offset E b = Some (oa + (b - a)).
Proof.
  intros [Hmap Haff] Ha Hb Hpage Hoa.
  destruct (Hmap b Hb) as (ob & Hob & _).
  rewrite Hob. f_equal. specialize (Haff a b oa ob Ha Hb Hpage Hoa Hob). lia.
Qed.

Lemma translation_loop_spec (E : Env) (address hi end_p : Z) :
  loader_coherent E address hi ->
  end_p < hi -> end_p mod 0x1000 = 0 ->
  forall (fuel : nat) (nstart : Z) (mlist : list (Z * Z)),
    address <= nstart <= end_p -> nstart mod 0x1000 = 0 ->
    (Z.to_nat ((end_p - nstart) / 0x1000) <= fuel)%nat ->
    map (addr_to_offset E) (Py.range address nstart) = map Some (covered mlist) ->
    Forall in_one_page mlist ->
    exists mlist',
      translation_loop E fuel nstart end_p mlist = Ok (end_p, mlist') /\
      map (addr_to_offset E) (Py.range address end_p) = map Some (covered mlist') /\
      total_length mlist' = total_length mlist + (end_p - nstart) /\
      Forall in_one_page mlist'.
Proof.
  intros Hco Hhi Hendp. induction fuel as [|fuel IH];
    intros nstart mlist Hn Hmod Hfuel Hcov Hwf.
  - assert (nstart = end_p).
    { destruct (decide (nstart = end_p)); [done|].
      assert (0x1000 <= end_p - nstart).
      { assert ((end_p - nstart) mod 0x1000 = 0) by (rewrite Zminus_mod, Hendp, Hmod; done).
        pose proof (Z.div_mod (end_p - nstart) 0x1000). lia. }
      assert (1 <= (end_p - nstart) / 0x1000) by (apply Z.div_le_lower_bound; lia).
      lia. }
    subst. simpl. rewrite Z.eqb_refl. exists mlist. repeat split; auto. lia.
  - simpl. destruct (Z.eqb_spec nstart end_p) as [->|Hne].
    + exists mlist. repeat split; auto. lia.
    + assert (Hstep : nstart + 0x1000 <= end_p).
      { assert ((end_p - nstart) mod 0x1000 = 0) by (rewrite Zminus_mod, Hendp, Hmod; done).
        pose proof (Z.div_mod (end_p - nstart) 0x1000). 
        assert (0 <= (end_p - nstart) / 0x1000) by (apply Z.div_pos; lia).
        lia. }
      destruct (proj1 Hco nstart) as (o & Ho & Hrange & Hcong); [lia|].
      unfold maddress_to_baddress. rewrite Ho. simpl.
      destruct (IH (nstart + 0x1000) (mlist ++ [(o, o + 0x1000)])) as (ml & Hrun & Hc & Ht & Hw).
      * lia.
      * rewrite Z.add_mod, Hmod by lia. done.
      * replace (end_p - (nstart + 0x1000)) with ((end_p - nstart) + (-1) * 0x1000) by lia.
        rewrite Z.div_add by lia.
        assert (1 <= (end_p - nstart) / 0x1000) by (apply Z.div_le_lower_bound; lia).
        lia.
      * rewrite (range_app address nstart (nstart + 0x1000)) by lia.
        rewrite covered_app, !map_app, Hcov. f_equal.
        unfold covered. simpl. rewrite app_nil_r.
        replace (o + 0x1000) with (o + (nstart + 0x1000 - nstart)) by lia.
        apply map_offset_range. intros a Ha.
        apply (coherent_same_page E address hi nstart a o); try done; try lia.
        pose proof (Z.div_mod nstart 0x1000). 
        apply (Z.div_unique a 0x1000 (nstart / 0x1000) (a - nstart)); lia.
      * apply Forall_app. split; [done|]. repeat constructor; simpl; [lia|].
        replace (o + 4096 - 1) with (o + 4095) by lia.
        rewrite Hmod in Hcong. clear -Hcong Hrange.
        Z.to_euclidean_division_equations. lia.
      * exists ml. split; [done|]. split; [done|]. split; [|done].
        rewrite Ht, total_length_app. simpl. lia.
Qed.

Lemma len_slice {A : Type} (s : list A) (a b : Z) :
  0 <= a <= b -> b <= Py.len s -> Py.len (Py.slice s a b) = b - a.
Proof.
  intros Hab Hb. unfold Py.slice. rewrite !clip_id by lia.
  unfold Py.len in *. rewrite length_firstn, length_skipn. lia.
Qed.

Lemma slice_app_adj {A : Type} (s : list A) (a b c : Z) :
  0 <= a <= b -> b <= c -> c <= Py.len s ->
  Py.slice s a b ++ Py.slice s b c = Py.slice s a c.
Proof.
  intros Hab Hbc Hc. unfold Py.slice. rewrite !clip_id by lia.
  replace (Z.to_nat b) with (Z.to_nat a + Z.to_nat (b - a))%nat by lia.
  rewrite <- drop_drop, take_take_drop. f_equal. lia.
Qed.

Lemma slice_full {A : Type} (s : list A) : Py.slice s 0 (Py.len s) = s.
Proof.
  unfold Py.slice. pose proof (len_nonneg s). rewrite !clip_id by lia.
  unfold Py.len. rewrite Z.sub_0_r, Nat2Z.id. simpl. apply firstn_all.
Qed.

(** The loop of [patch_bin] cuts [new_content] into consecutive chunks as
    long as the ranges and writes each at the start of its range. *)
Lemma patch_bin_loop_spec (new_content : bytes) (ranges : list (Z * Z)) :
  forall (content : bytes) (pos : Z),
    Forall in_one_page ranges ->
    0 <= pos -> pos + total_length ranges <= Py.len new_content ->
    exists chunks,
      fold_left (patch_bin_step new_content) ranges (content, pos)
      = (write_chunks content ranges chunks, pos + total_length ranges) /\
      List.concat chunks = Py.slice new_content pos (pos + total_length ranges) /\
      map Py.len chunks = map (fun r => snd r - fst r) ranges.
Proof.
  induction ranges as [|[s e] ranges IH]; intros content pos Hwf Hpos Hlen.
  - exists []. simpl. rewrite Z.add_0_r. split; [done|]. split; [|done].
    unfold Py.slice. by rewrite Z.sub_diag.
  - apply Forall_cons in Hwf as [[Hse _] Hwf]. simpl in Hse, Hlen.
    assert (Htl : 0 <= total_length ranges).
    { clear -Hwf. induction Hwf as [|r l [? _] ? ?]; simpl; lia. }
    set (ndata := Py.slice new_content pos (pos + (e - s))).
    assert (Hnd : Py.len ndata = e - s) by (unfold ndata; rewrite len_slice; lia).
    destruct (IH (Utils.str_overwrite content ndata (Some s)) (pos + (e - s)))
      as (chunks & Hrun & Hcat & Hlens); [done|lia|lia|].
    exists (ndata :: chunks). simpl. fold ndata. rewrite Hnd, Hrun. split; [|split].
    + unfold write_chunks. simpl. f_equal. lia.
    + rewrite Hcat. unfold ndata. rewrite slice_app_adj by lia. f_equal. lia.
    + by rewrite Hlens.
Qed.

Lemma same_page_between (x a y : Z) :
  x <= a <= y -> x / 0x1000 = y / 0x1000 -> x / 0x1000 = a / 0x1000.
Proof.
  intros Ha Hxy.
  pose proof (Z.div_le_mono x a 0x1000). pose proof (Z.div_le_mono a y 0x1000). lia.
Qed.

(** The ranges returned for a mapped stretch of [size > 0] bytes: they
    are not empty, their lengths add up to [size], and listed in order
    they are the file offsets of [address], [address + 1], ... *)
Lemma translation_list_spec (E : Env) (fuel : nat) (address size : Z) :
  0 <= address -> 0 < size -> address + size <= 2 ^ 40 ->
  loader_coherent E address (address + size) ->
  (Z.to_nat (size / 0x1000) <= fuel)%nat ->
  exists ranges,
    get_memory_translation_list E fuel address size = Ok ranges /\
    Forall in_one_page ranges /\
    total_length ranges = size /\
    map (addr_to_offset E) (Py.range address (address + size))
    = map Some (covered ranges).
Proof.
  intros Ha Hsize Hhi Hco Hfuel. unfold get_memory_translation_list.
  set (end_ := address + size - 1).
  rewrite !land_page by (unfold end_; lia).
  destruct (proj1 Hco address) as (os & Hos & Hosr & Hosc); [lia|].
  destruct (proj1 Hco end_) as (oe & Hoe & Hoer & Hoec); [unfold end_; lia|].
  unfold maddress_to_baddress.
  destruct (Z.eqb_spec (0x1000 * (address / 0x1000)) (0x1000 * (end_ / 0x1000)))
    as [Hsame|Hdiff].
  - assert (Hpage : address / 0x1000 = end_ / 0x1000) by lia.
    rewrite Hos, Hoe. simpl.
    assert (Hoe' : oe = os + (end_ - address)).
    { assert (H : addr_to_offset E end_ = Some (os + (end_ - address))).
      { apply (coherent_same_page E address (address + size) address end_ os);
          try done; unfold end_; lia. }
      rewrite Hoe in H. by injection H. }
    eexists. split; [done|]. split.
    { repeat constructor; simpl; [unfold end_ in *; lia|].
      subst oe. replace (os + (end_ - address) + 1 - 1) with (os + (end_ - address)) by lia.
      assert (address <= end_) by (unfold end_; lia).
      clear -Hosc Hpage Hosr H. Z.to_euclidean_division_equations. lia. }
    split; [simpl; unfold end_ in *; lia|].
    unfold covered. simpl. rewrite app_nil_r.
    replace (oe + 1) with (os + (address + size - address)) by (unfold end_ in *; lia).
    apply map_offset_range. intros a Haa.
    apply (coherent_same_page E address (address + size) address a os); try done; try lia.
    apply (same_page_between address a end_); [unfold end_; lia|done].
  - rewrite Hos. simpl. rewrite land_page by lia.
    set (start_p := 0x1000 * (address / 0x1000)) in *.
    set (end_p := 0x1000 * (end_ / 0x1000)) in *.
    assert (Hsp : start_p <= address < start_p + 0x1000).
    { unfold start_p. pose proof (Z.div_mod address 0x1000).
      pose proof (Z.mod_pos_bound address 0x1000). lia. }
    assert (Hep : end_p <= end_ < end_p + 0x1000).
    { unfold end_p. pose proof (Z.div_mod end_ 0x1000).
      pose proof (Z.mod_pos_bound end_ 0x1000). lia. }
    assert (Hlt : start_p + 0x1000 <= end_p).
    { assert (address / 0x1000 <= end_ / 0x1000)
        by (apply Z.div_le_mono; unfold end_; lia).
      unfold start_p, end_p in *. lia. }
    assert (Hfirst : 0x1000 * (os / 0x1000) + 0x1000 = os + (start_p + 0x1000 - address)).
    { pose proof (Z.div_mod os 0x1000). pose proof (Z.div_mod address 0x1000).
      unfold start_p. lia. }
    destruct (translation_loop_spec E address (address + size) end_p Hco) with
      (fuel := fuel) (nstart := start_p + 0x1000)
      (mlist := [(os, 0x1000 * (os / 0x1000) + 0x1000)])
      as (ml & Hrun & Hcov & Htot & Hwf).
    + unfold end_ in *. lia.
    + unfold end_p. rewrite Z.mul_comm. apply Z_mod_mult.
    + lia.
    + unfold start_p. rewrite Z.add_mod, Z.mul_comm, Z_mod_mult by lia. done.
    + assert ((end_p - (start_p + 0x1000)) / 0x1000 <= size / 0x1000); [|lia].
      apply Z.div_le_mono; [lia|]. unfold end_ in *. lia.
    + unfold covered. simpl. rewrite app_nil_r. rewrite Hfirst.
      apply map_offset_range. intros a Haa.
      apply (coherent_same_page E address (address + size) address a os);
        try done; try (unfold end_ in *; lia).
      unfold start_p in *.
      rewrite (Z.div_unique a 0x1000 (address / 0x1000) (a - 0x1000 * (address / 0x1000)));
        [done| |]; lia.
    + repeat constructor; simpl; [rewrite Hfirst; lia|].
      clear -Hosr. Z.to_euclidean_division_equations. lia.
    + rewrite Hrun. simpl.
      destruct (proj1 Hco end_p) as (op & Hop & Hopr & Hopc); [unfold end_ in *; lia|].
      rewrite Hop, Hoe. simpl.
      assert (Hoe' : oe = op + (end_ - end_p)).
      { assert (H : addr_to_offset E end_ = Some (op + (end_ - end_p))).
        { apply (coherent_same_page E address (address + size) end_p end_ op);
            try done; try (unfold end_ in *; lia).
          unfold end_p. rewrite Z.mul_comm, Z.div_mul by lia. done. }
        rewrite Hoe in H. by injection H. }
      eexists. split; [done|]. split; [|split].
      * apply Forall_app. split; [done|]. repeat constructor; simpl; [lia|].
        subst oe. replace (op + (end_ - end_p) + 1 - 1) with (op + (end_ - end_p)) by lia.
        assert (end_p mod 0x1000 = 0) by (unfold end_p; rewrite Z.mul_comm; apply Z_mod_mult).
        rewrite H in Hopc. clear -Hopc Hopr Hep. Z.to_euclidean_division_equations. lia.
      * rewrite total_length_app, Htot. simpl. unfold end_ in *. lia.
      * rewrite (range_app address end_p (address + size)) by (unfold end_ in *; lia).
        rewrite covered_app, !map_app, Hcov. f_equal.
        unfold covered. simpl. rewrite app_nil_r.
        replace (oe + 1) with (op + (address + size - end_p)) by (unfold end_ in *; lia).
        apply map_offset_range. intros a Haa.
        apply (coherent_same_page E address (address + size) end_p a op);
          try done; try (unfold end_ in *; lia).
        unfold end_p in *.
        rewrite (Z.div_unique a 0x1000 (end_ / 0x1000) (a - 0x1000 * (end_ / 0x1000)));
          [rewrite Z.mul_comm, Z.div_mul by lia; done| |]; unfold end_ in *; lia.
Qed.

(** C7, as amended.  For a stretch of [size > 0] bytes that the loader
    maps page by page, every address to a file offset congruent to it
    modulo [0x1000] and the addresses of one page to one page of the file
    ([loader_coherent]), [get_memory_translation_list] returns ranges that each stay in
    one page, whose lengths add up to [size], and that list the file
    offsets of the addresses in increasing address order; [patch_bin]
    cuts [new_content] into consecutive chunks, one per range and as long
    as it, and writes them at the range starts in that order. *)
Theorem get_memory_translation_list_covers (E : Env) (fuel : nat)
    (address : Z) (new_content : bytes) (p : Patcher) :
  0 <= address -> 0 < Py.len new_content ->
  address + Py.len new_content <= 2 ^ 40 ->
  loader_coherent E address (address + Py.len new_content) ->
  (Z.to_nat (Py.len new_content / 0x1000) <= fuel)%nat ->
  exists ranges chunks,
    get_memory_translation_list E fuel address (Py.len new_content) = Ok ranges /\
    Forall in_one_page ranges /\
    total_length ranges = Py.len new_content /\
    map (addr_to_offset E) (Py.range address (address + Py.len new_content))
    = map Some (covered ranges) /\
    patch_bin E fuel address new_content p
    = Ok (set_ncontent (write_chunks (ncontent p) ranges chunks) p) /\
    List.concat chunks = new_content /\
    map Py.len chunks = map (fun r => snd r - fst r) ranges.
Proof.
  intros Ha Hsize Hhi Hco Hfuel.
  destruct (translation_list_spec E fuel address (Py.len new_content))
    as (ranges & Hrun & Hwf & Htot & Hcov); try done.
  destruct (patch_bin_loop_spec new_content ranges (ncontent p) 0)
    as (chunks & Hloop & Hcat & Hlens); [done|lia|lia|].
  exists ranges, chunks. repeat split; try done.
  - unfold patch_bin. rewrite Hrun. simpl. by rewrite Hloop.
  - rewrite Hcat, Z.add_0_l, Htot. apply slice_full.
Qed.

Lemma wide_loader_coherent (lo hi : Z) :
  Sample.base <= lo -> hi <= Sample.base + 0x3000 ->
  loader_coherent wide_env lo hi.
Proof.
  unfold Sample.base. intros Hlo Hhi.
  assert (Hoff : forall a, lo <= a < hi ->
                   addr_to_offset wide_env a = Some (a - 0x8048000)).
  { intros a Ha. simpl. unfold wide_addr_to_offset, Sample.base.
    destruct (Z.leb_spec 0x8048000 a); [|lia].
    destruct (Z.ltb_spec a (0x8048000 + 0x3000)); [done|lia]. }
  split.
  - intros a Ha. exists (a - 0x8048000). split; [by apply Hoff|].
    split; [lia|]. Z.to_euclidean_division_equations. lia.
  - intros a b oa ob Ha Hb _ Hoa Hob.
    rewrite Hoff in Hoa by done. rewrite Hoff in Hob by done.
    injection Hoa as <-. injection Hob as <-. lia.
Qed.

(** Five bytes written at [0x8048ffe] go to the file ranges
    [[0xffe, 0x1000)] and [[0x1000, 0x1003)]. *)
Lemma get_memory_translation_list_covers_witness :
  exists p, Sample.opened = Ok p /\
  exists ranges chunks,
    get_memory_translation_list wide_env 1 0x8048ffe 5 = Ok ranges /\
    Forall in_one_page ranges /\
    total_length ranges = 5 /\
    map (addr_to_offset wide_env) (Py.range 0x8048ffe (0x8048ffe + 5))
    = map Some (covered ranges) /\
    patch_bin wide_env 1 0x8048ffe [x90; x90; x90; x90; x90] p
    = Ok (set_ncontent (write_chunks (ncontent p) ranges chunks) p) /\
    List.concat chunks = [x90; x90; x90; x90; x90] /\
    map Py.len chunks = map (fun r => snd r - fst r) ranges.
Proof.
  eexists. split; [vm_compute; reflexivity|].
  apply (get_memory_translation_list_covers wide_env 1 0x8048ffe
           [x90; x90; x90; x90; x90]).
  - lia.
  - reflexivity.
  - vm_compute. discriminate.
  - apply wide_loader_coherent; vm_compute; discriminate.
  - vm_compute. lia.
Defined.

(** C7 as stated, for every mapped address, fails.  With the image mapped at
    the file offset [0x800], every address of the five bytes from
    [0x8048ffe] is mapped, to consecutive offsets, but the first range
    runs to the next page boundary of the file, [0x2000], and the ranges
    add up to 2053 bytes. *)
Lemma get_memory_translation_list_counterexample :
  (forall a, 0x8048ffe <= a < 0x8048ffe + 5 ->
             exists o, addr_to_offset shifted_env a = Some o) /\
  get_memory_translation_list shifted_env 1 0x8048ffe 5
  = Ok [(0x17fe, 0x2000); (0x1800, 0x1803)] /\
  total_length [(0x17fe, 0x2000); (0x1800, 0x1803)] = 2053 /\
  covered [(0x1800, 0x1803)] = [0x1800; 0x1801; 0x1802] /\
  map (addr_to_offset shifted_env) [0x8048ffe; 0x8048fff; 0x8049000; 0x8049001; 0x8049002]
  = map Some [0x17fe; 0x17ff; 0x1800; 0x1801; 0x1802].
Proof.
  split.
  { intros a Ha. simpl. unfold shifted_addr_to_offset, Sample.base.
    destruct (Z.leb_spec 0x8048000 a); [|lia].
    destruct (Z.ltb_spec a (0x8048000 + 0x3000)); [|lia]. simpl. eauto. }
  vm_compute. repeat split; reflexivity.
Qed.

Example translation_across_pages :
  get_memory_translation_list wide_env 1 0x8048ffe 5
  = Ok [(0xffe, 0x1000); (0x1000, 0x1003)].
Proof. vm_compute. reflexivity. Qed.

(** ** Inline replacements *)

Lemma foldM_invariant {A S : Type} (f : S -> A -> result S) (P : S -> Prop) :
  (forall s x s', f s x = Ok s' -> P s -> P s') ->
  forall l s s', foldM f l s = Ok s' -> P s -> P s'.
Proof.
  intros Hf. induction l as [|x l IH]; intros s s' H Hs; simpl in H.
  - by injection H as <-.
  - inv_bind H. eauto.
Qed.

Lemma fold_left_invariant {A S : Type} (f : S -> A -> S) (P : S -> Prop) :
  (forall s x, P s -> P (f s x)) ->
  forall l s, P s -> P (fold_left f l s).
Proof. intros Hf. induction l as [|x l IH]; intros s Hs; simpl; auto. Qed.

Lemma inline_step_keeps (E : Env) (q q' : Patcher) (patch : Patch) :
  inline_step E q patch = Ok q' ->
  name_map q' = name_map q /\ patches q' = patches q.
Proof.
  destruct patch; simpl; intros H; try (injection H as <-; done).
  inv_bind H. inv_bind H. injection H as <-. done.
Qed.




Lemma compile_add_code_patches (E : Env) (p p' : Patcher) :
  compile_add_code E p = Ok p' -> patches p' = patches p.
Proof.
  unfold compile_add_code. intros H. inv_bind H. destruct v as [p1 pos].
  assert (H1 : patches p1 = patches p).
  { change (patches (fst (p1, pos)) = patches p).
    eapply (foldM_invariant (resolve_step E)
              (fun st => patches (fst st) = patches p)); [|exact Hv|done].
    intros [s pos'] x [s' pos''] Hx Hs. simpl in *. destruct x; simpl in Hx;
      try (injection Hx as <- <-; done).
    inv_bind Hx. injection Hx as <- <-. destruct name; simpl; done. }
  simpl in H. rewrite <- H1.
  eapply (foldM_invariant (add_code_step E)
            (fun s => patches s = patches p1)); [|exact H|done].
  intros s x s' Hx Hs. destruct x; simpl in Hx; try (injection Hx as <-; done).
  inv_bind Hx. injection Hx as <-. done.
Qed.

Lemma compile_add_data_patches (p : Patcher) :
  patches (compile_add_data (compile_begin p)) = patches p.
Proof.
  unfold compile_add_data. simpl.
  apply (fold_left_invariant add_data_step (fun s => patches s = patches p)); [|done].
  intros s x Hs. destruct x; simpl; try done. destruct name; done.
Qed.

Example sample_opened : Sample.opened = Ok sample_patcher.
Proof. vm_compute. reflexivity. Qed.

(** Replacing the five-byte [mov eax, 1] at [0x8048100] by five one-byte
    instructions overwrites the five bytes at file offset [0x100]. *)
Example sample_inline_equal_length :
  let asm := String.concat nl ["nop"; "nop"; "nop"; "nop"; "nop"] in
  let p := replace_instruction_asm 0x8048100 asm None sample_patcher in
  exists p', compile_patches Sample.env 0 p = Ok p' /\
             Py.slice (ncontent p') 0x100 0x105 = [x90; x90; x90; x90; x90] /\
             Py.slice (ncontent sample_patcher) 0x100 0x105 = [xb8; x01; x00; x00; x00].
Proof. eexists. split; [vm_compute; reflexivity|]. vm_compute. auto. Qed.

(** ** The text of the relocation stub *)

Lemma split_char_cons (sep c : ascii) (s : string) :
  exists hd tl, split_char sep s = hd :: tl /\
    split_char sep (String c s) =
    if Ascii.eqb c sep then EmptyString :: hd :: tl else String c hd :: tl.
Proof.
  revert c. induction s as [|x s IH]; intros c.
  - exists EmptyString, []. done.
  - destruct (IH x) as (hd & tl & Hs & Hxs).
    destruct (Ascii.eqb x sep) eqn:Hx.
    + exists EmptyString, (hd :: tl). split; [done|]. simpl in *. rewrite Hs, Hx. done.
    + exists (String x hd), tl. split; [done|]. simpl in *. rewrite Hs, Hx. done.
Qed.

Lemma split_char_app_sep (sep : ascii) (s1 s2 : string) :
  split_char sep (s1 +:+ String sep s2) = split_char sep s1 ++ split_char sep s2.
Proof.
  induction s1 as [|c s1 IH].
  - rewrite append_nil_l. destruct (split_char_cons sep sep s2) as (hd & tl & Hs & Hc).
    rewrite Ascii.eqb_refl in Hc. rewrite Hc, Hs. done.
  - change (String c s1 +:+ String sep s2) with (String c (s1 +:+ String sep s2)).
    destruct (split_char_cons sep c (s1 +:+ String sep s2)) as (hd & tl & Hs & Hc).
    destruct (split_char_cons sep c s1) as (hd1 & tl1 & Hs1 & Hc1).
    rewrite Hc, Hc1. rewrite IH, Hs1 in Hs. simpl in Hs. injection Hs as <- <-.
    destruct (Ascii.eqb c sep); done.
Qed.

Lemma code_lines_empty : code_lines "" = [].
Proof. reflexivity. Qed.

Lemma code_lines_app_nl (s1 s2 : string) :
  code_lines (s1 +:+ nl +:+ s2) = code_lines s1 ++ code_lines s2.
Proof.
  unfold code_lines, nl. change (String newline "" +:+ s2) with (String newline s2).
  rewrite split_char_app_sep. apply List.filter_app.
Qed.

Lemma code_lines_join (l : list string) :
  code_lines (join nl l) = flat_map code_lines l.
Proof.
  induction l as [|x l IH]; [done|].
  destruct l as [|y l].
  - simpl. by rewrite app_nil_r.
  - change (join nl (x :: y :: l)) with (x +:+ nl +:+ join nl (y :: l)).
    rewrite code_lines_app_nl, IH. done.
Qed.

Lemma split_char_one_line (s : string) :
  one_line s = true -> split_char newline s = [s].
Proof.
  induction s as [|c s IH]; [done|]. simpl. intros [Hc Hs]%andb_prop.
  rewrite (IH Hs). apply negb_true_iff in Hc. by rewrite Hc.
Qed.

Lemma one_line_app (a b : string) :
  one_line a = true -> one_line b = true -> one_line (a +:+ b) = true.
Proof.
  induction a as [|c a IH]; [done|]. rewrite append_cons. simpl.
  intros [Hc Ha]%andb_prop Hb. rewrite Hc. simpl. auto.
Qed.

Fixpoint raw_hex_one_line (p : positive) (rest : string) {struct p} :
  one_line rest = true -> one_line (HexString.Raw.of_pos p rest) = true.
Proof.
  intros H. do 4 try destruct p as [p|p|]; simpl; rewrite ?H;
    try reflexivity; apply raw_hex_one_line; simpl; exact H.
Qed.

Lemma hex_one_line (n : Z) : one_line (Py.hex n) = true.
Proof.
  unfold Py.hex, HexString.of_Z, HexString.of_pos.
  destruct n as [|p|p]; [done| |]; simpl; by apply raw_hex_one_line.
Qed.

(** The jump back is a single line of code. *)
Lemma code_lines_jmp (target : Z) :
  code_lines ("jmp " +:+ Py.hex target) = ["jmp " +:+ Py.hex target].
Proof.
  unfold code_lines. rewrite split_char_one_line.
  - reflexivity.
  - apply one_line_app; [done|apply hex_one_line].
Qed.

Lemma tagged_with_displaced (t : Overwritten) (patch_addr detour_pos : Z)
    (movable : list Insn) :
  tagged_with t (map (fun i => (i, classify patch_addr detour_pos 5 i)) movable)
  = displaced t patch_addr detour_pos movable.
Proof.
  unfold tagged_with, displaced. induction movable as [|i l IH]; [done|].
  simpl. destruct (bool_decide _); simpl; by rewrite IH.
Qed.

Lemma flat_map_code_lines_map {A : Type} (f : A -> string) (l : list A) :
  flat_map code_lines (map f l) = flat_map (fun i => code_lines (f i)) l.
Proof. induction l as [|x l IH]; [done|]. simpl. by rewrite IH. Qed.

(** [injected_code] before the blank lines are removed, as a list of
    pieces joined by line breaks. *)
Lemma injected_code_pieces (pre_text code culprit_text post_text j1 j2 : string) :
  ((((((((("" +:+ nl +:+ str_repeat ("nop" +:+ nl) 5 +:+ nl) +:+ pre_text) +:+ nl)
        +:+ ("; --- custom code start" +:+ nl +:+ code +:+ nl
             +:+ "; --- custom code end" +:+ nl +:+ nl))
       +:+ culprit_text) +:+ nl) +:+ post_text) +:+ nl) +:+ (j1 +:+ j2 +:+ nl))
  = join nl [""; "nop"; "nop"; "nop"; "nop"; "nop"; ""; pre_text;
             "; --- custom code start"; code; "; --- custom code end"; "";
             culprit_text; post_text; j1 +:+ j2; ""].
Proof.
  unfold join. cbn [String.concat str_repeat].
  rewrite !append_assoc, !append_nil_l, ?append_nil_r. reflexivity.
Qed.

Lemma build_injected_code_lines (E : Env) (patch_addr detour_pos : Z)
    (movable : list Insn) (code : string) (target : Z) :
  let tagged := map (fun i => (i, classify patch_addr detour_pos 5 i)) movable in
  jmp_back_target tagged = Some target ->
  build_injected_code E tagged code
  = Ok (join nl (stub_lines E patch_addr detour_pos movable code target)).
Proof.
  intros tagged Hjmp. unfold build_injected_code. rewrite Hjmp.
  f_equal. f_equal.
  match goal with
  | |- List.filter _ (split_char newline ?x) = ?r => change (code_lines x = r)
  end.
  rewrite injected_code_pieces, code_lines_join.
  cbn [flat_map]. rewrite !code_lines_join, code_lines_jmp, code_lines_empty.
  rewrite !flat_map_code_lines_map. unfold tagged. rewrite !tagged_with_displaced.
  unfold stub_lines. rewrite app_nil_r. reflexivity.
Qed.

Lemma find_app_first {A : Type} (f : A -> bool) (l1 l2 : list A) :
  List.find f (l1 ++ l2) =
  match List.find f l1 with
  | Some x => Some x
  | None => List.find f l2
  end.
Proof. induction l1 as [|x l1 IH]; [done|]. simpl. by destruct (f x). Qed.

(** The target of the jump back is the end of the last displaced
    instruction. *)
Lemma jmp_back_target_last (patch_addr detour_pos : Z) (movable : list Insn)
    (target : Z) :
  StronglySorted Z.lt (map address movable) ->
  jmp_back_target (map (fun i => (i, classify patch_addr detour_pos 5 i)) movable)
  = Some target ->
  exists i, last_displaced patch_addr detour_pos movable i /\
            target = address i + Py.len (insn_bytes i).
Proof.
  unfold jmp_back_target, last_displaced.
  induction movable as [|a l IH]; intros Hs H; simpl in *; [done|].
  apply StronglySorted_inv in Hs as [Hs Ha]. rewrite List.Forall_forall in Ha.
  rewrite find_app_first in H.
  destruct (find _ (rev _)) as [[i t]|] eqn:Hfind.
  - destruct (IH Hs H) as (i' & (Hin & Hout & Hmax) & Ht).
    exists i'. split; [|done]. split; [by right|]. split; [done|].
    intros j [<-|Hj] Hjout; [|by apply Hmax].
    assert (address a < address i'); [|lia]. apply Ha. by apply in_map.
  - simpl in H. destruct (is_out (classify patch_addr detour_pos 5 a)) eqn:Hout;
      simpl in H; [done|]. injection H as <-. exists a. split; [|done].
    split; [by left|]. split; [by intros Heq; rewrite Heq in Hout|].
    intros j [<-|Hj] Hjout; [lia|]. exfalso.
    pose proof (find_none _ _ Hfind (j, classify patch_addr detour_pos 5 j)) as Hn.
    simpl in Hn. destruct (classify patch_addr detour_pos 5 j) eqn:Hc; try done;
      (assert (negb false = false) as Habs; [|discriminate Habs]);
      apply Hn; apply in_rev; rewrite rev_involutive;
      apply in_map_iff; exists j; rewrite Hc; done.
Qed.

Lemma patch_bin_keeps (E : Env) (fuel : nat) (a : Z) (new : bytes) (p p' : Patcher) :
  patch_bin E fuel a new p = Ok p' ->
  added_code p' = added_code p /\ curr_code_position p' = curr_code_position p.
Proof. unfold patch_bin. intros H. inv_bind H. injection H as <-. done. Qed.

Lemma nop_steps_keep (E : Env) (fuel : nat) (l : list (Insn * Overwritten))
    (p p' : Patcher) :
  foldM (nop_step E fuel) l p = Ok p' ->
  added_code p' = added_code p /\ curr_code_position p' = curr_code_position p.
Proof.
  intros H.
  eapply (foldM_invariant (nop_step E fuel)
            (fun s => added_code s = added_code p /\
                      curr_code_position s = curr_code_position p)); [|exact H|done].
  intros s x s' Hx [Hs1 Hs2]. unfold nop_step in Hx.
  destruct (is_out x.2); [by injection Hx as <-|].
  apply patch_bin_keeps in Hx as [-> ->]. done.
Qed.

(** The tag of an instruction: [out] when it shares no byte with the
    jump, otherwise its place relative to the patched address. *)
Lemma classify_spec (patch_addr detour_pos : Z) (i : Insn) :
  match classify patch_addr detour_pos 5 i with
  | tag_out => ~ overlaps detour_pos i
  | tag_pre => overlaps detour_pos i /\ address i < patch_addr
  | tag_culprit => overlaps detour_pos i /\ address i = patch_addr
  | tag_post => overlaps detour_pos i /\ patch_addr < address i
  end.
Proof.
  unfold classify, overlaps, Py.range.
  set (X := (list_to_set (seqZ detour_pos (detour_pos + 5 - detour_pos)) : gset Z)
            ∩ list_to_set (seqZ (address i)
                             (address i + Py.len (insn_bytes i) - address i))).
  assert (HX : forall x, x ∈ X <->
                 detour_pos <= x < detour_pos + 5 /\
                 address i <= x < address i + Py.len (insn_bytes i)).
  { intros x. unfold X.
    rewrite elem_of_intersection, !elem_of_list_to_set, !elem_of_seqZ. lia. }
  destruct (decide (0 < size X)%nat) as [Hpos|Hzero].
  - apply size_pos_elem_of in Hpos as [x Hx]. apply HX in Hx.
    destruct (Z.ltb_spec (address i) patch_addr); [eauto|].
    destruct (Z.eqb_spec (address i) patch_addr); [eauto|].
    split; [eauto|lia].
  - intros [x Hx]. apply HX in Hx. apply Hzero.
    destruct (decide (size X = 0%nat)) as [Hs|Hs]; [|lia].
    apply size_empty_iff in Hs. exfalso.
    apply (not_elem_of_empty (C := gset Z) x). by rewrite <- Hs.
Qed.

Lemma displaced_spec (t : Overwritten) (patch_addr detour_pos : Z)
    (movable : list Insn) (i : Insn) :
  In i (displaced t patch_addr detour_pos movable) <->
  In i movable /\ classify patch_addr detour_pos 5 i = t.
Proof.
  unfold displaced. rewrite filter_In. by rewrite bool_decide_eq_true.
Qed.

Lemma displaced_sorted (t : Overwritten) (patch_addr detour_pos : Z)
    (movable : list Insn) :
  StronglySorted Z.lt (map address movable) ->
  StronglySorted Z.lt (map address (displaced t patch_addr detour_pos movable)).
Proof.
  unfold displaced. induction movable as [|i l IH]; simpl; [done|].
  intros [Hs Hall]%StronglySorted_inv.
  destruct (bool_decide _); simpl; [|by apply IH].
  constructor; [by apply IH|]. rewrite List.Forall_forall in *.
  intros x Hx. apply Hall. apply in_map_iff in Hx as (j & <- & Hj).
  apply filter_In in Hj as [Hj _]. by apply in_map.
Qed.

(** The statements of [insert_detour] that follow the choice of the slot
    (lines 403-460), taken on their own.  When they succeed, the stub
    they assemble and append to the added code is
    the text whose lines are, in this order: five [nop]s, the [pre]
    instructions in address order, the injected source (between its two
    comment lines), the [culprit], the [post] instructions in address
    order, and a [jmp] to the address just after the last byte of the
    highest-addressed displaced instruction of the movable window. *)
Theorem stub_text_order (E : Env) (fuel : nat) (p p' : Patcher)
    (patch_addr : Z) (code : string) (block_addr : Z) (block : Block)
    (movable : list Insn) (detour_pos : Z) :
  StronglySorted Z.lt (map address movable) ->
  detour_at E fuel p patch_addr code block_addr block movable detour_pos 5 = Ok p' ->
  exists i target new_code,
    last_displaced patch_addr detour_pos movable i /\
    target = address i + Py.len (insn_bytes i) /\
    (forall t, StronglySorted Z.lt
                 (map address (displaced t patch_addr detour_pos movable))) /\
    build_injected_code E
      (map (fun i => (i, classify patch_addr detour_pos 5 i)) movable) code
    = Ok (join nl (stub_lines E patch_addr detour_pos movable code target)) /\
    call (compile_asm E
            (join nl (stub_lines E patch_addr detour_pos movable code target))
            (curr_code_position p) None) = Ok new_code /\
    added_code p' = added_code p ++ new_code /\
    curr_code_position p' = curr_code_position p + Py.len new_code.
Proof.
  intros Hsorted Hrun. unfold detour_at in Hrun.
  inv_bind Hrun. inv_bind Hrun. rename v0 into p1.
  inv_bind Hrun. rename v0 into jmp_code. inv_bind Hrun. rename v0 into p2.
  inv_bind Hrun. inv_bind Hrun. rename v1 into text. inv_bind Hrun.
  rename v1 into new_code. injection Hrun as <-.
  apply nop_steps_keep in Hv0 as [Hc1 Hp1].
  apply patch_bin_keeps in Hv2 as [Hc2 Hp2].
  unfold build_injected_code in Hv4.
  destruct (jmp_back_target _) as [target|] eqn:Hjmp; [|discriminate].
  destruct (jmp_back_target_last patch_addr detour_pos movable target Hsorted Hjmp)
    as (i & Hlast & Htarget).
  pose proof (build_injected_code_lines E patch_addr detour_pos movable code target Hjmp)
    as Htext.
  unfold build_injected_code in Htext. rewrite Hjmp in Htext.
  rewrite Htext in Hv4. injection Hv4 as <-.
  exists i, target, new_code. split; [done|]. split; [done|].
  split; [intros t; by apply displaced_sorted|]. split.
  - by apply build_injected_code_lines.
  - simpl. rewrite Hp2, Hp1 in Hv5. rewrite Hc2, Hc1, Hp2, Hp1. done.
Qed.

(** The second block of the sample project, [push ebp; mov ebp, esp;
    sub esp, 0x10; ret] at [0x8048110], with a detour requested at the
    [sub] and the jump placed at [0x8048110]: the stub is

      nop (five times) / push ebp / mov ebp, esp / ; --- custom code start /
      inc ebx / ; --- custom code end / sub esp, 0x10 / jmp 0x8048116 *)
Example sample_stub_text :
  let movable := Sample.decompile Sample.block2 0x8048110 in
  build_injected_code Sample.env
    (map (fun i => (i, classify 0x8048113 0x8048110 5 i)) movable) "inc ebx"
  = Ok (join nl ["nop"; "nop"; "nop"; "nop"; "nop"; "push ebp"; "mov ebp, esp";
                 "; --- custom code start"; "inc ebx"; "; --- custom code end";
                 "sub esp, 0x10"; "jmp 0x8048116"]).
Proof. vm_compute. reflexivity. Qed.

Lemma stub_text_order_witness :
  let movable := Sample.decompile Sample.block2 0x8048110 in
  let block := factory_block Sample.env 0x8048110 None in
  let p' := unwrap (detour_at Sample.env 1 sample_patcher 0x8048113 "inc ebx"
                      0x8048110 block movable 0x8048110 5) in
  StronglySorted Z.lt (map address movable) /\
  detour_at Sample.env 1 sample_patcher 0x8048113 "inc ebx" 0x8048110 block
            movable 0x8048110 5 = Ok p' /\
  exists i target new_code,
    last_displaced 0x8048113 0x8048110 movable i /\
    target = address i + Py.len (insn_bytes i) /\
    (forall t, StronglySorted Z.lt
                 (map address (displaced t 0x8048113 0x8048110 movable))) /\
    build_injected_code Sample.env
      (map (fun i => (i, classify 0x8048113 0x8048110 5 i)) movable) "inc ebx"
    = Ok (join nl (stub_lines Sample.env 0x8048113 0x8048110 movable "inc ebx" target)) /\
    call (compile_asm Sample.env
            (join nl (stub_lines Sample.env 0x8048113 0x8048110 movable "inc ebx" target))
            (curr_code_position sample_patcher) None) = Ok new_code /\
    added_code p' = added_code sample_patcher ++ new_code /\
    curr_code_position p' = curr_code_position sample_patcher + Py.len new_code.
Proof.
  intros movable block p'.
  assert (Hsorted : StronglySorted Z.lt (map address movable)).
  { simpl. repeat constructor; lia. }
  assert (Hrun : detour_at Sample.env 1 sample_patcher 0x8048113 "inc ebx" 0x8048110
                   block movable 0x8048110 5 = Ok p') by (vm_compute; reflexivity).
  split; [exact Hsorted|]. split; [exact Hrun|].
  exact (stub_text_order Sample.env 1 sample_patcher p' 0x8048113 "inc ebx"
           0x8048110 block movable 0x8048110 Hsorted Hrun).
Defined.

(** ** Where the pipeline departs from its description *)

(** Pass 2 of the added code leaves the image as it was: the value of
    [str_overwrite] is dropped. *)
Lemma compile_add_code_keeps_image (E : Env) (p p' : Patcher) :
  compile_add_code E p = Ok p' -> ncontent p' = ncontent p.
Proof.
  unfold compile_add_code. intros H. inv_bind H. destruct v as [p1 pos].
  assert (H1 : ncontent p1 = ncontent p).
  { change (ncontent (fst (p1, pos)) = ncontent p).
    eapply (foldM_invariant (resolve_step E)
              (fun st => ncontent (fst st) = ncontent p)); [|exact Hv|done].
    intros [s pos'] x [s' pos''] Hx Hs. simpl in *. destruct x; simpl in Hx;
      try (injection Hx as <- <-; done).
    inv_bind Hx. injection Hx as <- <-. destruct name; simpl; done. }
  simpl in H. rewrite <- H1.
  eapply (foldM_invariant (add_code_step E)
            (fun s => ncontent s = ncontent p1)); [|exact H|done].
  intros s x s' Hx Hs. destruct x; simpl in Hx; try (injection Hx as <-; done).
  inv_bind Hx. injection Hx as <-. done.
Qed.

(** C1. With one [AddCodePatch] registered on the sample image,
    [compile_patches] succeeds and assembles one byte of added code for
    file offset [0x1000], but the saved image is [0x1000] bytes long: it
    holds no byte of the added code. *)
Theorem added_code_missing_from_image :
  let p := add_code "nop" None sample_patcher in
  let p' := unwrap (compile_patches Sample.env 1 p) in
  compile_patches Sample.env 1 p = Ok p' /\
  added_code p' = [x90] /\
  added_code_file_start p' = Some 0x1000 /\
  Py.len (save p') = 0x1000 /\
  Py.slice (save p') 0x1000 (0x1000 + Py.len (added_code p')) = [].
Proof. vm_compute. repeat split; reflexivity. Qed.

(** The added data, whose loop assigns the value of [str_overwrite], is
    in the saved image at [added_data_file_start]. *)
Example added_data_in_image :
  let p := add_data [x68; x69] None sample_patcher in
  let p' := unwrap (compile_patches Sample.env 1 p) in
  compile_patches Sample.env 1 p = Ok p' /\
  added_data_file_start p' = Some 0x1000 /\
  Py.slice (save p') 0x1000 (0x1000 + Py.len (added_data p')) = [x68; x69].
Proof. vm_compute. repeat split; reflexivity. Qed.

(** The search for the slot cannot return a slot: the first attempt that
    passes the left test adds an integer to a [Block]. *)
Lemma find_detour_pos_no_slot (patch_addr detour_size ws : Z) (b : Block)
    (attempts : list Z) :
  find_detour_pos patch_addr detour_size ws (PyBlock b) attempts = Ok None \/
  find_detour_pos patch_addr detour_size ws (PyBlock b) attempts = Raise TypeError.
Proof.
  induction attempts as [|pos rest IH]; simpl; [by left|].
  destruct (patch_addr + pos >=? ws); simpl; [by right|done].
Qed.

Lemma getitem_raises {A : Type} (l : list A) (i : Z) (e : exn) :
  Py.getitem l i = Raise e -> e = IndexError.
Proof.
  unfold Py.getitem. destruct (_ && _); [|congruence].
  destruct (nth_error _ _); congruence.
Qed.

Lemma get_block_containing_inst_raises (E : Env) (a : Z) (e : exn) :
  get_block_containing_inst E a = Raise e ->
  e = IndexError \/ e = AttributeError \/ exists msg, e = MissingBlockException msg.
Proof.
  unfold get_block_containing_inst.
  destruct (Py.getitem _ _) as [x|e'|] eqn:Hg; simpl; [| |discriminate].
  - destruct (get_any_node E x) as [n|]; [|intros [= <-]; auto].
    destruct (existsb _ _); [discriminate|]. intros [= <-]. eauto.
  - intros [= <-]. left. by apply getitem_raises in Hg.
Qed.

Lemma check_if_movable_raises (E : Env) (i : Insn) (e : exn) :
  check_if_movable E i = Raise e -> e = IndexError.
Proof.
  unfold check_if_movable, bytes_to_comparable_str.
  destruct (Py.getitem (decompile E (insn_bytes i) 0) 0) as [x|e'|] eqn:H1; simpl;
    [|intros [= <-]; by apply getitem_raises in H1|discriminate].
  destruct (Py.getitem (decompile E (insn_bytes i) 0x07f00000) 0) as [y|e'|] eqn:H2;
    simpl; [|intros [= <-]; by apply getitem_raises in H2|discriminate].
  destruct (Py.getitem (decompile E (insn_bytes i) 0xfe000000) 0) as [z|e'|] eqn:H3;
    simpl; [|intros [= <-]; by apply getitem_raises in H3|discriminate].
  destruct (_ && _); discriminate.
Qed.

(** [insert_detour] never completes, and never reports "No space in bb". *)
Lemma insert_detour_never_completes (E : Env) (fuel : nat) (p : Patcher)
    (patch_addr : Z) (code : string) :
  (forall p', insert_detour E fuel p patch_addr code <> Ok p') /\
  insert_detour E fuel p patch_addr code <> Raise (DetourException "No space in bb").
Proof.
  unfold insert_detour.
  destruct (get_block_containing_inst E patch_addr) as [ba|e|] eqn:Hb; cbn [mbind result_bind].
  2: { split; [discriminate|]. intros [= ->].
       apply get_block_containing_inst_raises in Hb as [?|[?|[? ?]]]; discriminate. }
  2: { split; discriminate. }
  destruct (Py.getitem _ (-1)) as [li|e|] eqn:Hl; cbn [mbind result_bind].
  2: { split; [discriminate|]. intros [= ->]. by apply getitem_raises in Hl. }
  2: { split; discriminate. }
  destruct (check_if_movable E li) as [m|e|] eqn:Hm; cbn [mbind result_bind].
  2: { split; [discriminate|]. intros [= ->]. by apply check_if_movable_raises in Hm. }
  2: { split; discriminate. }
  destruct (_ =? 0); [split; discriminate|].
  destruct (Py.getitem _ 0) as [fi|e|] eqn:Hf; cbn [mbind result_bind].
  2: { split; [discriminate|]. intros [= ->]. by apply getitem_raises in Hf. }
  2: { split; discriminate. }
  match goal with
  | |- context [find_detour_pos ?a ?d ?w (PyBlock ?b) ?l] =>
      destruct (find_detour_pos_no_slot a d w b l) as [-> | ->]
  end; cbn [mbind result_bind py_hex]; split; discriminate.
Qed.

(** C2. On the sample block [mov eax, 1; ret] at [0x8048100], whose two
    instructions are movable, the specified rule selects the slot
    [0x8048100] (offset 0), but [insert_detour] raises a type error. *)
Theorem insert_detour_type_error :
  map (check_if_movable Sample.env) (Sample.decompile Sample.block1 0x8048100)
  = [Ok true; Ok true] /\
  specified_slot 0x8048100 0x8048100 (0x8048100 + 6) = Some 0x8048100 /\
  insert_detour Sample.env 1 sample_patcher 0x8048100 "inc ebx" = Raise TypeError.
Proof. vm_compute. repeat split; reflexivity. Qed.


(** C3. With one [AddCodePatch] and one [InsertCodePatch] registered on
    the sample image, the code-segment header is written when the added
    code is one byte long, before any detour is processed; the detour
    loop then fails (see C2).  Run from the slot the rule selects, the
    detour appends an eight-byte stub to the added code and leaves the
    header at [filesz = memsz = 1].  The count at [0x2c] goes from 1 to 3. *)
Theorem headers_written_before_detours :
  let p := insert_into_block 0x8048100 "inc ebx" None
             (add_code "nop" None sample_patcher) in
  let ph := unwrap (compile_until_headers Sample.env p) in
  let block := factory_block Sample.env 0x8048100 None in
  let movable := Sample.decompile Sample.block1 0x8048100 in
  let p' := unwrap (detour_at Sample.env 1 ph 0x8048100 "inc ebx" 0x8048100
                      block movable 0x8048100 5) in
  compile_until_headers Sample.env p = Ok ph /\
  added_code ph = [x90] /\
  code_header_filesz ph = Some 1 /\ code_header_memsz ph = Some 1 /\
  compile_patches Sample.env 1 p = Raise TypeError /\
  detour_at Sample.env 1 ph 0x8048100 "inc ebx" 0x8048100 block movable
            0x8048100 5 = Ok p' /\
  Py.len (added_code p') = 9 /\
  code_header_filesz p' = Some 1 /\ code_header_memsz p' = Some 1 /\
  Struct.unpack_H (Py.slice (ncontent sample_patcher) 0x2c 0x2e) = Ok 1 /\
  Struct.unpack_H (Py.slice (ncontent ph) 0x2c 0x2e) = Ok 3.
Proof. vm_compute. repeat split; reflexivity. Qed.

(** * Further properties *)

(** ** Little-endian words *)

Lemma Z_of_byte_range (b : byte) : 0 <= Z_of_byte b < 256.
Proof.
  unfold Z_of_byte. pose proof (Byte.to_N_bounded b). lia.
Qed.

Lemma byte_of_Z_of_byte (b : byte) (v : Z) : byte_of_Z (Z_of_byte b + 256 * v) = b.
Proof.
  unfold byte_of_Z. pose proof (Z_of_byte_range b).
  replace ((Z_of_byte b + 256 * v) mod 256) with (Z_of_byte b).
  - unfold Z_of_byte. rewrite N2Z.id, Byte.of_to_N. done.
  - apply (Z.mod_unique_pos _ 256 v); lia.
Qed.

Lemma Z_of_byte_of_Z (z : Z) : Z_of_byte (byte_of_Z z) = z mod 256.
Proof.
  unfold byte_of_Z, Z_of_byte. pose proof (Z.mod_pos_bound z 256).
  destruct (Byte.of_N (Z.to_N (z mod 256))) as [b|] eqn:Hb.
  - apply Byte.to_of_N in Hb. rewrite Hb. lia.
  - apply Byte.of_N_None_iff in Hb. lia.
Qed.

Lemma le_value_range (bs : bytes) : 0 <= Struct.le_value bs < 256 ^ Z.of_nat (length bs).
Proof.
  induction bs as [|b bs IH]; [simpl; lia|].
  cbn [Struct.le_value length]. rewrite Nat2Z.inj_succ, Z.pow_succ_r by lia.
  pose proof (Z_of_byte_range b). lia.
Qed.

(** Encoding the value of a byte string gives the string back. *)
Lemma le_bytes_le_value (bs : bytes) :
  Struct.le_bytes (length bs) (Struct.le_value bs) = bs.
Proof.
  induction bs as [|b bs IH]; [done|].
  cbn [Struct.le_value length Struct.le_bytes].
  rewrite byte_of_Z_of_byte. f_equal.
  pose proof (Z_of_byte_range b).
  replace ((Z_of_byte b + 256 * Struct.le_value bs) / 256) with (Struct.le_value bs);
    [done|].
  apply (Z.div_unique_pos _ 256 _ (Z_of_byte b)); lia.
Qed.

(** Decoding the encoding of a value in range gives the value back. *)
Lemma le_value_le_bytes (n : nat) (x : Z) :
  0 <= x < 256 ^ Z.of_nat n -> Struct.le_value (Struct.le_bytes n x) = x.
Proof.
  revert x. induction n as [|n IH]; intros x Hx.
  - simpl in *. lia.
  - cbn [Struct.le_bytes Struct.le_value]. rewrite Z_of_byte_of_Z.
    rewrite Nat2Z.inj_succ, Z.pow_succ_r in Hx by lia.
    rewrite IH.
    + pose proof (Z.div_mod x 256). lia.
    + split; [apply Z.div_pos; lia|]. apply Z.div_lt_upper_bound; lia.
Qed.

Lemma length_le_bytes (n : nat) (x : Z) : length (Struct.le_bytes n x) = n.
Proof. revert x. induction n as [|n IH]; intros x; simpl; [done|]. by rewrite IH. Qed.

Lemma pack_I_Ok (x : Z) (b : bytes) :
  Struct.pack_I x = Ok b -> 0 <= x < 2 ^ 32 /\ b = Struct.le_bytes 4 x.
Proof.
  unfold Struct.pack_I, Struct.pack_uint.
  destruct (Z.leb_spec 0 x), (Z.ltb_spec x (2 ^ (8 * Z.of_nat 4))); simpl;
    try discriminate.
  intros [= <-]. split; [|done]. change (2 ^ (8 * Z.of_nat 4)) with (2 ^ 32) in *. lia.
Qed.

Lemma pack_I_in_range (x : Z) :
  0 <= x < 2 ^ 32 -> Struct.pack_I x = Ok (Struct.le_bytes 4 x).
Proof.
  intros Hx. unfold Struct.pack_I, Struct.pack_uint.
  change (2 ^ (8 * Z.of_nat 4)) with (2 ^ 32).
  destruct (Z.leb_spec 0 x), (Z.ltb_spec x (2 ^ 32)); simpl; try lia. done.
Qed.

(** Packing the words unpacked from a buffer of [4 * k] bytes gives the
    buffer back. *)
Lemma pack_unpack_words (k : nat) (buf : bytes) :
  length buf = (4 * k)%nat ->
  Struct.pack_Is (Struct.unpack_uints 4 k buf) = Ok buf.
Proof.
  revert buf. induction k as [|k IH]; intros buf Hlen.
  - destruct buf; [done|simpl in Hlen; lia].
  - cbn [Struct.unpack_uints Struct.pack_Is].
    assert (Hw : length (firstn 4 buf) = 4%nat) by (rewrite length_firstn; lia).
    rewrite pack_I_in_range.
    2: { pose proof (le_value_range (firstn 4 buf)) as Hr. rewrite Hw in Hr.
         change (256 ^ Z.of_nat 4) with (2 ^ 32) in Hr. done. }
    cbn [mbind result_bind]. rewrite IH by (rewrite length_skipn; lia).
    cbn [mbind result_bind]. f_equal.
    rewrite <- Hw at 1. rewrite le_bytes_le_value. apply firstn_skipn.
Qed.

(** Unpacking the packing of words in range gives the words back. *)
Lemma unpack_pack_words (xs : list Z) (buf : bytes) :
  Struct.pack_Is xs = Ok buf ->
  length buf = (4 * length xs)%nat /\ Struct.unpack_uints 4 (length xs) buf = xs.
Proof.
  revert buf. induction xs as [|x xs IH]; intros buf H; cbn [Struct.pack_Is] in H.
  - injection H as <-. done.
  - inv_bind H. inv_bind H. injection H as <-.
    apply pack_I_Ok in Hv as [Hx ->]. destruct (IH _ Hv0) as [Hlen Hun].
    split.
    + rewrite length_app, length_le_bytes, Hlen. simpl. lia.
    + cbn [length Struct.unpack_uints].
      rewrite take_app_length' by (by rewrite length_le_bytes).
      rewrite drop_app_length' by (by rewrite length_le_bytes).
      rewrite Hun, le_value_le_bytes; [done|].
      change (256 ^ Z.of_nat 4) with (2 ^ 32). done.
Qed.

(** ** More on slices *)

Lemma slice_inb {A : Type} (s : list A) (a b : Z) :
  0 <= a <= b -> b <= Py.len s ->
  Py.slice s a b = take (Z.to_nat b - Z.to_nat a) (drop (Z.to_nat a) s).
Proof.
  intros Hab Hb. unfold Py.slice. rewrite !clip_id by lia. f_equal. lia.
Qed.

Lemma slice_app_l {A : Type} (s t : list A) (x y : Z) :
  0 <= x <= y -> y <= Py.len s -> Py.slice (s ++ t) x y = Py.slice s x y.
Proof.
  intros Hxy Hy. pose proof (len_nonneg t).
  rewrite !slice_inb by (rewrite ?len_app; lia). unfold Py.len in *.
  rewrite drop_app_le by lia. rewrite take_app_le; [done|].
  rewrite length_drop. lia.
Qed.

Lemma slice_app_r {A : Type} (s t : list A) (x y : Z) :
  0 <= x <= y -> y <= Py.len t ->
  Py.slice (s ++ t) (Py.len s + x) (Py.len s + y) = Py.slice t x y.
Proof.
  intros Hxy Hy. pose proof (len_nonneg s).
  rewrite !slice_inb by (rewrite ?len_app; lia). unfold Py.len in *.
  replace (Z.to_nat (Z.of_nat (length s) + x)) with (length s + Z.to_nat x)%nat by lia.
  rewrite drop_app_add. f_equal. lia.
Qed.

Lemma slice_slice {A : Type} (s : list A) (a b x y : Z) :
  0 <= a -> 0 <= x <= y -> a + y <= b -> b <= Py.len s ->
  Py.slice (Py.slice s a b) x y = Py.slice s (a + x) (a + y).
Proof.
  intros Ha Hxy Hy Hb.
  assert (Hl : Py.len (Py.slice s a b) = b - a) by (apply len_slice; lia).
  rewrite (slice_inb (Py.slice s a b)) by lia.
  rewrite (slice_inb s a b), (slice_inb s (a + x) (a + y)) by lia.
  rewrite take_drop_commute, take_take, Nat.min_l by lia.
  rewrite <- take_drop_commute, drop_drop.
  f_equal; [lia|]. f_equal. lia.
Qed.

Lemma slice_to_slice {A : Type} (s : list A) (p : Z) :
  0 <= p -> Py.slice_to s p = Py.slice s 0 p.
Proof.
  intros Hp. unfold Py.slice_to, Py.slice. pose proof (len_nonneg s).
  rewrite (clip_id _ 0) by lia. simpl. f_equal. lia.
Qed.

Lemma slice_from_slice {A : Type} (s : list A) (p : Z) :
  0 <= p <= Py.len s -> Py.slice_from s p = Py.slice s p (Py.len s).
Proof.
  intros Hp. unfold Py.slice_from, Py.slice.
  rewrite !clip_id by lia. rewrite take_ge; [done|].
  rewrite length_drop. unfold Py.len. lia.
Qed.

Lemma take_drop_slice {A : Type} (s : list A) (o w : nat) :
  (o + w <= length s)%nat ->
  take w (drop o s) = Py.slice s (Z.of_nat o) (Z.of_nat o + Z.of_nat w).
Proof.
  intros H. rewrite slice_inb by (unfold Py.len; lia). f_equal; [lia|]. f_equal. lia.
Qed.

(** [str_overwrite] inside the string, as three parts. *)
Lemma str_overwrite_parts (s new : bytes) (p : Z) :
  0 <= p -> p + Py.len new <= Py.len s ->
  Utils.str_overwrite s new (Some p)
  = Py.slice s 0 p ++ new ++ Py.slice s (p + Py.len new) (Py.len s).
Proof.
  intros Hp Hin. pose proof (len_nonneg new). unfold Utils.str_overwrite.
  rewrite slice_to_slice, slice_from_slice by lia. done.
Qed.

(** [str_overwrite] leaves what lies before the written window... *)
Lemma slice_str_overwrite_before (s new : bytes) (p x y : Z) :
  0 <= x <= y -> y <= p -> p + Py.len new <= Py.len s ->
  Py.slice (Utils.str_overwrite s new (Some p)) x y = Py.slice s x y.
Proof.
  intros Hxy Hy Hin. pose proof (len_nonneg new).
  rewrite str_overwrite_parts by lia.
  rewrite slice_app_l by (rewrite ?len_slice; lia).
  replace x with (0 + x) at 2 by lia. replace y with (0 + y) at 2 by lia.
  apply slice_slice; lia.
Qed.

(** ... and what lies after it. *)
Lemma slice_str_overwrite_after (s new : bytes) (p x y : Z) :
  0 <= p -> p + Py.len new <= x -> x <= y -> y <= Py.len s ->
  Py.slice (Utils.str_overwrite s new (Some p)) x y = Py.slice s x y.
Proof.
  intros Hp Hx Hxy Hy. pose proof (len_nonneg new).
  rewrite str_overwrite_parts by lia. rewrite app_assoc.
  set (q := p + Py.len new).
  assert (Hl : Py.len (Py.slice s 0 p ++ new) = q).
  { rewrite len_app, len_slice by lia. unfold q. lia. }
  replace x with (Py.len (Py.slice s 0 p ++ new) + (x - q)) at 1 by lia.
  replace y with (Py.len (Py.slice s 0 p ++ new) + (y - q)) at 1 by lia.
  rewrite slice_app_r by (rewrite ?len_slice; lia).
  rewrite slice_slice by lia. f_equal; lia.
Qed.

(** ** dump_segments *)

Lemma py_assert_true (c : bool) (u : unit) : py_assert c = Ok u -> c = true.
Proof. by destruct c. Qed.

Lemma dump_segment_Ok (content : bytes) (phoff : Z) (segs r : list Segment) (i : Z) :
  dump_segment content phoff (8 * 4) segs i = Ok r <->
  header_ok (header_bytes content phoff i) /\
  r = segs ++ [Struct.unpack_uints 4 8 (header_bytes content phoff i)].
Proof.
  unfold dump_segment, header_ok, header_bytes, Struct.unpack_8I.
  change (8 * 4) with 32.
  destruct (Nat.eqb_spec (length (Py.slice content (phoff + 32 * i) (phoff + 32 * i + 32))) 32)
    as [Hl|Hl]; cbn [mbind result_bind].
  - destruct (existsb _ _); cbn [py_assert mbind result_bind].
    + split; [intros [= <-]; done|]. intros [_ ->]. done.
    + split; [discriminate|]. intros [[_ ?] _]. discriminate.
  - split; [discriminate|]. intros [[? _] _]. done.
Qed.

(** The loop of [dump_segments] succeeds exactly when every header is
    accepted, and then returns the headers unpacked, in order. *)
Lemma dump_loop_Ok (content : bytes) (phoff : Z) (l : list Z) :
  forall acc r,
    foldM (dump_segment content phoff (8 * 4)) l acc = Ok r <->
    Forall (fun i => header_ok (header_bytes content phoff i)) l /\
    r = acc ++ map (fun i => Struct.unpack_uints 4 8 (header_bytes content phoff i)) l.
Proof.
  induction l as [|i l IH]; intros acc r; cbn [foldM map].
  - rewrite app_nil_r. split; [intros [= <-]; done|]. intros [_ ->]. done.
  - split.
    + intros H. inv_bind H. apply dump_segment_Ok in Hv as [Hok ->].
      apply IH in H as [Hall ->]. split; [by constructor|]. by rewrite <- app_assoc.
    + intros [Hall ->]. apply Forall_cons in Hall as [Hok Hall].
      rewrite (proj2 (dump_segment_Ok content phoff acc _ i) (conj Hok eq_refl)).
      cbn [mbind result_bind]. apply IH. split; [done|]. by rewrite <- app_assoc.
Qed.

Lemma unpack_uints_length (n k : nat) (buf : bytes) :
  length (Struct.unpack_uints n k buf) = k.
Proof. revert buf. induction k as [|k IH]; intros buf; simpl; [done|]. by rewrite IH. Qed.

Lemma unpack_uints_range (k : nat) (buf : bytes) :
  Forall (fun w => 0 <= w < 2 ^ 32) (Struct.unpack_uints 4 k buf).
Proof.
  revert buf. induction k as [|k IH]; intros buf; simpl; constructor; [|apply IH].
  pose proof (le_value_range (take 4 buf)) as H.
  assert (256 ^ Z.of_nat (length (take 4 buf)) <= 2 ^ 32); [|lia].
  change (2 ^ 32) with (256 ^ 4). apply Z.pow_le_mono_r; [lia|].
  rewrite length_take. lia.
Qed.

Lemma header_phnum_nonneg (buf : bytes) (h : CgcefHeader) :
  unpack_header buf = Ok h -> 0 <= cgcef_phnum h /\ 0 <= cgcef_phoff h.
Proof.
  unfold unpack_header. destruct (Nat.eqb _ 52); [|discriminate].
  intros [= <-]. simpl. unfold field. split; apply le_value_range.
Qed.

(** A run of [dump_segments], read both ways. *)
Lemma dump_segments_inv (p p' : Patcher) (segs : list Segment) :
  dump_segments p = Ok (segs, p') <->
  exists h,
    unpack_header (Py.slice (ncontent p) 0 52) = Ok h /\
    cgcef_phentsize h = 32 /\ cgcef_phnum h <> 0 /\
    Forall (fun i => header_ok (header_bytes (ncontent p) (cgcef_phoff h) i))
           (Py.range 0 (cgcef_phnum h)) /\
    segs = map (fun i => Struct.unpack_uints 4 8
                           (header_bytes (ncontent p) (cgcef_phoff h) i))
               (Py.range 0 (cgcef_phnum h)) /\
    p' = set_segments (Some segs) p.
Proof.
  unfold dump_segments. change (16 + 2 * 2 + 4 * 5 + 2 * 6) with 52. split.
  - intros H. inv_bind H. rename v into h. inv_bind H. inv_bind H. inv_bind H.
    injection H as <- <-. exists h. split; [exact Hv|].
    apply py_assert_true in Hv0, Hv1.
    apply Z.eqb_eq in Hv1. apply negb_true_iff, Z.eqb_neq in Hv0.
    apply dump_loop_Ok in Hv2 as [Hall ->]. rewrite app_nil_l. done.
  - intros (h & Hh & Hsz & Hnum & Hall & -> & ->). rewrite Hh. cbn [mbind result_bind].
    rewrite (proj2 (Z.eqb_neq _ _) Hnum), (proj2 (Z.eqb_eq _ (8 * 4)) Hsz).
    cbn [negb py_assert mbind result_bind].
    rewrite (proj2 (dump_loop_Ok _ _ _ [] _) (conj Hall eq_refl)). done.
Qed.

(** What [dump_segments] returns: as many segments as the header
    announces (at least one), each made of eight 32-bit words whose first
    is a known type; the patcher only records them. *)
Theorem dump_segments_shape (p p' : Patcher) (segs : list Segment) :
  dump_segments p = Ok (segs, p') ->
  exists h,
    unpack_header (Py.slice (ncontent p) 0 52) = Ok h /\
    cgcef_phentsize h = 32 /\ 0 < cgcef_phnum h /\
    Z.of_nat (length segs) = cgcef_phnum h /\
    Forall (fun seg => length seg = 8%nat /\
                       Forall (fun w => 0 <= w < 2 ^ 32) seg /\
                       In (nth 0 seg 0) pt_types) segs /\
    ncontent p' = ncontent p /\ segments p' = Some segs.
Proof.
  intros H. apply dump_segments_inv in H as (h & Hh & Hsz & Hnum & Hall & -> & ->).
  exists h. split; [exact Hh|]. split; [done|].
  destruct (header_phnum_nonneg _ _ Hh) as [Hn _].
  split; [lia|]. split.
  { rewrite length_map. unfold Py.range. rewrite length_seqZ. lia. }
  split; [|done].
  apply List.Forall_forall. intros seg Hin. apply in_map_iff in Hin as (i & <- & Hi).
  rewrite List.Forall_forall in Hall. destruct (Hall i Hi) as [Hlen Hty].
  split; [apply unpack_uints_length|]. split; [apply unpack_uints_range|].
  apply existsb_exists in Hty as (t & Ht & Heq). apply Z.eqb_eq in Heq. by rewrite Heq.
Qed.

(** ** setup_headers on an image without the marker *)

Lemma concat_adjacent_headers (content : bytes) (o : Z) (n : nat) :
  0 <= o -> o + 32 * Z.of_nat n <= Py.len content ->
  List.concat (map (header_bytes content o) (seqZ 0 (Z.of_nat n)))
  = Py.slice content o (o + 32 * Z.of_nat n).
Proof.
  intros Ho. induction n as [|n IH]; intros Hin.
  - simpl. rewrite Z.add_0_r. unfold Py.slice. by rewrite Z.sub_diag.
  - rewrite seqZ_S, map_app, concat_app, IH by lia. simpl. rewrite app_nil_r.
    unfold header_bytes. rewrite Z.add_0_l.
    replace (o + 32 * Z.of_nat n + 32) with (o + 32 * Z.of_nat (S n)) by lia.
    apply slice_app_adj; lia.
Qed.

Lemma append_segment_Ok (c hdr : bytes) :
  length hdr = 32%nat ->
  append_segment c (Struct.unpack_uints 4 8 hdr) = Ok (c ++ hdr).
Proof.
  intros Hlen. unfold append_segment. rewrite (pack_unpack_words 8) by done.
  cbn [mbind result_bind]. by rewrite str_overwrite_append.
Qed.

Lemma append_segments_Ok (hdrs : list bytes) :
  Forall (fun hdr => length hdr = 32%nat) hdrs ->
  forall c, foldM append_segment (map (Struct.unpack_uints 4 8) hdrs) c
            = Ok (c ++ List.concat hdrs).
Proof.
  induction 1 as [|hdr hdrs Hlen Hall IH]; intros c; cbn [map foldM List.concat].
  - by rewrite app_nil_r.
  - rewrite append_segment_Ok by done.
    cbn [mbind result_bind]. rewrite IH. by rewrite <- app_assoc.
Qed.

Lemma pad_str_app (s : bytes) (a : Z) :
  0 < a ->
  exists pad, Utils.pad_str s a = s ++ pad /\ Py.len (s ++ pad) mod a = 0 /\
              Py.len pad < a.
Proof.
  intros Ha. unfold Utils.pad_str.
  destruct (Z.eqb_spec (Py.len s mod a) 0) as [H0|Hn0].
  - exists []. rewrite app_nil_r. split; [done|]. split; [done|]. simpl. done.
  - exists (repeat x00 (Z.to_nat (a - Py.len s mod a))). split; [done|].
    pose proof (Z.mod_pos_bound (Py.len s) a Ha) as Hb.
    rewrite len_app. unfold Py.len at 2 4. rewrite repeat_length.
    rewrite Z2Nat.id by lia. split; [|lia].
    replace (Py.len s + (a - Py.len s mod a)) with (Py.len s - Py.len s mod a + 1 * a) by lia.
    rewrite Z_mod_plus_full. rewrite Zminus_mod_idemp_r, Z.sub_diag. done.
Qed.

Lemma set_segments_id (q : Patcher) (v : option (list Segment)) :
  segments q = v -> set_segments v q = q.
Proof. destruct q. simpl. by intros ->. Qed.

(** The image that [setup_headers] builds from a file without the
    marker: the file padded to 16 bytes, its [phoff] word replaced by the
    padded length [L], followed by the program-header table copied as the
    bytes it had, and the marker written over offset [0x34]. *)
Lemma setup_headers_unpatched (p p1 : Patcher) :
  Py.slice (ocontent p) 0x34 (0x34 + Py.len patched_tag) <> patched_tag ->
  setup_headers p = Ok p1 ->
  exists h pad,
    unpack_header (Py.slice (ocontent p) 0 52) = Ok h /\
    cgcef_phentsize h = 32 /\ 0 < cgcef_phnum h /\
    Forall (fun i => header_ok (header_bytes (ocontent p) (cgcef_phoff h) i))
           (Py.range 0 (cgcef_phnum h)) /\
    0 <= cgcef_phoff h /\
    cgcef_phoff h + 32 * cgcef_phnum h <= Py.len (ocontent p) /\
    Py.len pad < 16 /\
    Py.len (ocontent p ++ pad) mod 16 = 0 /\
    Py.len (ocontent p ++ pad) < 2 ^ 32 /\
    ocontent p1 = ocontent p /\
    segments p1 = Some (map (fun i => Struct.unpack_uints 4 8
                                        (header_bytes (ocontent p) (cgcef_phoff h) i))
                            (Py.range 0 (cgcef_phnum h))) /\
    original_header_end p1
    = Some (Py.len (ocontent p ++ pad) + 32 * cgcef_phnum h) /\
    ncontent p1 =
      Utils.str_overwrite
        (Utils.str_overwrite (ocontent p ++ pad)
           (Struct.le_bytes 4 (Py.len (ocontent p ++ pad))) (Some 0x1C)
         ++ Py.slice (ocontent p) (cgcef_phoff h) (cgcef_phoff h + 32 * cgcef_phnum h))
        patched_tag (Some 0x34).
Proof.
  intros Htag H. unfold setup_headers in H.
  assert (Hp : is_patched (set_ncontent (ocontent p) p) = false).
  { unfold is_patched. simpl. by apply bool_decide_eq_false. }
  rewrite Hp in H. inv_bind H. destruct v as [segs p0].
  apply dump_segments_inv in Hv as (h & Hh & Hsz & Hnum & Hall & -> & ->).
  cbn [ncontent set_ncontent] in Hh, Hall.
  destruct (header_phnum_nonneg _ _ Hh) as [Hn Hoff].
  inv_bind H. rename v into phoff_bytes. inv_bind H. rename v into content.
  injection H as <-.
  cbn [ncontent set_ncontent set_segments set_original_header_end ocontent segments
       original_header_end] in *.
  destruct (pad_str_app (ocontent p) 16) as (pad & Hpad & Hmod & Hpadlen); [lia|].
  rewrite Hpad in Hv, Hv0.
  apply pack_I_Ok in Hv as [HL ->].
  (* the last header is inside the file, hence the whole table *)
  assert (Hin : cgcef_phoff h + 32 * cgcef_phnum h <= Py.len (ocontent p)).
  { rewrite List.Forall_forall in Hall.
    destruct (Hall (cgcef_phnum h - 1)) as [Hlen _].
    { unfold Py.range. apply list_elem_of_In, elem_of_seqZ. lia. }
    unfold header_bytes in Hlen.
    destruct (len_slice_le (ocontent p) (cgcef_phoff h + 32 * (cgcef_phnum h - 1))
                (cgcef_phoff h + 32 * (cgcef_phnum h - 1) + 32));
      unfold Py.len in *; lia. }
  (* the copied table *)
  assert (Hcopy : content =
            Utils.str_overwrite (ocontent p ++ pad)
              (Struct.le_bytes 4 (Py.len (ocontent p ++ pad))) (Some 28)
            ++ Py.slice (ocontent p) (cgcef_phoff h) (cgcef_phoff h + 32 * cgcef_phnum h)).
  { rewrite <- (map_map (header_bytes (ocontent p) (cgcef_phoff h))
                        (Struct.unpack_uints 4 8)) in Hv0.
    rewrite append_segments_Ok in Hv0.
    - injection Hv0 as <-. f_equal. unfold Py.range. rewrite Z.sub_0_r.
      rewrite <- (Z2Nat.id (cgcef_phnum h)) by lia.
      apply concat_adjacent_headers; lia.
    - apply List.Forall_forall. intros hdr Hhdr.
      apply in_map_iff in Hhdr as (i & <- & Hi).
      rewrite List.Forall_forall in Hall. by destruct (Hall i Hi). }
  exists h, pad. rewrite <- Hcopy.
  assert (Hlen : Py.len content = Py.len (ocontent p ++ pad) + 32 * cgcef_phnum h).
  { assert (H52 : 52 <= Py.len (ocontent p)).
    { unfold unpack_header in Hh.
      destruct (Nat.eqb_spec (length (Py.slice (ocontent p) 0 52)) 52) as [Hl|];
        [|discriminate].
      destruct (len_slice_le (ocontent p) 0 52); unfold Py.len in *; lia. }
    assert (Hw : Py.len (Struct.le_bytes 4 (Py.len (ocontent p ++ pad))) = 4).
    { unfold Py.len at 1. by rewrite length_le_bytes. }
    assert (Hop : Py.len (ocontent p) <= Py.len (ocontent p ++ pad)).
    { rewrite len_app. pose proof (len_nonneg pad). lia. }
    rewrite Hcopy, len_app, len_str_overwrite_inside, len_slice by lia. lia. }
  rewrite Hlen. repeat (split; [done || lia|]). done.
Qed.

Lemma field_slice (c : bytes) (o w : nat) :
  52 <= Py.len c -> (o + w <= 52)%nat ->
  field (Py.slice c 0 52) o w
  = Struct.le_value (Py.slice c (Z.of_nat o) (Z.of_nat o + Z.of_nat w)).
Proof.
  intros Hc Hw. unfold field.
  assert (Hl : Py.len (Py.slice c 0 52) = 52) by (rewrite len_slice; lia).
  rewrite take_drop_slice by (unfold Py.len in Hl; lia).
  rewrite slice_slice by lia. done.
Qed.

(** Where the image built by [setup_headers] agrees with the file. *)
Lemma setup_image_frame (oc pad word tag table : bytes) (x y : Z) :
  Py.len word = 4 -> 52 <= Py.len oc -> 0x34 + Py.len tag <= Py.len (oc ++ pad) ->
  0 <= x <= y -> y <= Py.len oc ->
  y <= 0x1C \/ (0x20 <= x /\ y <= 0x34) \/ 0x34 + Py.len tag <= x ->
  Py.slice (Utils.str_overwrite
              (Utils.str_overwrite (oc ++ pad) word (Some 0x1C) ++ table)
              tag (Some 0x34)) x y
  = Py.slice oc x y.
Proof.
  intros Hw Hoc Htag Hxy Hy Hcase.
  pose proof (len_nonneg pad). pose proof (len_nonneg tag). pose proof (len_nonneg table).
  assert (HL : Py.len (oc ++ pad) = Py.len oc + Py.len pad) by apply len_app.
  assert (HX : Py.len (Utils.str_overwrite (oc ++ pad) word (Some 0x1C))
               = Py.len (oc ++ pad)) by (apply len_str_overwrite_inside; lia).
  assert (Hinner : Py.slice (Utils.str_overwrite (oc ++ pad) word (Some 0x1C)) x y
                   = Py.slice oc x y).
  { destruct (decide (y <= 0x1C)).
    - rewrite slice_str_overwrite_before by lia. apply slice_app_l; lia.
    - rewrite slice_str_overwrite_after by lia. apply slice_app_l; lia. }
  destruct (decide (y <= 0x34)).
  - rewrite slice_str_overwrite_before by (rewrite ?len_app; lia).
    rewrite slice_app_l by lia. done.
  - rewrite slice_str_overwrite_after by (rewrite ?len_app; lia).
    rewrite slice_app_l by lia. done.
Qed.

(** The header setup keeps the bytes of the file, except the [phoff]
    word at [0x1C] and the eleven bytes under the marker at [0x34]. *)
Theorem setup_headers_keeps_file (p p1 : Patcher) (x y : Z) :
  Py.slice (ocontent p) 0x34 (0x34 + Py.len patched_tag) <> patched_tag ->
  setup_headers p = Ok p1 ->
  0 <= x <= y -> y <= Py.len (ocontent p) ->
  y <= 0x1C \/ (0x20 <= x /\ y <= 0x34) \/ 0x3F <= x ->
  Py.slice (ncontent p1) x y = Py.slice (ocontent p) x y.
Proof.
  intros Htag Hrun Hxy Hy Hcase.
  destruct (setup_headers_unpatched p p1 Htag Hrun)
    as (h & pad & Hh & _ & _ & _ & _ & _ & _ & Hmod & _ & _ & _ & _ & ->).
  assert (H52 : 52 <= Py.len (ocontent p)).
  { unfold unpack_header in Hh.
    destruct (Nat.eqb_spec (length (Py.slice (ocontent p) 0 52)) 52) as [Hl|];
      [|discriminate].
    destruct (len_slice_le (ocontent p) 0 52); unfold Py.len in *; lia. }
  assert (HL : 64 <= Py.len (ocontent p ++ pad)).
  { assert (Hge : 52 <= Py.len (ocontent p ++ pad)).
    { rewrite len_app. pose proof (len_nonneg pad). lia. }
    revert Hge Hmod. generalize (Py.len (ocontent p ++ pad)). intros L Hge HL.
    Z.to_euclidean_division_equations. lia. }
  apply setup_image_frame; try done; change (Py.len patched_tag) with 11; lia.
Qed.

Lemma setup_headers_keeps_file_witness :
  let p := mkPatcher Sample.image [] None None [] ∅ [] [] 0 0 0 None None in
  let p1 := unwrap (setup_headers p) in
  Py.slice (ncontent p1) 0x100 0x106 = Py.slice Sample.image 0x100 0x106.
Proof.
  intros p p1.
  apply (setup_headers_keeps_file p p1 0x100 0x106).
  - vm_compute. discriminate.
  - vm_compute. reflexivity.
  - lia.
  - vm_compute. discriminate.
  - right. right. lia.
Defined.

(** After the header setup of a file without the marker, the [phoff]
    word holds the 16-aligned length [L] of the padded file, the table
    found there is the original table byte for byte, the image ends
    with it at [original_header_end], and parsing the new image with
    [dump_segments] returns the segments of the original file. *)
Theorem setup_headers_relocates (p p1 : Patcher) :
  Py.slice (ocontent p) 0x34 (0x34 + Py.len patched_tag) <> patched_tag ->
  setup_headers p = Ok p1 ->
  exists h segs L,
    unpack_header (Py.slice (ocontent p) 0 52) = Ok h /\
    segments p1 = Some segs /\
    Py.len (ocontent p) <= L < Py.len (ocontent p) + 16 /\ L mod 16 = 0 /\
    Struct.le_value (Py.slice (ncontent p1) 0x1C 0x20) = L /\
    Py.slice (ncontent p1) L (L + 32 * cgcef_phnum h)
    = Py.slice (ocontent p) (cgcef_phoff h) (cgcef_phoff h + 32 * cgcef_phnum h) /\
    original_header_end p1 = Some (L + 32 * cgcef_phnum h) /\
    Py.len (ncontent p1) = L + 32 * cgcef_phnum h /\
    dump_segments p1 = Ok (segs, p1).
Proof.
  intros Htag Hrun.
  destruct (setup_headers_unpatched p p1 Htag Hrun)
    as (h & pad & Hh & Hsz & Hnum & Hall & Hoff & Hin & Hpad & Hmod & HL32 & Hoc
        & Hsegs & Hend & Hnc).
  set (L := Py.len (ocontent p ++ pad)) in *.
  set (n := cgcef_phnum h) in *. set (o := cgcef_phoff h) in *.
  set (word := Struct.le_bytes 4 L) in *.
  set (X := Utils.str_overwrite (ocontent p ++ pad) word (Some 0x1C)) in *.
  set (T := Py.slice (ocontent p) o (o + 32 * n)) in *.
  pose proof (len_nonneg pad) as Hpad0.
  assert (H52 : 52 <= Py.len (ocontent p)).
  { unfold unpack_header in Hh.
    destruct (Nat.eqb_spec (length (Py.slice (ocontent p) 0 52)) 52) as [Hl|];
      [|discriminate].
    destruct (len_slice_le (ocontent p) 0 52); unfold Py.len in *; lia. }
  assert (HLoc : L = Py.len (ocontent p) + Py.len pad) by apply len_app.
  assert (HL : 64 <= L).
  { clearbody L. clear -H52 Hmod HLoc Hpad0. Z.to_euclidean_division_equations. lia. }
  assert (Hword : Py.len word = 4).
  { unfold Py.len, word. by rewrite length_le_bytes. }
  assert (HX : Py.len X = L) by (apply len_str_overwrite_inside; lia).
  assert (HT : Py.len T = 32 * n) by (unfold T; rewrite len_slice; lia).
  assert (Htaglen : Py.len patched_tag = 11) by reflexivity.
  assert (Hlen1 : Py.len (ncontent p1) = L + 32 * n).
  { rewrite Hnc, len_str_overwrite_inside; rewrite ?len_app; lia. }
  (* the headers of the new table are those of the old one *)
  assert (Hhdr : forall i, 0 <= i < n ->
            header_bytes (ncontent p1) L i = header_bytes (ocontent p) o i).
  { intros i Hi. unfold header_bytes. rewrite Hnc.
    rewrite slice_str_overwrite_after by (rewrite ?len_app; lia).
    rewrite <- HX.
    replace (Py.len X + 32 * i + 32) with (Py.len X + (32 * i + 32)) by lia.
    rewrite slice_app_r by lia. unfold T. rewrite slice_slice by lia.
    f_equal; lia. }
  (* the words of the new header that dump_segments reads *)
  assert (Hfield : forall k w : nat, (k + w <= 52)%nat ->
            (k + w <= 28)%nat \/ (32 <= k)%nat ->
            field (Py.slice (ncontent p1) 0 52) k w
            = field (Py.slice (ocontent p) 0 52) k w).
  { intros k w Hkw Hcase. rewrite !field_slice by lia. f_equal.
    rewrite Hnc. apply setup_image_frame; lia. }
  assert (Hphoff : field (Py.slice (ncontent p1) 0 52) 28 4 = L).
  { rewrite field_slice by lia. rewrite Hnc.
    rewrite slice_str_overwrite_before by (rewrite ?len_app; lia).
    rewrite slice_app_l by lia.
    change (Z.of_nat 28 + Z.of_nat 4) with (28 + 4). rewrite <- Hword.
    unfold X. rewrite slice_str_overwrite by lia.
    unfold word. apply le_value_le_bytes. change (256 ^ Z.of_nat 4) with (2 ^ 32). lia. }
  assert (Hh1 : exists h1, unpack_header (Py.slice (ncontent p1) 0 52) = Ok h1 /\
                  cgcef_phentsize h1 = 32 /\ cgcef_phnum h1 = n /\ cgcef_phoff h1 = L).
  { unfold unpack_header in *.
    assert (Hl1 : length (Py.slice (ncontent p1) 0 52) = 52%nat).
    { pose proof (len_slice (ncontent p1) 0 52). unfold Py.len in *. lia. }
    rewrite Hl1. cbn [Nat.eqb]. eexists. split; [reflexivity|].
    destruct (Nat.eqb_spec (length (Py.slice (ocontent p) 0 52)) 52); [|discriminate].
    injection Hh as Hh. cbn [cgcef_phentsize cgcef_phnum cgcef_phoff].
    rewrite (Hfield 42 2)%nat, (Hfield 44 2)%nat by lia.
    unfold n. rewrite <- Hh in Hsz |- *. cbn [cgcef_phentsize cgcef_phnum] in *.
    done. }
  destruct Hh1 as (h1 & Hh1 & Hsz1 & Hnum1 & Hoff1).
  exists h, (map (fun i => Struct.unpack_uints 4 8 (header_bytes (ocontent p) o i))
                 (Py.range 0 n)), L.
  split; [done|]. split; [done|]. split; [lia|]. split; [done|]. split.
  { rewrite <- Hphoff. rewrite field_slice by lia. done. }
  split.
  { rewrite Hnc. rewrite slice_str_overwrite_after by (rewrite ?len_app; lia).
    rewrite <- HX at 1 2. replace (Py.len X) with (Py.len X + 0) at 1 by lia.
    fold n o. fold T. rewrite slice_app_r by lia. rewrite <- HT. apply slice_full. }
  split; [done|]. split; [done|].
  apply dump_segments_inv. exists h1. rewrite Hnum1, Hoff1.
  split; [done|]. split; [done|]. split; [lia|].
  assert (Hrange : forall i, In i (Py.range 0 n) -> 0 <= i < n).
  { intros i Hi. apply list_elem_of_In, elem_of_seqZ in Hi. lia. }
  split; [|split].
  - apply List.Forall_forall. intros i Hi. rewrite Hhdr by auto.
    rewrite List.Forall_forall in Hall. by apply Hall.
  - apply map_ext_in. intros i Hi. by rewrite Hhdr by auto.
  - symmetry. by apply set_segments_id.
Qed.

Lemma setup_headers_relocates_witness :
  let p := mkPatcher Sample.image [] None None [] ∅ [] [] 0 0 0 None None in
  let p1 := unwrap (setup_headers p) in
  exists h segs L,
    unpack_header (Py.slice (ocontent p) 0 52) = Ok h /\
    segments p1 = Some segs /\
    Py.len (ocontent p) <= L < Py.len (ocontent p) + 16 /\ L mod 16 = 0 /\
    Struct.le_value (Py.slice (ncontent p1) 0x1C 0x20) = L /\
    Py.slice (ncontent p1) L (L + 32 * cgcef_phnum h)
    = Py.slice (ocontent p) (cgcef_phoff h) (cgcef_phoff h + 32 * cgcef_phnum h) /\
    original_header_end p1 = Some (L + 32 * cgcef_phnum h) /\
    Py.len (ncontent p1) = L + 32 * cgcef_phnum h /\
    dump_segments p1 = Ok (segs, p1).
Proof.
  intros p p1. apply (setup_headers_relocates p p1).
  - vm_compute. discriminate.
  - vm_compute. reflexivity.
Defined.

Lemma dump_segments_shape_witness :
  let p := mkPatcher Sample.image Sample.image None None [] ∅ [] [] 0 0 0 None None in
  exists h,
    unpack_header (Py.slice (ncontent p) 0 52) = Ok h /\
    cgcef_phentsize h = 32 /\ 0 < cgcef_phnum h /\
    Z.of_nat (length [[1; 0; 0x8048000; 0x8048000; 0x140; 0x140; 5; 0x1000]])
    = cgcef_phnum h /\
    Forall (fun seg => length seg = 8%nat /\
                       Forall (fun w => 0 <= w < 2 ^ 32) seg /\
                       In (nth 0 seg 0) pt_types)
           [[1; 0; 0x8048000; 0x8048000; 0x140; 0x140; 5; 0x1000]] /\
    ncontent (set_segments
                (Some [[1; 0; 0x8048000; 0x8048000; 0x140; 0x140; 5; 0x1000]]) p)
    = ncontent p /\
    segments (set_segments
                (Some [[1; 0; 0x8048000; 0x8048000; 0x140; 0x140; 5; 0x1000]]) p)
    = Some [[1; 0; 0x8048000; 0x8048000; 0x140; 0x140; 5; 0x1000]].
Proof.
  intros p. apply (dump_segments_shape p). vm_compute. reflexivity.
Defined.

(** ** set_added_segment_headers *)

Lemma pack_H_Ok (x : Z) (b : bytes) :
  Struct.pack_H x = Ok b -> 0 <= x < 2 ^ 16 /\ b = Struct.le_bytes 2 x.
Proof.
  unfold Struct.pack_H, Struct.pack_uint.
  destruct (Z.leb_spec 0 x), (Z.ltb_spec x (2 ^ (8 * Z.of_nat 2))); simpl;
    try discriminate.
  intros [= <-]. split; [|done]. change (2 ^ (8 * Z.of_nat 2)) with (2 ^ 16) in *. lia.
Qed.

Lemma unpack_8I_pack (xs : list Z) (buf : bytes) :
  length xs = 8%nat -> Struct.pack_Is xs = Ok buf ->
  Py.len buf = 32 /\ Struct.unpack_8I buf = Ok xs.
Proof.
  intros Hxs Hpack. destruct (unpack_pack_words xs buf Hpack) as [Hlen Hun].
  rewrite Hxs in Hlen, Hun. split; [unfold Py.len; lia|].
  unfold Struct.unpack_8I. rewrite Hlen. simpl Nat.eqb. cbv iota. by rewrite Hun.
Qed.

(** An overwrite at a position inside the buffer, which may run past its
    end, leaves what is before the position. *)
Lemma slice_str_overwrite_left (s new : bytes) (p x y : Z) :
  0 <= x <= y -> y <= p -> p <= Py.len s ->
  Py.slice (Utils.str_overwrite s new (Some p)) x y = Py.slice s x y.
Proof.
  intros Hxy Hy Hp. unfold Utils.str_overwrite.
  assert (Hto : Py.slice_to s p = Py.slice s 0 p).
  { rewrite slice_to_slice by lia. done. }
  rewrite Hto. rewrite slice_app_l by (rewrite ?len_slice; lia).
  replace x with (0 + x) at 2 by lia. replace y with (0 + y) at 2 by lia.
  apply slice_slice; lia.
Qed.

Lemma len_str_overwrite_max (s new : bytes) (p : Z) :
  0 <= p <= Py.len s ->
  Py.len (Utils.str_overwrite s new (Some p)) = Z.max (Py.len s) (p + Py.len new).
Proof.
  intros Hp. rewrite len_str_overwrite by lia. pose proof (len_nonneg new). lia.
Qed.

(** What [set_added_segment_headers] leaves in the image, for a patcher
    whose [original_header_end] [e] lies behind the count at [0x2c] and
    not behind the end of the image, as [setup_headers] leaves it (there
    [e] is the end of the image) and as [compile_patches] finds it (there
    the image has been extended beyond [e + 64]).  When it returns, the
    two file cursors were set and the count was readable; the two program
    headers read back as the tuples it packed (code first, with flags 5,
    then data, with flags 6); the count at [0x2c] is greater by two; the
    image is as long as before or ends at [e + 64], whichever is longer;
    and every other byte of the old image is as before. *)
Theorem set_added_segment_headers_readback (p p' : Patcher) (e : Z) :
  original_header_end p = Some e -> 0x2e <= e <= Py.len (ncontent p) ->
  set_added_segment_headers p = Ok p' ->
  exists cs ds n,
    added_code_file_start p = Some cs /\ added_data_file_start p = Some ds /\
    Struct.unpack_H (Py.slice (ncontent p) 0x2c 0x2e) = Ok n /\
    Struct.unpack_8I (Py.slice (ncontent p') e (e + 32))
    = Ok [1; cs; added_code_segment; 0; Py.len (added_code p);
          Py.len (added_code p); 5; 0] /\
    Struct.unpack_8I (Py.slice (ncontent p') (e + 32) (e + 64))
    = Ok [1; ds; added_data_segment; 0; Py.len (added_data p);
          Py.len (added_data p); 6; 0] /\
    Struct.unpack_H (Py.slice (ncontent p') 0x2c 0x2e) = Ok (n + 2) /\
    Py.len (ncontent p') = Z.max (Py.len (ncontent p)) (e + 64) /\
    forall x y, 0 <= x <= y -> y <= Py.len (ncontent p) ->
                y <= 0x2c \/ (0x2e <= x /\ y <= e) \/ e + 64 <= x ->
                Py.slice (ncontent p') x y = Py.slice (ncontent p) x y.
Proof.
  intros He [Hlow Hfit] H. unfold set_added_segment_headers in H.
  inv_bind H. rewrite He in H.
  destruct (added_code_file_start p) as [cs|] eqn:Hcs;
    cbn [segment_header mbind result_bind] in H; [|discriminate H].
  inv_bind H. rename v0 into code. cbn [ncontent set_ncontent original_header_end] in H.
  destruct (added_data_file_start p) as [ds|] eqn:Hds;
    cbn [segment_header mbind result_bind] in H; [|discriminate H].
  inv_bind H. rename v0 into data. inv_bind H. rename v0 into pos.
  rewrite He in Hv2. injection Hv2 as <-.
  inv_bind H. rename v0 into n. inv_bind H.
  rename v0 into count. injection H as <-. cbn [ncontent set_ncontent].
  apply unpack_8I_pack in Hv0 as [Hcl Hcode]; [|done].
  apply unpack_8I_pack in Hv1 as [Hdl Hdata]; [|done].
  apply pack_H_Ok in Hv3 as [Hrange ->].
  set (c := ncontent p) in *.
  set (c1 := Utils.str_overwrite c code (Some e)) in *.
  set (c2 := Utils.str_overwrite c1 data (Some (e + 32))) in *.
  assert (Hc1 : Py.len c1 = Z.max (Py.len c) (e + 32)).
  { unfold c1. rewrite len_str_overwrite_max by lia. lia. }
  assert (Hc2 : Py.len c2 = Z.max (Py.len c) (e + 64)).
  { unfold c2. rewrite len_str_overwrite_max by lia. lia. }
  assert (Hcount : Py.len (Struct.le_bytes 2 (n + 2)) = 2).
  { unfold Py.len. by rewrite length_le_bytes. }
  (* the count is read after the two headers are written, from bytes they left alone *)
  assert (Hs : Py.slice c2 0x2c (0x2c + 2) = Py.slice c 0x2c 0x2e).
  { unfold c2. rewrite slice_str_overwrite_left by lia.
    unfold c1. rewrite slice_str_overwrite_left by lia. done. }
  rewrite Hs in Hv2.
  exists cs, ds, n. split; [done|]. split; [done|]. split; [done|].
  split; [|split; [|split; [|split]]].
  - rewrite slice_str_overwrite_after by lia.
    unfold c2. rewrite slice_str_overwrite_left by lia.
    unfold c1. rewrite <- Hcl. rewrite slice_str_overwrite by lia. done.
  - rewrite slice_str_overwrite_after by lia.
    unfold c2. replace (e + 64) with (e + 32 + Py.len data) by lia.
    rewrite slice_str_overwrite by lia. done.
  - change 0x2e with (0x2c + 2). rewrite <- Hcount at 1.
    rewrite slice_str_overwrite by lia.
    unfold Struct.unpack_H. rewrite length_le_bytes. simpl Nat.eqb. cbv iota.
    rewrite le_value_le_bytes; [done|]. change (256 ^ Z.of_nat 2) with (2 ^ 16). lia.
  - rewrite len_str_overwrite_inside by lia. lia.
  - intros x y Hxy Hy Hcase.
    assert (H12 : Py.slice c2 x y = Py.slice c x y).
    { unfold c2. destruct (decide (y <= e)).
      - rewrite slice_str_overwrite_left by lia.
        unfold c1. rewrite slice_str_overwrite_left by lia. done.
      - rewrite slice_str_overwrite_after by lia.
        unfold c1. rewrite slice_str_overwrite_after by lia. done. }
    rewrite <- H12. destruct (decide (y <= 0x2c)).
    + rewrite slice_str_overwrite_left by lia. done.
    + rewrite slice_str_overwrite_after by lia. done.
Qed.

(** The state in which [compile_patches] calls it on the sample project
    with two bytes of data and one instruction added. *)
Lemma set_added_segment_headers_readback_witness :
  let p := unwrap (compile_add_code Sample.env
                     (compile_add_data
                        (compile_begin
                           (add_data [x01; x02] None
                              (add_code "nop" None sample_patcher))))) in
  let p' := unwrap (set_added_segment_headers p) in
  exists cs ds n,
    added_code_file_start p = Some cs /\ added_data_file_start p = Some ds /\
    Struct.unpack_H (Py.slice (ncontent p) 0x2c 0x2e) = Ok n /\
    Struct.unpack_8I (Py.slice (ncontent p') 352 (352 + 32))
    = Ok [1; cs; added_code_segment; 0; Py.len (added_code p);
          Py.len (added_code p); 5; 0] /\
    Struct.unpack_8I (Py.slice (ncontent p') (352 + 32) (352 + 64))
    = Ok [1; ds; added_data_segment; 0; Py.len (added_data p);
          Py.len (added_data p); 6; 0] /\
    Struct.unpack_H (Py.slice (ncontent p') 0x2c 0x2e) = Ok (n + 2) /\
    Py.len (ncontent p') = Z.max (Py.len (ncontent p)) (352 + 64) /\
    forall x y, 0 <= x <= y -> y <= Py.len (ncontent p) ->
                y <= 0x2c \/ (0x2e <= x /\ y <= 352) \/ 352 + 64 <= x ->
                Py.slice (ncontent p') x y = Py.slice (ncontent p) x y.
Proof.
  intros p p'.
  apply (set_added_segment_headers_readback p p' 352).
  - vm_compute. reflexivity.
  - split; vm_compute; discriminate.
  - vm_compute. reflexivity.
Defined.

(** Called on the patcher as it is opened, with the two file cursors set
    by hand, the headers are appended: the image grows from 352 to 416
    bytes. *)
Example headers_appended_at_the_end :
  let p := set_added_data_file_start (Some 0x1000)
             (set_added_code_file_start (Some 0x2000) sample_patcher) in
  let p' := unwrap (set_added_segment_headers p) in
  set_added_segment_headers p = Ok p' /\
  original_header_end p = Some 352 /\ Py.len (ncontent p) = 352 /\
  Py.len (ncontent p') = 416 /\
  Struct.unpack_8I (Py.slice (ncontent p') 352 (352 + 32))
  = Ok [1; 0x2000; added_code_segment; 0; 0; 0; 5; 0] /\
  Struct.unpack_H (Py.slice (ncontent p') 0x2c 0x2e) = Ok 3.
Proof. vm_compute. repeat split; reflexivity. Qed.

(** ** The pipeline as a whole *)

Lemma set_added_segment_headers_keeps (p p' : Patcher) :
  set_added_segment_headers p = Ok p' ->
  patches p' = patches p /\ name_map p' = name_map p /\
  added_code p' = added_code p /\ added_data p' = added_data p /\
  ocontent p' = ocontent p.
Proof.
  unfold set_added_segment_headers. intros H.
  inv_bind H. inv_bind H. inv_bind H. inv_bind H. inv_bind H. inv_bind H.
  inv_bind H. inv_bind H. injection H as <-. done.
Qed.

Lemma compile_inline_patches (E : Env) (p p' : Patcher) :
  compile_inline E p = Ok p' -> patches p' = patches p.
Proof.
  unfold compile_inline. intros H.
  eapply (foldM_invariant (inline_step E) (fun s => patches s = patches p));
    [|exact H|done].
  intros s x s' Hx Hs. apply inline_step_keeps in Hx as [_ Hx]. congruence.
Qed.

Lemma compile_until_headers_patches (E : Env) (p p' : Patcher) :
  compile_until_headers E p = Ok p' -> patches p' = patches p.
Proof.
  unfold compile_until_headers. intros H. inv_bind H. inv_bind H.
  apply set_added_segment_headers_keeps in H as [H _].
  apply compile_inline_patches in Hv0. apply compile_add_code_patches in Hv.
  rewrite compile_add_data_patches in Hv. congruence.
Qed.

Lemma compile_detours_stuck (E : Env) (fuel : nat) (a : Z) (c : string)
    (n : option string) (l : list Patch) :
  In (InsertCodePatch a c n) l ->
  forall p p', foldM (detour_step E fuel) l p <> Ok p'.
Proof.
  induction l as [|x l IH]; intros Hin p p'; [destruct Hin|].
  simpl. destruct (detour_step E fuel p x) as [q|e|] eqn:Hstep; simpl;
    try discriminate.
  destruct Hin as [->|Hin]; [|by apply IH].
  simpl in Hstep. by apply insert_detour_never_completes in Hstep.
Qed.

(** A project that holds an [InsertCodePatch] is never compiled:
    whatever the collaborators answer and however long the translation
    loop may run, [compile_patches] does not return. *)
Theorem compile_patches_with_detour_fails (E : Env) (fuel : nat) (p : Patcher)
    (a : Z) (c : string) (n : option string) :
  In (InsertCodePatch a c n) (patches p) ->
  forall p', compile_patches E fuel p <> Ok p'.
Proof.
  intros Hin p'. unfold compile_patches.
  destruct (compile_until_headers E p) as [q|e|] eqn:Hq; cbn [mbind result_bind];
    try discriminate.
  apply compile_until_headers_patches in Hq. rewrite <- Hq in Hin.
  unfold compile_detours.
  exact (compile_detours_stuck E fuel a c n (patches q) Hin q p').
Qed.

Lemma compile_patches_with_detour_fails_witness :
  In (InsertCodePatch 0x8048100 "inc ebx" None)
     (patches (insert_into_block 0x8048100 "inc ebx" None sample_patcher)) /\
  forall p', compile_patches Sample.env 1
               (insert_into_block 0x8048100 "inc ebx" None sample_patcher) <> Ok p'.
Proof.
  assert (Hin : In (InsertCodePatch 0x8048100 "inc ebx" None)
                   (patches (insert_into_block 0x8048100 "inc ebx" None
                               sample_patcher)))
    by (vm_compute; left; reflexivity).
  split; [exact Hin|].
  exact (compile_patches_with_detour_fails Sample.env 1 _ 0x8048100 "inc ebx" None Hin).
Defined.

(** ** Writing to and reading from mapped memory *)

Lemma In_range (a b x : Z) : In x (Py.range a b) <-> a <= x < b.
Proof.
  unfold Py.range. rewrite <- list_elem_of_In, elem_of_seqZ. lia.
Qed.

Lemma NoDup_range (a b : Z) : List.NoDup (Py.range a b).
Proof. unfold Py.range. apply NoDup_ListNoDup, NoDup_seqZ. Qed.

Lemma read_loop_concat (c : bytes) (rs : list (Z * Z)) (acc : bytes) :
  fold_left (fun mem r => mem ++ Py.slice c (fst r) (snd r)) rs acc
  = acc ++ List.concat (map (fun r => Py.slice c (fst r) (snd r)) rs).
Proof.
  revert acc. induction rs as [|r rs IH]; intros acc; simpl.
  - by rewrite app_nil_r.
  - rewrite IH. by rewrite <- app_assoc.
Qed.

Lemma write_chunks_cons (c : bytes) (r : Z * Z) (rs : list (Z * Z)) (d : bytes)
    (ds : list bytes) :
  write_chunks c (r :: rs) (d :: ds)
  = write_chunks (Utils.str_overwrite c d (Some (fst r))) rs ds.
Proof. reflexivity. Qed.

(** Chunks written at ranges that lie inside the buffer and off the
    window [[x, y)] leave the window and the length as they were. *)
Lemma write_chunks_frame (x y : Z) (rs : list (Z * Z)) :
  forall (ds : list bytes) (c : bytes),
    0 <= x <= y -> y <= Py.len c ->
    Forall (fun r => 0 <= fst r /\ snd r <= Py.len c /\
                     (snd r <= x \/ y <= fst r)) rs ->
    map Py.len ds = map (fun r => snd r - fst r) rs ->
    Py.len (write_chunks c rs ds) = Py.len c /\
    Py.slice (write_chunks c rs ds) x y = Py.slice c x y.
Proof.
  induction rs as [|[s e] rs IH]; intros ds c Hxy Hy Hrs Hds.
  - destruct ds; [done|discriminate].
  - destruct ds as [|d ds]; [discriminate|]. injection Hds as Hd Hds.
    apply Forall_cons in Hrs as [(Hs & He & Hoff) Hrs]. simpl in Hs, He, Hoff, Hd.
    rewrite write_chunks_cons. cbn [fst].
    assert (Hlen : Py.len (Utils.str_overwrite c d (Some s)) = Py.len c)
      by (apply len_str_overwrite_inside; lia).
    destruct (IH ds (Utils.str_overwrite c d (Some s))) as [Hl Hsl];
      [done|lia| |done|].
    { eapply Forall_impl; [exact Hrs|]. intros r Hr. simpl in *. lia. }
    split; [lia|]. rewrite Hsl. destruct Hoff.
    + apply slice_str_overwrite_after; lia.
    + apply slice_str_overwrite_before; lia.
Qed.

(** Ranges that are non-empty, inside the buffer and pairwise apart:
    what is written at each of them is what is read there afterwards. *)
Lemma write_chunks_read (rs : list (Z * Z)) :
  forall (ds : list bytes) (c : bytes),
    Forall (fun r => 0 <= fst r < snd r /\ snd r <= Py.len c) rs ->
    List.NoDup (covered rs) ->
    map Py.len ds = map (fun r => snd r - fst r) rs ->
    Py.len (write_chunks c rs ds) = Py.len c /\
    map (fun r => Py.slice (write_chunks c rs ds) (fst r) (snd r)) rs = ds.
Proof.
  induction rs as [|[s e] rs IH]; intros ds c Hrs Hnd Hds.
  - destruct ds; [done|discriminate].
  - destruct ds as [|d ds]; [discriminate|]. injection Hds as Hd Hds.
    apply Forall_cons in Hrs as [(Hs & He) Hrs]. simpl in Hs, He, Hd.
    rewrite write_chunks_cons. cbn [fst map snd].
    set (c' := Utils.str_overwrite c d (Some s)).
    assert (Hlen : Py.len c' = Py.len c)
      by (apply len_str_overwrite_inside; lia).
    unfold covered in Hnd. simpl in Hnd. fold (covered rs) in Hnd.
    apply List.NoDup_app_remove_l in Hnd as Hnd'.
    destruct (IH ds c') as [Hl Hmap]; [|done|done|].
    { eapply Forall_impl; [exact Hrs|]. intros r Hr. simpl in *. lia. }
    split; [lia|]. f_equal; [|done].
    (* the ranges written later are off [[s, e)] *)
    assert (Hoff : Forall (fun r => 0 <= fst r /\ snd r <= Py.len c' /\
                                    (snd r <= s \/ e <= fst r)) rs).
    { apply List.Forall_forall. intros r Hr.
      rewrite List.Forall_forall in Hrs. destruct (Hrs r Hr) as (Hr1 & Hr2).
      split; [lia|]. split; [lia|].
      destruct (decide (snd r <= s)) as [|Hn1]; [by left|].
      destruct (decide (e <= fst r)) as [|Hn2]; [by right|]. exfalso.
      (* a common offset of the two ranges *)
      set (o := Z.max s (fst r)).
      assert (H1 : In o (Py.range s e)) by (apply In_range; lia).
      assert (H2 : In o (covered rs)).
      { unfold covered. apply in_flat_map. exists r. split; [done|].
        apply In_range. lia. }
      revert Hnd. clear -H1 H2. intros Hnd.
      induction (Py.range s e) as [|z l IHl]; [destruct H1|].
      simpl in Hnd. apply List.NoDup_cons_iff in Hnd as [Hz Hnd].
      destruct H1 as [->|H1]; [|by apply IHl].
      apply Hz. apply in_or_app. by right. }
    destruct (write_chunks_frame s e rs ds c') as [_ Hsl]; [lia|lia|done|done|].
    rewrite Hsl. unfold c'. replace e with (s + Py.len d) by lia.
    apply slice_str_overwrite. lia.
Qed.

Lemma NoDup_map_in {A B : Type} (f : A -> B) (l : list A) :
  (forall x y, In x l -> In y l -> f x = f y -> x = y) ->
  List.NoDup l -> List.NoDup (map f l).
Proof.
  intros Hinj Hnd. induction Hnd as [|x l Hx Hnd IH]; simpl; constructor.
  - intros Hin. apply in_map_iff in Hin as (y & Hy & Hin).
    assert (y = x) by (apply Hinj; [by right|by left|done]). by subst.
  - apply IH. intros a b Ha Hb. apply Hinj; by right.
Qed.

(** Every offset of the ranges is the offset of an address of the span. *)
Lemma covered_offsets (E : Env) (address stop : Z) (ranges : list (Z * Z)) (o : Z) :
  map (addr_to_offset E) (Py.range address stop) = map Some (covered ranges) ->
  In o (covered ranges) ->
  exists a, address <= a < stop /\ addr_to_offset E a = Some o.
Proof.
  intros Hmap Hin. apply (in_map Some) in Hin. rewrite <- Hmap in Hin.
  apply in_map_iff in Hin as (a & Ha & Hin). apply In_range in Hin. eauto.
Qed.

Lemma range_ends_covered (ranges : list (Z * Z)) (r : Z * Z) :
  In r ranges -> fst r < snd r ->
  forall o, fst r <= o < snd r -> In o (covered ranges).
Proof.
  intros Hr Hne o Ho. unfold covered. apply in_flat_map. exists r.
  split; [done|]. by apply In_range.
Qed.

Lemma slice_empty (c : bytes) (x : Z) : Py.slice c x x = [].
Proof. unfold Py.slice. by rewrite Z.sub_diag. Qed.

(** What [patch_bin] writes at an address is what [read_mem_from_file]
    reads there afterwards, and the image keeps its length: for a span of
    addresses that the loader maps page by page, one to one, to offsets
    inside the image. *)
Theorem patch_bin_read_back (E : Env) (fuel : nat) (address : Z)
    (new_content : bytes) (p : Patcher) :
  0 <= address -> 0 < Py.len new_content ->
  address + Py.len new_content <= 2 ^ 40 ->
  loader_coherent E address (address + Py.len new_content) ->
  (Z.to_nat (Py.len new_content / 0x1000) <= fuel)%nat ->
  (forall a o, address <= a < address + Py.len new_content ->
               addr_to_offset E a = Some o -> o < Py.len (ncontent p)) ->
  (forall a b, address <= a < address + Py.len new_content ->
               address <= b < address + Py.len new_content ->
               addr_to_offset E a = addr_to_offset E b -> a = b) ->
  exists p',
    patch_bin E fuel address new_content p = Ok p' /\
    Py.len (ncontent p') = Py.len (ncontent p) /\
    read_mem_from_file E fuel address (Py.len new_content) p' = Ok new_content.
Proof.
  intros Haddr Hsize Htop Hco Hfuel Hfile Hinj.
  destruct (translation_list_spec E fuel address (Py.len new_content))
    as (ranges & Hget & Hpages & Htot & Hmap); try done.
  destruct (patch_bin_loop_spec new_content ranges (ncontent p) 0)
    as (chunks & Hfold & Hconcat & Hlens); [done|lia|lia|].
  rewrite Z.add_0_l, Htot, slice_full in Hconcat.
  assert (Hoff : forall o, In o (covered ranges) ->
                           0 <= o < Py.len (ncontent p)).
  { intros o Ho.
    destruct (covered_offsets E _ _ _ _ Hmap Ho) as (a & Ha & Hao).
    destruct (proj1 Hco a Ha) as (o' & Ho' & Hr & _).
    rewrite Hao in Ho'. injection Ho' as <-. split; [lia|]. by eapply Hfile. }
  assert (Hin : Forall (fun r => 0 <= fst r < snd r /\
                                 snd r <= Py.len (ncontent p)) ranges).
  { apply List.Forall_forall. intros r Hr.
    rewrite List.Forall_forall in Hpages. destruct (Hpages r Hr) as [Hne _].
    pose proof (Hoff (fst r) (range_ends_covered ranges r Hr Hne (fst r) ltac:(lia))).
    pose proof (Hoff (snd r - 1) (range_ends_covered ranges r Hr Hne (snd r - 1) ltac:(lia))).
    lia. }
  assert (Hnd : List.NoDup (covered ranges)).
  { apply (List.NoDup_map_inv Some). rewrite <- Hmap.
    apply NoDup_map_in; [|apply NoDup_range].
    intros a b Ha Hb. apply Hinj; by apply In_range. }
  destruct (write_chunks_read ranges chunks (ncontent p) Hin Hnd Hlens)
    as [Hlen Hread].
  unfold patch_bin. rewrite Hget. cbn [mbind result_bind]. rewrite Hfold.
  eexists. split; [reflexivity|]. cbn [fst ncontent set_ncontent].
  split; [done|].
  unfold read_mem_from_file. rewrite Hget. cbn [mbind result_bind ncontent set_ncontent].
  rewrite read_loop_concat, Hread, Hconcat. done.
Qed.

(** [patch_bin] writes nowhere else: a window of the image that holds no
    offset of the addresses written reads the same afterwards. *)
Theorem patch_bin_frame (E : Env) (fuel : nat) (address : Z)
    (new_content : bytes) (p : Patcher) (x y : Z) :
  0 <= address -> 0 < Py.len new_content ->
  address + Py.len new_content <= 2 ^ 40 ->
  loader_coherent E address (address + Py.len new_content) ->
  (Z.to_nat (Py.len new_content / 0x1000) <= fuel)%nat ->
  (forall a o, address <= a < address + Py.len new_content ->
               addr_to_offset E a = Some o ->
               o < Py.len (ncontent p) /\ (o < x \/ y <= o)) ->
  0 <= x <= y -> y <= Py.len (ncontent p) ->
  exists p',
    patch_bin E fuel address new_content p = Ok p' /\
    Py.len (ncontent p') = Py.len (ncontent p) /\
    Py.slice (ncontent p') x y = Py.slice (ncontent p) x y.
Proof.
  intros Haddr Hsize Htop Hco Hfuel Hfile Hxy Hy.
  destruct (translation_list_spec E fuel address (Py.len new_content))
    as (ranges & Hget & Hpages & Htot & Hmap); try done.
  destruct (patch_bin_loop_spec new_content ranges (ncontent p) 0)
    as (chunks & Hfold & Hconcat & Hlens); [done|lia|lia|].
  assert (Hoff : forall o, In o (covered ranges) ->
                           0 <= o < Py.len (ncontent p) /\ (o < x \/ y <= o)).
  { intros o Ho.
    destruct (covered_offsets E _ _ _ _ Hmap Ho) as (a & Ha & Hao).
    destruct (proj1 Hco a Ha) as (o' & Ho' & Hr & _).
    rewrite Hao in Ho'. injection Ho' as <-.
    destruct (Hfile a o Ha Hao). split; [lia|done]. }
  assert (Hin : Forall (fun r => fst r < snd r /\ 0 <= fst r /\
                                 snd r <= Py.len (ncontent p)) ranges).
  { apply List.Forall_forall. intros r Hr.
    rewrite List.Forall_forall in Hpages. destruct (Hpages r Hr) as [Hne _].
    pose proof (Hoff (fst r) (range_ends_covered ranges r Hr Hne (fst r) ltac:(lia))).
    pose proof (Hoff (snd r - 1) (range_ends_covered ranges r Hr Hne (snd r - 1) ltac:(lia))).
    lia. }
  unfold patch_bin. rewrite Hget. cbn [mbind result_bind]. rewrite Hfold.
  eexists. split; [reflexivity|]. cbn [fst ncontent set_ncontent].
  destruct (write_chunks_frame 0 0 ranges chunks (ncontent p)) as [Hlen _];
    [lia|lia| |done|].
  { eapply Forall_impl; [exact Hin|]. intros r Hr. simpl in *. lia. }
  split; [done|]. destruct (decide (x = y)) as [->|Hne].
  { by rewrite !slice_empty. }
  destruct (write_chunks_frame x y ranges chunks (ncontent p)) as [_ Hsl];
    [lia|lia| |done|done].
  apply List.Forall_forall. intros r Hr.
  rewrite List.Forall_forall in Hin. destruct (Hin r Hr) as (Hne' & H0 & HL).
  split; [lia|]. split; [lia|].
  destruct (decide (snd r <= x)) as [|Hn1]; [by left|].
  destruct (decide (y <= fst r)) as [|Hn2]; [by right|]. exfalso.
  destruct (Hoff (Z.max (fst r) x)) as [_ Hout]; [|lia].
  apply (range_ends_covered ranges r Hr Hne'). lia.
Qed.

Lemma wide_offset_inv (a o : Z) :
  addr_to_offset wide_env a = Some o ->
  Sample.base <= a < Sample.base + 0x3000 /\ o = a - Sample.base.
Proof.
  simpl. unfold wide_addr_to_offset.
  destruct (Z.leb_spec Sample.base a), (Z.ltb_spec a (Sample.base + 0x3000));
    simpl; try discriminate.
  intros [= <-]. lia.
Qed.

(** Five bytes written at [0x8048ffe], across a page boundary, are read
    back from there. *)
Lemma patch_bin_read_back_witness :
  let p := compile_add_data
             (compile_begin (add_data [x01; x02] None sample_patcher)) in
  exists p',
    patch_bin wide_env 1 0x8048ffe [x90; x90; x90; x90; x90] p = Ok p' /\
    Py.len (ncontent p') = Py.len (ncontent p) /\
    read_mem_from_file wide_env 1 0x8048ffe (Py.len [x90; x90; x90; x90; x90]) p'
    = Ok [x90; x90; x90; x90; x90].
Proof.
  intros p.
  apply (patch_bin_read_back wide_env 1 0x8048ffe [x90; x90; x90; x90; x90] p).
  - lia.
  - reflexivity.
  - vm_compute. discriminate.
  - apply wide_loader_coherent; vm_compute; discriminate.
  - vm_compute. lia.
  - intros a o Ha Ho. apply wide_offset_inv in Ho as [_ ->].
    change (Py.len (ncontent p)) with 8192.
    change (Py.len [x90; x90; x90; x90; x90]) with 5 in Ha.
    unfold Sample.base. lia.
  - intros a b Ha Hb Hab.
    destruct (addr_to_offset wide_env a) as [o|] eqn:Hoa.
    + symmetry in Hab. apply wide_offset_inv in Hoa as [_ ->].
      apply wide_offset_inv in Hab as [_ Hab]. lia.
    + destruct (proj1 (wide_loader_coherent 0x8048ffe (0x8048ffe + 5)
                         ltac:(vm_compute; discriminate)
                         ltac:(vm_compute; discriminate)) a Ha)
        as (o & Ho & _).
      congruence.
Defined.

(** Those five bytes leave the first [0xffe] bytes of the image alone. *)
Lemma patch_bin_frame_witness :
  let p := compile_add_data
             (compile_begin (add_data [x01; x02] None sample_patcher)) in
  exists p',
    patch_bin wide_env 1 0x8048ffe [x90; x90; x90; x90; x90] p = Ok p' /\
    Py.len (ncontent p') = Py.len (ncontent p) /\
    Py.slice (ncontent p') 0 0xffe = Py.slice (ncontent p) 0 0xffe.
Proof.
  intros p.
  apply (patch_bin_frame wide_env 1 0x8048ffe [x90; x90; x90; x90; x90] p).
  - lia.
  - reflexivity.
  - vm_compute. discriminate.
  - apply wide_loader_coherent; vm_compute; discriminate.
  - vm_compute. lia.
  - intros a o Ha Ho. apply wide_offset_inv in Ho as [_ ->].
    change (Py.len (ncontent p)) with 8192.
    change (Py.len [x90; x90; x90; x90; x90]) with 5 in Ha.
    unfold Sample.base. lia.
  - lia.
  - vm_compute. discriminate.
Defined.

(** ** A span that ends below the page it starts in *)

Lemma translation_loop_past (E : Env) (end_p : Z) (fuel : nat) :
  forall (nstart : Z) (mlist : list (Z * Z)) (r : Z * list (Z * Z)),
    end_p < nstart -> translation_loop E fuel nstart end_p mlist <> Ok r.
Proof.
  induction fuel as [|fuel IH]; intros nstart mlist r Hlt; simpl;
    destruct (Z.eqb_spec nstart end_p); try lia; try discriminate.
  destruct (maddress_to_baddress E nstart); cbn [mbind result_bind];
    try discriminate.
  apply IH. lia.
Qed.

(** [get_memory_translation_list] does not return for a span whose last
    byte [address + size - 1] lies in a page below the page of [address]:
    the page cursor starts above the page it is compared with and moves
    away from it, so the loop ends only by an unmapped page.  An empty
    span at the first byte of a page is such a span; [patch_bin] and
    [read_mem_from_file] then do not return either. *)
Theorem get_memory_translation_list_backward_span (E : Env) (fuel : nat)
    (address size : Z) :
  0 <= address + size - 1 -> address < 2 ^ 40 ->
  (address + size - 1) / 0x1000 < address / 0x1000 ->
  (forall ranges, get_memory_translation_list E fuel address size <> Ok ranges) /\
  (forall new_content p p',
     Py.len new_content = size ->
     patch_bin E fuel address new_content p <> Ok p') /\
  (forall p mem, read_mem_from_file E fuel address size p <> Ok mem).
Proof.
  intros Hend Htop Hpages.
  assert (Haddr : address + size - 1 < address).
  { destruct (Z.lt_ge_cases (address + size - 1) address) as [|Hge]; [done|].
    apply (Z.div_le_mono _ _ 0x1000) in Hge; lia. }
  assert (Hlist : forall ranges,
             get_memory_translation_list E fuel address size <> Ok ranges).
  { intros ranges. unfold get_memory_translation_list.
    rewrite !land_page by lia.
    destruct (Z.eqb_spec (0x1000 * (address / 0x1000))
                         (0x1000 * ((address + size - 1) / 0x1000))); [lia|].
    destruct (maddress_to_baddress E address); cbn [mbind result_bind];
      try discriminate.
    destruct (translation_loop E fuel _ _ _) as [r| |] eqn:Hloop;
      cbn [mbind result_bind]; try discriminate.
    exfalso. revert Hloop. apply translation_loop_past. lia. }
  split; [done|]. split.
  - intros new_content p p' Hlen. unfold patch_bin. rewrite Hlen.
    destruct (get_memory_translation_list E fuel address size) as [ranges| |];
      cbn [mbind result_bind]; try discriminate.
    by destruct (Hlist ranges).
  - intros p mem. unfold read_mem_from_file.
    destruct (get_memory_translation_list E fuel address size) as [ranges| |];
      cbn [mbind result_bind]; try discriminate.
    by destruct (Hlist ranges).
Qed.

Lemma get_memory_translation_list_backward_span_witness :
  (forall ranges, get_memory_translation_list wide_env 8 0x8049000 0 <> Ok ranges) /\
  (forall new_content p p',
     Py.len new_content = 0 ->
     patch_bin wide_env 8 0x8049000 new_content p <> Ok p') /\
  (forall p mem, read_mem_from_file wide_env 8 0x8049000 0 p <> Ok mem).
Proof.
  apply (get_memory_translation_list_backward_span wide_env 8 0x8049000 0);
    vm_compute; first [reflexivity | discriminate].
Defined.

Example empty_span_at_page_start :
  get_memory_translation_list wide_env 8 0x8049000 0
  = Raise (InvalidVAddrException "0x804b000") /\
  get_memory_translation_list wide_env 1 0x8049000 0 = OutOfFuel.
Proof. vm_compute. split; reflexivity. Qed.

(** ** Compiling on an image that was patched before *)

Lemma compile_add_data_header_end (p : Patcher) :
  original_header_end (compile_add_data (compile_begin p)) = original_header_end p.
Proof.
  unfold compile_add_data. simpl.
  apply (fold_left_invariant add_data_step
           (fun s => original_header_end s = original_header_end p)); [|done].
  intros s x Hs. destruct x; simpl; try done. destruct name; done.
Qed.

Lemma compile_add_code_header_end (E : Env) (p p' : Patcher) :
  compile_add_code E p = Ok p' -> original_header_end p' = original_header_end p.
Proof.
  unfold compile_add_code. intros H. inv_bind H. destruct v as [p1 pos].
  assert (H1 : original_header_end p1 = original_header_end p).
  { change (original_header_end (fst (p1, pos)) = original_header_end p).
    eapply (foldM_invariant (resolve_step E)
              (fun st => original_header_end (fst st) = original_header_end p));
      [|exact Hv|done].
    intros [s pos'] x [s' pos''] Hx Hs. simpl in *. destruct x; simpl in Hx;
      try (injection Hx as <- <-; done).
    inv_bind Hx. injection Hx as <- <-. destruct name; simpl; done. }
  simpl in H. rewrite <- H1.
  eapply (foldM_invariant (add_code_step E)
            (fun s => original_header_end s = original_header_end p1));
    [|exact H|done].
  intros s x s' Hx Hs. destruct x; simpl in Hx; try (injection Hx as <-; done).
  inv_bind Hx. injection Hx as <-. done.
Qed.

Lemma compile_inline_header_end (E : Env) (p p' : Patcher) :
  compile_inline E p = Ok p' -> original_header_end p' = original_header_end p.
Proof.
  unfold compile_inline. intros H.
  eapply (foldM_invariant (inline_step E)
            (fun s => original_header_end s = original_header_end p));
    [|exact H|done].
  intros s x s' Hx Hs. destruct x; simpl in Hx; try (injection Hx as <-; done).
  inv_bind Hx. inv_bind Hx. injection Hx as <-. done.
Qed.

(** Without [original_header_end] the position of the second header,
    [self.original_header_end + 32], cannot be computed. *)
Lemma set_added_segment_headers_no_end (p : Patcher) :
  original_header_end p = None ->
  forall p', set_added_segment_headers p <> Ok p'.
Proof.
  intros Hend p' H. unfold set_added_segment_headers in H.
  inv_bind H. inv_bind H. inv_bind H. inv_bind H. inv_bind H.
  cbn [original_header_end set_ncontent] in H. rewrite Hend in H.
  discriminate.
Qed.

Lemma compile_until_headers_no_end (E : Env) (p : Patcher) :
  original_header_end p = None ->
  forall p', compile_until_headers E p <> Ok p'.
Proof.
  intros Hend p'. unfold compile_until_headers.
  destruct (compile_add_code E (compile_add_data (compile_begin p)))
    as [p1|e|] eqn:H1; cbn [mbind result_bind]; try discriminate.
  destruct (compile_inline E p1) as [p2|e|] eqn:H2; cbn [mbind result_bind];
    try discriminate.
  apply set_added_segment_headers_no_end.
  apply compile_inline_header_end in H2. apply compile_add_code_header_end in H1.
  rewrite compile_add_data_header_end in H1. congruence.
Qed.

(** An image that carries the marker is opened as it is, and then no
    project on it is ever compiled: whatever patches are registered and
    whatever the collaborators answer, [compile_patches] does not return.
    [setup_headers] returns before it sets [original_header_end], which
    the second header position needs. *)
Theorem patched_image_not_compilable (E : Env) (fuel : nat) (content : bytes) :
  Py.slice content 0x34 (0x34 + Py.len patched_tag) = patched_tag ->
  exists p,
    Patcher_init (Returns tt) (Returns tt) content = Ok p /\
    ncontent p = content /\
    original_header_end p = None /\
    forall ps p', compile_patches E fuel (set_patches ps p) <> Ok p'.
Proof.
  intros Htag. unfold Patcher_init, setup_headers, is_patched.
  cbn [ncontent ocontent set_ncontent call mbind result_bind].
  rewrite bool_decide_eq_true_2 by done. cbn [mbind result_bind].
  eexists. split; [reflexivity|]. split; [done|]. split; [done|].
  intros ps p'. unfold compile_patches.
  destruct (compile_until_headers E _) as [q|e|] eqn:Hq; cbn [mbind result_bind];
    try discriminate.
  exfalso. revert Hq. by apply compile_until_headers_no_end.
Qed.

(** The image of the sample project, saved and opened again. *)
Lemma patched_image_not_compilable_witness :
  exists p,
    Patcher_init (Returns tt) (Returns tt) (save sample_patcher) = Ok p /\
    ncontent p = save sample_patcher /\
    original_header_end p = None /\
    forall ps p', compile_patches Sample.env 1 (set_patches ps p) <> Ok p'.
Proof.
  apply (patched_image_not_compilable Sample.env 1 (save sample_patcher)).
  vm_compute. reflexivity.
Defined.

Example reopened_sample_type_error :
  compile_patches Sample.env 1
    (add_code "nop" None
       (unwrap (Patcher_init (Returns tt) (Returns tt) (save sample_patcher))))
  = Raise TypeError.
Proof. vm_compute. reflexivity. Qed.

(** ** Where the added data goes *)

Lemma round_up_to_page_spec (n : Z) :
  n <= Utils.round_up_to_page n < n + 0x1000 /\
  Utils.round_up_to_page n mod 0x1000 = 0.
Proof.
  unfold Utils.round_up_to_page. split.
  - Z.to_euclidean_division_equations. lia.
  - apply Z.mod_mul. lia.
Qed.

Lemma len_ljust (s : bytes) (n : Z) (pad : byte) :
  Py.len s <= n -> Py.len (Py.ljust s n pad) = n.
Proof.
  intros H. unfold Py.ljust. rewrite len_app. unfold Py.len in *.
  rewrite repeat_length. lia.
Qed.

Lemma add_data_loop (l : list Patch) :
  forall s : Patcher,
    let s' := fold_left add_data_step l s in
    ncontent s' = ncontent s ++ data_of l /\
    added_data s' = added_data s ++ data_of l /\
    curr_data_position s' = curr_data_position s + Py.len (data_of l) /\
    curr_file_position s' = curr_file_position s + Py.len (data_of l) /\
    added_data_file_start s' = added_data_file_start s.
Proof.
  induction l as [|x l IH]; intros s; simpl.
  - rewrite !app_nil_r. change (Py.len []) with 0. repeat split; lia.
  - destruct (IH (add_data_step s x)) as (H1 & H2 & H3 & H4 & H5).
    rewrite H1, H2, H3, H4, H5. unfold data_of at 1 2 3 4. simpl.
    fold (data_of l). rewrite len_app.
    destruct x; simpl; rewrite ?Z.add_0_l; try done.
    rewrite str_overwrite_append.
    destruct name; simpl; rewrite <- !app_assoc; repeat split; lia.
Qed.

Lemma compile_begin_fields (p : Patcher) :
  let F := Utils.round_up_to_page (Py.len (ncontent p) + 2 * 32) in
  patches (compile_begin p) = patches p /\
  added_data (compile_begin p) = [] /\
  curr_data_position (compile_begin p) = added_data_segment /\
  curr_file_position (compile_begin p) = F /\
  added_data_file_start (compile_begin p) = Some F /\
  ncontent (compile_begin p) = Py.ljust (ncontent p) F x00.
Proof. repeat split; reflexivity. Qed.

Lemma compile_add_data_fields (s : Patcher) :
  let t := fold_left add_data_step (patches s) s in
  ncontent (compile_add_data s) = Utils.pad_str (ncontent t) 0x1000 /\
  added_data (compile_add_data s) = added_data t /\
  curr_file_position (compile_add_data s)
  = Py.len (Utils.pad_str (ncontent t) 0x1000) /\
  curr_data_position (compile_add_data s) = curr_data_position t /\
  added_data_file_start (compile_add_data s) = added_data_file_start t.
Proof. repeat split; reflexivity. Qed.

(** The layout after the data patches are processed.  With [F] the first
    page boundary at or after the end of the image plus room for two
    program headers: the added data is the data of the [AddDataPatch]es
    in registration order; it is in the image at [F], which is
    [added_data_file_start]; the image before [compile_patches] is a
    prefix of the new one; the new image is a whole number of pages and
    the file cursor is at its end; the data cursor has moved by the
    length of the added data. *)
Theorem compile_add_data_layout (p : Patcher) :
  let q := compile_add_data (compile_begin p) in
  let F := Utils.round_up_to_page (Py.len (ncontent p) + 2 * 32) in
  added_data q = data_of (patches p) /\
  added_data_file_start q = Some F /\
  Py.slice (ncontent q) F (F + Py.len (added_data q)) = added_data q /\
  Py.slice (ncontent q) 0 (Py.len (ncontent p)) = ncontent p /\
  Py.len (ncontent q) mod 0x1000 = 0 /\
  F + Py.len (added_data q) <= Py.len (ncontent q) /\
  curr_file_position q = Py.len (ncontent q) /\
  curr_data_position q = added_data_segment + Py.len (added_data q).
Proof.
  intros q F.
  pose proof (round_up_to_page_spec (Py.len (ncontent p) + 2 * 32)) as [HF _].
  fold F in HF. pose proof (len_nonneg (ncontent p)) as Hn.
  destruct (compile_begin_fields p) as (B1 & B2 & B3 & B4 & B5 & B6).
  destruct (compile_add_data_fields (compile_begin p)) as (A1 & A2 & A3 & A4 & A5).
  destruct (add_data_loop (patches (compile_begin p)) (compile_begin p))
    as (H1 & H2 & H3 & H4 & H5).
  fold q in A1, A2, A3, A4, A5. fold F in B4, B5, B6.
  revert A1 A2 A3 A4 A5 H1 H2 H3 H4 H5.
  generalize (fold_left add_data_step (patches (compile_begin p)) (compile_begin p)).
  intros t A1 A2 A3 A4 A5 H1 H2 H3 H4 H5.
  rewrite B1, B2, B3, B4, B5, B6 in *. clear B1 B2 B3 B4 B5 B6.
  rewrite app_nil_l in H2.
  assert (Hls : Py.len (Py.ljust (ncontent p) F x00) = F) by (apply len_ljust; lia).
  destruct (pad_str_app (ncontent t) 0x1000) as (pad & Hpad & Hmod & _); [lia|].
  pose proof (len_nonneg (data_of (patches p))) as Hd.
  pose proof (len_nonneg pad) as Hp.
  rewrite A2, A5, A3, A4, A1, H2, H5, H3, Hpad, H1. clear A1 A2 A3 A4 A5.
  assert (Hlen : Py.len ((Py.ljust (ncontent p) F x00 ++ data_of (patches p)) ++ pad)
                 = F + Py.len (data_of (patches p)) + Py.len pad).
  { rewrite !len_app. lia. }
  split; [done|]. split; [done|].
  split; [|split; [|split; [|split; [|split]]]].
  - rewrite slice_app_l by (rewrite ?len_app; lia).
    pose proof (slice_app_r (Py.ljust (ncontent p) F x00) (data_of (patches p))
                  0 (Py.len (data_of (patches p))) ltac:(lia) ltac:(lia)) as Hr.
    rewrite Hls, Z.add_0_r in Hr. rewrite Hr. apply slice_full.
  - rewrite slice_app_l by (rewrite ?len_app; lia).
    rewrite slice_app_l by lia. unfold Py.ljust.
    rewrite slice_app_l by lia. apply slice_full.
  - rewrite <- H1. done.
  - lia.
  - done.
  - done.
Qed.

(** ** The one way address translation fails *)

Lemma maddress_to_baddress_raises (E : Env) (x : Z) (e : exn) :
  maddress_to_baddress E x = Raise e ->
  e = InvalidVAddrException (Py.hex x) /\ addr_to_offset E x = None.
Proof.
  unfold maddress_to_baddress. destruct (addr_to_offset E x); [discriminate|].
  intros [= <-]. done.
Qed.

Lemma translation_loop_outcome (E : Env) (end_p : Z) (fuel : nat) :
  forall (nstart : Z) (mlist : list (Z * Z)),
    match translation_loop E fuel nstart end_p mlist with
    | Ok (n, _) => exists k, 0 <= k /\ n = nstart + 0x1000 * k /\ n = end_p
    | Raise e => exists k, 0 <= k /\
                           e = InvalidVAddrException (Py.hex (nstart + 0x1000 * k)) /\
                           addr_to_offset E (nstart + 0x1000 * k) = None
    | OutOfFuel => True
    end.
Proof.
  induction fuel as [|fuel IH]; intros nstart mlist; simpl;
    destruct (Z.eqb_spec nstart end_p) as [Heq|Hne]; try done;
    try (exists 0; split; [lia|]; split; [lia|done]).
  destruct (maddress_to_baddress E nstart) as [b|e|] eqn:Hb;
    cbn [mbind result_bind]; [| |done].
  - specialize (IH (nstart + 0x1000) (mlist ++ [(b, b + 0x1000)])).
    destruct (translation_loop E fuel _ _ _) as [[n l]|e|]; [| |done].
    + destruct IH as (k & Hk & Hn & He). exists (k + 1). split; [lia|].
      split; [lia|done].
    + destruct IH as (k & Hk & He & Hnone). exists (k + 1). split; [lia|].
      replace (nstart + 0x1000 * (k + 1)) with (nstart + 0x1000 + 0x1000 * k) by lia.
      done.
  - apply maddress_to_baddress_raises in Hb as [-> Hnone]. exists 0.
    rewrite Z.mul_0_r, Z.add_0_r. split; [lia|done].
Qed.

(** [get_memory_translation_list] raises nothing but
    [InvalidVAddrException], and it names an address that the loader does
    not map: the first address of the span, its last address, or the
    first address of a page above the page of the first address.
    [patch_bin] and [read_mem_from_file] raise only what it raises. *)
Theorem translation_raises_unmapped (E : Env) (fuel : nat) (address size : Z)
    (e : exn) :
  get_memory_translation_list E fuel address size = Raise e ->
  (exists x,
     e = InvalidVAddrException (Py.hex x) /\ addr_to_offset E x = None /\
     (x = address \/ x = address + size - 1 \/
      exists k, 0 < k /\ x = Z.land address 0xfffffff000 + 0x1000 * k)) /\
  (forall p, read_mem_from_file E fuel address size p = Raise e) /\
  (forall new_content p,
     Py.len new_content = size ->
     patch_bin E fuel address new_content p = Raise e).
Proof.
  intros H. split; [|split].
  - unfold get_memory_translation_list in H.
    destruct (Z.land address 0xfffffff000 =? Z.land (address + size - 1) 0xfffffff000).
    + destruct (maddress_to_baddress E address) as [b1|e1|] eqn:H1;
        cbn [mbind result_bind] in H; [| |discriminate].
      * destruct (maddress_to_baddress E (address + size - 1)) as [b2|e2|] eqn:H2;
          cbn [mbind result_bind] in H; try discriminate.
        injection H as <-. apply maddress_to_baddress_raises in H2 as [-> Hnone].
        eauto 6.
      * injection H as <-. apply maddress_to_baddress_raises in H1 as [-> Hnone].
        eauto 6.
    + destruct (maddress_to_baddress E address) as [b1|e1|] eqn:H1;
        cbn [mbind result_bind] in H; [| |discriminate].
      2: { injection H as <-. apply maddress_to_baddress_raises in H1 as [-> Hnone].
           eauto 6. }
      pose proof (translation_loop_outcome E
                    (Z.land (address + size - 1) 0xfffffff000) fuel
                    (Z.land address 0xfffffff000 + 0x1000)
                    [(b1, Z.land b1 0xfffffff000 + 0x1000)]) as Hloop.
      destruct (translation_loop E fuel _ _ _) as [[n l]|e1|];
        cbn [mbind result_bind] in H; [| |discriminate].
      * destruct Hloop as (k & Hk & Hn & _).
        destruct (maddress_to_baddress E n) as [b3|e3|] eqn:H3;
          cbn [mbind result_bind] in H; [| |discriminate].
        -- destruct (maddress_to_baddress E (address + size - 1)) as [b2|e2|] eqn:H2;
             cbn [mbind result_bind] in H; try discriminate.
           injection H as <-. apply maddress_to_baddress_raises in H2 as [-> Hnone].
           eauto 6.
        -- injection H as <-. apply maddress_to_baddress_raises in H3 as [-> Hnone].
           exists n. split; [done|]. split; [done|]. right. right.
           exists (k + 1). split; lia.
      * injection H as <-. destruct Hloop as (k & Hk & -> & Hnone).
        eexists. split; [done|]. split; [done|]. right. right.
        exists (k + 1). split; lia.
  - intros p. unfold read_mem_from_file. by rewrite H.
  - intros new_content p Hlen. unfold patch_bin. by rewrite Hlen, H.
Qed.

(** Five bytes at [0x804affe]: the second page of the span is not mapped. *)
Lemma translation_raises_unmapped_witness :
  (exists x,
     InvalidVAddrException "0x804b000" = InvalidVAddrException (Py.hex x) /\
     addr_to_offset wide_env x = None /\
     (x = 0x804affe \/ x = 0x804affe + 5 - 1 \/
      exists k, 0 < k /\ x = Z.land 0x804affe 0xfffffff000 + 0x1000 * k)) /\
  (forall p, read_mem_from_file wide_env 1 0x804affe 5 p
             = Raise (InvalidVAddrException "0x804b000")) /\
  (forall new_content p,
     Py.len new_content = 5 ->
     patch_bin wide_env 1 0x804affe new_content p
     = Raise (InvalidVAddrException "0x804b000")).
Proof.
  apply (translation_raises_unmapped wide_env 1 0x804affe 5).
  vm_compute. reflexivity.
Defined.

(** ** pflags_to_perms *)

Lemma land_bit_zero (f : Z) (n : Z) :
  0 <= n -> (Z.land f (Z.shiftl 1 n) =? 0) = negb (Z.testbit f n).
Proof.
  intros Hn. rewrite Z.shiftl_1_l.
  destruct (Z.testbit f n) eqn:Hb; simpl.
  - apply Z.eqb_neq. intros H0.
    assert (Ht : Z.testbit (Z.land f (2 ^ n)) n = true).
    { rewrite Z.land_spec, Hb, Z.pow2_bits_true; done. }
    rewrite H0, Z.bits_0 in Ht. discriminate.
  - apply Z.eqb_eq. apply Z.bits_inj'. intros i Hi.
    rewrite Z.land_spec, Z.bits_0.
    destruct (decide (i = n)) as [->|Hne]; [by rewrite Hb|].
    rewrite Z.pow2_bits_false by lia. apply andb_false_r.
Qed.

Lemma pflags_to_perms_bits (f : Z) :
  pflags_to_perms f
  = ((if Z.testbit f 2 then "R" else "") +:+
     (if Z.testbit f 1 then "W" else "") +:+
     (if Z.testbit f 0 then "X" else ""))%string.
Proof.
  unfold pflags_to_perms. cbv zeta.
  rewrite !land_bit_zero, !negb_involutive by lia.
  destruct (Z.testbit f 2), (Z.testbit f 1), (Z.testbit f 0); reflexivity.
Qed.

(** [pflags_to_perms] reads the three low bits of the flags and nothing
    else, and the string tells them apart: two flag words give the same
    permission string exactly when they agree on [PF_R], [PF_W] and
    [PF_X]. *)
Theorem pflags_to_perms_low_bits (f g : Z) :
  pflags_to_perms f = pflags_to_perms g <-> Z.land f 7 = Z.land g 7.
Proof.
  rewrite !pflags_to_perms_bits. split.
  - intros H. apply Z.bits_inj'. intros i Hi. rewrite !Z.land_spec.
    change 7 with (Z.ones 3).
    destruct (Z.ltb_spec i 3) as [Hlt|Hge].
    + rewrite Z.ones_spec_low by lia. rewrite !andb_true_r.
      assert (Hi3 : i = 0 \/ i = 1 \/ i = 2) by lia.
      destruct (Z.testbit f 2) eqn:F2, (Z.testbit f 1) eqn:F1,
               (Z.testbit f 0) eqn:F0, (Z.testbit g 2) eqn:G2,
               (Z.testbit g 1) eqn:G1, (Z.testbit g 0) eqn:G0;
        try discriminate H; destruct Hi3 as [Hz | [Hz | Hz]]; subst i; congruence.
    + rewrite Z.ones_spec_high by lia. by rewrite !andb_false_r.
  - intros H.
    assert (Hb : forall i, 0 <= i < 3 -> Z.testbit f i = Z.testbit g i).
    { intros i Hi. apply (f_equal (fun z => Z.testbit z i)) in H.
      rewrite !Z.land_spec in H. change 7 with (Z.ones 3) in H.
      rewrite Z.ones_spec_low in H by lia. by rewrite !andb_true_r in H. }
    rewrite (Hb 0), (Hb 1), (Hb 2) by lia. done.
Qed.

Example pflags_of_added_segments :
  pflags_to_perms 0x5 = "RX" /\ pflags_to_perms 0x6 = "RW" /\
  pflags_to_perms (-1) = "RWX" /\ pflags_to_perms 0x8 = "".
Proof. vm_compute. repeat split; reflexivity. Qed.

(** ** The two added segments of a compiled project *)

Lemma compile_patches_Ok_inv (E : Env) (fuel : nat) (p q : Patcher) :
  compile_patches E fuel p = Ok q ->
  exists p1 p2 p3,
    compile_add_code E (compile_add_data (compile_begin p)) = Ok p1 /\
    compile_inline E p1 = Ok p2 /\
    set_added_segment_headers p2 = Ok p3 /\
    compile_detours E fuel p3 = Ok q.
Proof.
  unfold compile_patches, compile_until_headers.
  destruct (compile_add_code E (compile_add_data (compile_begin p)))
    as [p1|e|]; cbn [mbind result_bind]; try discriminate.
  destruct (compile_inline E p1) as [p2|e|] eqn:H2; cbn [mbind result_bind];
    try discriminate.
  destruct (set_added_segment_headers p2) as [p3|e|] eqn:H3;
    cbn [mbind result_bind]; try discriminate.
  intros H. exists p1, p2, p3. done.
Qed.

Lemma slice_past_end {A : Type} (s : list A) (a b : Z) :
  Py.len s <= a -> Py.slice s a b = [].
Proof.
  intros Ha. pose proof (len_nonneg s) as Hn. unfold Py.slice.
  assert (Hlo : Py.clip (Py.len s) a = Py.len s).
  { unfold Py.clip. destruct (Z.ltb_spec a 0); lia. }
  assert (Hhi : Py.clip (Py.len s) b <= Py.len s).
  { unfold Py.clip. destruct (Z.ltb_spec b 0); lia. }
  rewrite Hlo. replace (Z.to_nat (Py.clip (Py.len s) b - Py.len s)) with 0%nat by lia.
  done.
Qed.

Lemma foldM_skip {A S : Type} (f : S -> A -> result S) (l : list A) (s : S) :
  (forall x, In x l -> f s x = Ok s) -> foldM f l s = Ok s.
Proof.
  induction l as [|x l IH]; intros H; simpl; [done|].
  rewrite H by (by left). cbn [mbind result_bind]. apply IH.
  intros y Hy. apply H. by right.
Qed.

Lemma compile_add_code_keeps_data (E : Env) (p p' : Patcher) :
  compile_add_code E p = Ok p' ->
  added_data p' = added_data p /\
  added_data_file_start p' = added_data_file_start p /\
  added_code_file_start p' = Some (curr_file_position p).
Proof.
  unfold compile_add_code. intros H. inv_bind H. destruct v as [p1 pos].
  set (P := fun s : Patcher =>
              added_data s = added_data p /\
              added_data_file_start s = added_data_file_start p /\
              added_code_file_start s = Some (curr_file_position p)).
  assert (H1 : P p1).
  { change (P (fst (p1, pos))).
    eapply (foldM_invariant (resolve_step E) (fun st => P (fst st)));
      [|exact Hv|done].
    intros [s pos'] x [s' pos''] Hx Hs. simpl in *. destruct x; simpl in Hx;
      try (injection Hx as <- <-; done).
    inv_bind Hx. injection Hx as <- <-. destruct name; simpl; done. }
  simpl in H.
  eapply (foldM_invariant (add_code_step E) P); [|exact H|done].
  intros s x s' Hx Hs. destruct x; simpl in Hx; try (injection Hx as <-; done).
  inv_bind Hx. injection Hx as <-. done.
Qed.

Lemma compile_add_data_shape (p : Patcher) :
  let q := compile_add_data (compile_begin p) in
  let F := Utils.round_up_to_page (Py.len (ncontent p) + 2 * 32) in
  exists pad,
    ncontent q = (Py.ljust (ncontent p) F x00 ++ data_of (patches p)) ++ pad /\
    Py.len (Py.ljust (ncontent p) F x00) = F /\
    Py.len (ncontent q) mod 0x1000 = 0 /\
    added_data q = data_of (patches p) /\
    added_data_file_start q = Some F /\
    curr_file_position q = Py.len (ncontent q).
Proof.
  intros q F.
  pose proof (round_up_to_page_spec (Py.len (ncontent p) + 2 * 32)) as [HF _].
  fold F in HF. pose proof (len_nonneg (ncontent p)) as Hn.
  destruct (compile_begin_fields p) as (B1 & B2 & B3 & B4 & B5 & B6).
  destruct (compile_add_data_fields (compile_begin p)) as (A1 & A2 & A3 & A4 & A5).
  destruct (add_data_loop (patches (compile_begin p)) (compile_begin p))
    as (H1 & H2 & H3 & H4 & H5).
  fold q in A1, A2, A3, A4, A5. fold F in B4, B5, B6.
  revert A1 A2 A3 A4 A5 H1 H2 H3 H4 H5.
  generalize (fold_left add_data_step (patches (compile_begin p)) (compile_begin p)).
  intros t A1 A2 A3 A4 A5 H1 H2 H3 H4 H5.
  rewrite B1, B2, B3, B4, B5, B6 in *. clear B1 B2 B3 B4 B5 B6.
  rewrite app_nil_l in H2.
  destruct (pad_str_app (ncontent t) 0x1000) as (pad & Hpad & Hmod & _); [lia|].
  exists pad. rewrite A2, A5, A3, A1, H2, H5, Hpad, H1.
  split; [done|]. split; [apply len_ljust; lia|]. split; [by rewrite <- H1|]. done.
Qed.

(** The three writes of [set_added_segment_headers] on a buffer that
    holds the 64 bytes from [e]. *)
Lemma header_writes (c code data count : bytes) (e : Z) :
  Py.len code = 32 -> Py.len data = 32 -> Py.len count = 2 ->
  0x2e <= e -> e + 64 <= Py.len c ->
  let c2 := Utils.str_overwrite (Utils.str_overwrite c code (Some e)) data
              (Some (e + 32)) in
  let c3 := Utils.str_overwrite c2 count (Some 0x2c) in
  Py.slice c3 e (e + 32) = code /\
  Py.slice c3 (e + 32) (e + 64) = data /\
  Py.len c3 = Py.len c /\
  forall x y, 0 <= x <= y -> y <= Py.len c -> e + 64 <= x ->
              Py.slice c3 x y = Py.slice c x y.
Proof.
  intros Hcl Hdl Hcount Hlow Hfit c2 c3.
  set (c1 := Utils.str_overwrite c code (Some e)).
  assert (Hc1 : Py.len c1 = Py.len c) by (apply len_str_overwrite_inside; lia).
  assert (Hc2 : Py.len c2 = Py.len c).
  { unfold c2. fold c1. rewrite len_str_overwrite_inside; lia. }
  unfold c3. split; [|split; [|split]].
  - rewrite slice_str_overwrite_after by lia.
    unfold c2. fold c1. rewrite slice_str_overwrite_before by lia.
    unfold c1. rewrite <- Hcl. rewrite slice_str_overwrite by lia. done.
  - rewrite slice_str_overwrite_after by lia.
    unfold c2. fold c1. replace (e + 64) with (e + 32 + Py.len data) by lia.
    rewrite slice_str_overwrite by lia. done.
  - rewrite len_str_overwrite_inside by lia. lia.
  - intros x y Hxy Hy Hx.
    rewrite slice_str_overwrite_after by lia.
    unfold c2. fold c1. rewrite slice_str_overwrite_after by lia.
    unfold c1. rewrite slice_str_overwrite_after by lia. done.
Qed.

(** A project that only adds data and code, compiled on an image whose
    relocated header table ends at [e]: the data header written at
    [e + 32] gives the file offset [F] of the first page boundary after
    the old image and its two new headers, and the added data is in the
    image there; the code header written at [e] gives as file offset the
    length of the image, so the file range it describes,
    [len(added_code)] bytes from the end of the image on, holds no byte
    of the image. *)
Theorem compile_patches_added_segments (E : Env) (fuel : nat) (p q : Patcher)
    (e : Z) :
  original_header_end p = Some e -> 0x2e <= e -> e <= Py.len (ncontent p) ->
  Forall adds_only (patches p) ->
  compile_patches E fuel p = Ok q ->
  let F := Utils.round_up_to_page (Py.len (ncontent p) + 2 * 32) in
  added_data q = data_of (patches p) /\
  Struct.unpack_8I (Py.slice (ncontent q) (e + 32) (e + 64))
  = Ok [1; F; added_data_segment; 0; Py.len (added_data q);
        Py.len (added_data q); 6; 0] /\
  Py.slice (ncontent q) F (F + Py.len (added_data q)) = added_data q /\
  Struct.unpack_8I (Py.slice (ncontent q) e (e + 32))
  = Ok [1; Py.len (ncontent q); added_code_segment; 0; Py.len (added_code q);
        Py.len (added_code q); 5; 0] /\
  Py.slice (ncontent q) (Py.len (ncontent q))
           (Py.len (ncontent q) + Py.len (added_code q)) = [].
Proof.
  intros He Hlow Hle Hadds Hrun F.
  apply compile_patches_Ok_inv in Hrun as (p1 & p2 & p3 & Hcode & Hinline & Hhdr & Hdet).
  rewrite List.Forall_forall in Hadds.
  (* the loops over inline patches and detours have nothing to do *)
  assert (Hp1 : patches p1 = patches p).
  { apply compile_add_code_patches in Hcode. by rewrite compile_add_data_patches in Hcode. }
  assert (Hp2 : p2 = p1).
  { unfold compile_inline in Hinline. rewrite foldM_skip in Hinline.
    - by injection Hinline.
    - intros x Hx. rewrite Hp1 in Hx. specialize (Hadds x Hx). by destruct x. }
  subst p2.
  assert (Hq : q = p3).
  { unfold compile_detours in Hdet. rewrite foldM_skip in Hdet.
    - by injection Hdet.
    - intros x Hx.
      destruct (set_added_segment_headers_keeps p1 p3 Hhdr) as (Hp3 & _).
      rewrite Hp3, Hp1 in Hx. specialize (Hadds x Hx). by destruct x. }
  subst q.
  (* the state before the headers are written *)
  destruct (compile_add_data_shape p) as (pad & Himg & HlF & Hmod & Hdata & Hds & Hcur).
  fold F in Himg, HlF, Hds.
  pose proof (compile_add_code_keeps_image E _ _ Hcode) as Hc.
  pose proof (compile_add_code_header_end E _ _ Hcode) as Hend.
  rewrite compile_add_data_header_end, He in Hend.
  destruct (compile_add_code_keeps_data E _ _ Hcode) as (Hd1 & Hds1 & Hcs1).
  rewrite Hdata in Hd1. rewrite Hds in Hds1. rewrite Hcur, <- Hc in Hcs1.
  rewrite <- Hc in Himg, Hmod. clear Hc Hcur Hdata Hds Hcode.
  destruct (set_added_segment_headers_keeps p1 p3 Hhdr) as (_ & _ & Hac & Had & _).
  pose proof (round_up_to_page_spec (Py.len (ncontent p) + 2 * 32)) as [HF _].
  fold F in HF.
  pose proof (len_nonneg (data_of (patches p))) as Hdl.
  pose proof (len_nonneg pad) as Hpl.
  assert (Hlen : Py.len (ncontent p1) = F + Py.len (data_of (patches p)) + Py.len pad).
  { rewrite Himg, !len_app. lia. }
  (* the three writes *)
  unfold set_added_segment_headers in Hhdr.
  inv_bind Hhdr. rewrite Hcs1, Hds1, Hend in Hhdr.
  cbn [segment_header mbind result_bind] in Hhdr.
  inv_bind Hhdr. rename v0 into code.
  cbn [ncontent set_ncontent original_header_end] in Hhdr.
  inv_bind Hhdr. rename v0 into data. inv_bind Hhdr. rename v0 into pos.
  rewrite Hend in Hv2. injection Hv2 as <-.
  inv_bind Hhdr. rename v0 into n. inv_bind Hhdr. rename v0 into count.
  injection Hhdr as <-. cbn [ncontent set_ncontent added_data added_code] in *.
  apply unpack_8I_pack in Hv0 as [Hcl Hcode]; [|done].
  apply unpack_8I_pack in Hv1 as [Hdtl Hdat]; [|done].
  apply pack_H_Ok in Hv3 as [_ ->].
  destruct (header_writes (ncontent p1) code data (Struct.le_bytes 2 (n + 2)) e)
    as (Hs1 & Hs2 & Hl3 & Hframe); try done; try lia.
  rewrite Hs1, Hs2, Hl3, Hd1. rewrite Hd1 in Hdat.
  split; [done|]. split; [done|]. split; [|split; [done|]].
  - rewrite Hframe by lia. rewrite Himg.
    rewrite slice_app_l by (rewrite ?len_app; lia).
    pose proof (slice_app_r (Py.ljust (ncontent p) F x00) (data_of (patches p))
                  0 (Py.len (data_of (patches p))) ltac:(lia) ltac:(lia)) as Hr.
    rewrite HlF, Z.add_0_r in Hr. rewrite Hr. apply slice_full.
  - apply slice_past_end. lia.
Qed.

(** The sample project with two bytes of data and one [nop] added. *)
Lemma compile_patches_added_segments_witness :
  let p := add_code "nop" None (add_data [x68; x69] None sample_patcher) in
  let q := unwrap (compile_patches Sample.env 1 p) in
  let F := Utils.round_up_to_page (Py.len (ncontent p) + 2 * 32) in
  added_data q = data_of (patches p) /\
  Struct.unpack_8I (Py.slice (ncontent q) (352 + 32) (352 + 64))
  = Ok [1; F; added_data_segment; 0; Py.len (added_data q);
        Py.len (added_data q); 6; 0] /\
  Py.slice (ncontent q) F (F + Py.len (added_data q)) = added_data q /\
  Struct.unpack_8I (Py.slice (ncontent q) 352 (352 + 32))
  = Ok [1; Py.len (ncontent q); added_code_segment; 0; Py.len (added_code q);
        Py.len (added_code q); 5; 0] /\
  Py.slice (ncontent q) (Py.len (ncontent q))
           (Py.len (ncontent q) + Py.len (added_code q)) = [].
Proof.
  intros p q.
  apply (compile_patches_added_segments Sample.env 1 p q 352).
  - vm_compute. reflexivity.
  - lia.
  - vm_compute. discriminate.
  - repeat constructor.
  - vm_compute. reflexivity.
Defined.

(** ** Inline replacements in the image that is returned *)










